(** * Content Coordinator: the draft workflow of [src/app/page.tsx]

    The page keeps one [WorkflowResult] in React state and drives three remote
    agents (news, personality, draft) from two handlers,
    [handleGenerateDraft] and [handleRegenerateDraft].  This development
    embeds the handlers, the [callAgent] helper they share and the pieces of
    the JavaScript runtime they rely on ([JSON.parse], [JSON.stringify],
    [typeof], property access, [slice], truthiness), and proves the
    properties the specification states about them.

    The runtime is modelled as ECMA-262 defines it:
    - a JavaScript string is a sequence of 16-bit code units ([string]); a
      surrogate that has no partner is a code unit like any other;
    - a JavaScript number is an IEEE 754 double ([number]): [JSON.parse]
      rounds the decimal it reads to the nearest double, ties to even, and
      [JSON.stringify] prints the shortest decimal that reads back;
    - an object is the list of its members in the order in which the engine
      enumerates them: the keys that are array indices first, in ascending
      order, then the other keys in the order of their insertion. *)

From Stdlib Require Import Ascii List ZArith QArith Qround Qpower Bool Arith Lia.
Import ListNotations.

(** ** Strings *)

(** A UTF-16 code unit, as its high and its low byte. *)
Record char16 : Set := Char16 { high : ascii; low : ascii }.

Inductive string : Set :=
| EmptyString : string
| String (c : char16) (s : string) : string.

(** Literals denote the characters of Latin-1, one code unit for each
    byte. *)
Definition char16_of_byte (b : Byte.byte) : char16 :=
  Char16 zero (ascii_of_byte b).

Definition byte_of_char16 (c : char16) : option Byte.byte :=
  match high c with
  | Ascii false false false false false false false false =>
      Some (byte_of_ascii (low c))
  | _ => None
  end.

Fixpoint string_of_bytes (l : list Byte.byte) : string :=
  match l with
  | [] => EmptyString
  | b :: r => String (char16_of_byte b) (string_of_bytes r)
  end.

Fixpoint bytes_of_string (s : string) : option (list Byte.byte) :=
  match s with
  | EmptyString => Some []
  | String c r =>
      match byte_of_char16 c, bytes_of_string r with
      | Some b, Some l => Some (b :: l)
      | _, _ => None
      end
  end.

Declare Scope char16_scope.
Delimit Scope char16_scope with char16.
Bind Scope char16_scope with char16.
Declare Scope string_scope.
Delimit Scope string_scope with string.
Bind Scope string_scope with string.
String Notation char16 char16_of_byte byte_of_char16 : char16_scope.
String Notation string string_of_bytes bytes_of_string : string_scope.

Module Char16.

Definition eqb (a b : char16) : bool :=
  Ascii.eqb (high a) (high b) && Ascii.eqb (low a) (low b).

(** The code unit as a number, [0] to [65535]. *)
Definition code (c : char16) : N :=
  (256 * N_of_ascii (high c) + N_of_ascii (low c))%N.

(** [U+0000] to [U+001F]. *)
Definition is_control (c : char16) : bool :=
  Ascii.eqb (high c) zero && (N_of_ascii (low c) <? 32)%N.

(** [U+D800] to [U+DBFF]: the first half of a surrogate pair. *)
Definition is_leading (c : char16) : bool :=
  (216 <=? N_of_ascii (high c))%N && (N_of_ascii (high c) <=? 219)%N.

(** [U+DC00] to [U+DFFF]: the second half of a surrogate pair. *)
Definition is_trailing (c : char16) : bool :=
  (220 <=? N_of_ascii (high c))%N && (N_of_ascii (high c) <=? 223)%N.

End Char16.

Module String.

Fixpoint append (a b : string) : string :=
  match a with
  | EmptyString => b
  | String c a' => String c (append a' b)
  end.

Fixpoint length (s : string) : nat :=
  match s with
  | EmptyString => 0
  | String _ r => S (length r)
  end.

(** The first [n] code units. *)
Fixpoint take (n : nat) (s : string) : string :=
  match n, s with
  | S n', String c r => String c (take n' r)
  | _, _ => EmptyString
  end.

Fixpoint eqb (a b : string) : bool :=
  match a, b with
  | EmptyString, EmptyString => true
  | String x a', String y b' => Char16.eqb x y && eqb a' b'
  | _, _ => false
  end.

End String.

Notation "a ++ b" := (String.append a b) : string_scope.

Local Open Scope nat_scope.
Local Open Scope list_scope.
Local Open Scope string_scope.

(** ** Characters used by the JSON grammar *)

Definition dquote : char16 := "034"%char16.
Definition backslash : char16 := "092"%char16.
Definition newline : char16 := "010"%char16.
Definition str1 (c : char16) : string := String c EmptyString.

(** ** Numbers: IEEE 754 doubles *)

(** [Finite s m e] is the double of value [(-1)^s * m * 2^e]; the two zeros
    are [Finite false 0 emin] and [Finite true 0 emin]. *)
Inductive number : Set :=
| NaN : number
| Infinite (negative : bool) : number
| Finite (negative : bool) (mantissa exponent : Z) : number.

Definition emin : Z := (-1074)%Z.
Definition emax : Z := 971%Z.

(** The doubles: a mantissa of 53 bits whose leading bit is set, or a
    shorter one at the least exponent (zero and the subnormal numbers). *)
Definition is_double (x : number) : bool :=
  match x with
  | Finite _ m e =>
      (0 <=? m)%Z && (m <? 2 ^ 53)%Z && (emin <=? e)%Z && (e <=? emax)%Z
      && ((2 ^ 52 <=? m)%Z || (e =? emin)%Z)
  | _ => true
  end.

Definition is_zero (x : number) : bool :=
  match x with
  | Finite _ m _ => (m =? 0)%Z
  | _ => false
  end.

Definition is_nan (x : number) : bool :=
  match x with
  | NaN => true
  | _ => false
  end.

Definition is_finite (x : number) : bool :=
  match x with
  | Finite _ _ _ => true
  | _ => false
  end.

Definition number_eqb (x y : number) : bool :=
  match x, y with
  | NaN, NaN => true
  | Infinite a, Infinite b => Bool.eqb a b
  | Finite a m e, Finite b m' e' =>
      Bool.eqb a b && (m =? m')%Z && (e =? e')%Z
  | _, _ => false
  end.

(** The real number a finite double denotes. *)
Definition number_value (x : number) : Q :=
  match x with
  | Finite s m e =>
      (inject_Z (if s then (- m)%Z else m) * (2 # 1) ^ e)%Q
  | _ => 0%Q
  end.

(** The [z] with [2^z <= x < 2^(z+1)], for a positive [x]. *)
Definition floor_log2 (x : Q) : Z :=
  let t := (Z.log2 (Qnum x) - Z.log2 (Zpos (Qden x)))%Z in
  if Qle_bool ((2 # 1) ^ t) x then t else (t - 1)%Z.

(** The nearest integer; of two nearest, the even one. *)
Definition round_half_even (x : Q) : Z :=
  let f := Qfloor x in
  match Qcompare (x - inject_Z f) (1 # 2) with
  | Lt => f
  | Gt => (f + 1)%Z
  | Eq => if Z.even f then f else (f + 1)%Z
  end.

(** The double nearest to the magnitude [x], ties to even, with the given
    sign: [x] is scaled so that its integer part has 53 bits (fewer at
    the least exponent) and rounded to an integer; a magnitude that rounds
    beyond the largest double gives an infinity. *)
Definition round_double (negative : bool) (x : Q) : number :=
  let x := Qred x in
  if Qle_bool x 0 then Finite negative 0 emin
  else
    let e := Z.max emin (floor_log2 x - 52) in
    let m := round_half_even (x / (2 # 1) ^ e) in
    let (m, e) :=
      if (m =? 2 ^ 53)%Z then ((2 ^ 52)%Z, (e + 1)%Z) else (m, e) in
    if (e <=? emax)%Z then Finite negative m e else Infinite negative.

(** The value [s * 10^t] of a decimal, and the double it is read as. *)
Definition decimal_value (s t : Z) : Q := (inject_Z s * (10 # 1) ^ t)%Q.

Definition round_decimal (negative : bool) (s t : Z) : number :=
  round_double negative (decimal_value s t).

(** *** Decimal digits *)

Inductive digit : Set := D0 | D1 | D2 | D3 | D4 | D5 | D6 | D7 | D8 | D9.

Definition char_of_digit (d : digit) : char16 :=
  match d with
  | D0 => "0" | D1 => "1" | D2 => "2" | D3 => "3" | D4 => "4"
  | D5 => "5" | D6 => "6" | D7 => "7" | D8 => "8" | D9 => "9"
  end%char16.

Definition digit_of_char (c : char16) : option digit :=
  if Char16.eqb c "0" then Some D0 else
  if Char16.eqb c "1" then Some D1 else
  if Char16.eqb c "2" then Some D2 else
  if Char16.eqb c "3" then Some D3 else
  if Char16.eqb c "4" then Some D4 else
  if Char16.eqb c "5" then Some D5 else
  if Char16.eqb c "6" then Some D6 else
  if Char16.eqb c "7" then Some D7 else
  if Char16.eqb c "8" then Some D8 else
  if Char16.eqb c "9" then Some D9 else None.

Definition Z_of_digit (d : digit) : Z :=
  match d with
  | D0 => 0 | D1 => 1 | D2 => 2 | D3 => 3 | D4 => 4
  | D5 => 5 | D6 => 6 | D7 => 7 | D8 => 8 | D9 => 9
  end%Z.

Definition digit_of_Z (n : Z) : digit :=
  match n with
  | 0 => D0 | 1 => D1 | 2 => D2 | 3 => D3 | 4 => D4
  | 5 => D5 | 6 => D6 | 7 => D7 | 8 => D8 | _ => D9
  end%Z.

Definition is_D0 (d : digit) : bool :=
  match d with D0 => true | _ => false end.

(** The number a row of digits denotes, most significant digit first. *)
Definition Z_of_digits (l : list digit) : Z :=
  fold_left (fun acc d => (10 * acc + Z_of_digit d)%Z) l 0%Z.

Fixpoint digits_onto (fuel : nat) (n : Z) (acc : list digit) : list digit :=
  match fuel with
  | O => acc
  | S fuel' =>
      if (n <? 10)%Z then digit_of_Z n :: acc
      else digits_onto fuel' (n / 10)%Z (digit_of_Z (n mod 10) :: acc)
  end.

(** The decimal digits of [n >= 0], without leading zeros ([0] for zero). *)
Definition digits_of_Z (n : Z) : list digit :=
  digits_onto (S (Z.to_nat (Z.log2 n))) n [].

Fixpoint drop_zeros (l : list digit) : list digit :=
  match l with
  | D0 :: r => drop_zeros r
  | _ => l
  end.

Definition strip_trailing (l : list digit) : list digit :=
  rev (drop_zeros (rev l)).

(** *** [Number::toString] *)

(** The finite decimal [s * 10^t] that a double [m * 2^e] is equal to. *)
Definition exact_decimal (m e : Z) : Z * Z :=
  if (0 <=? e)%Z then ((m * 2 ^ e)%Z, 0%Z) else ((m * 5 ^ (- e))%Z, e).

(** The shortest decimal that is read as the double [x], found among the
    prefixes of its exact decimal [s * 10^t], the shortest first: [j] is the
    number of digits left out; a prefix is taken as it is or with its last
    digit raised by one, whichever is read as [x]; when both are, the one
    nearer to [x], and of two equally near the even one.  With no digit left
    out the decimal is [x] itself. *)
Fixpoint shortest (x : number) (s t : Z) (j : nat) : Z * Z :=
  match j with
  | O => (s, t)
  | S j' =>
      let u := (10 ^ Z.of_nat j)%Z in
      let lo := (s / u)%Z in
      let hi := (lo + 1)%Z in
      let t' := (t + Z.of_nat j)%Z in
      match number_eqb (round_decimal false lo t') x,
            number_eqb (round_decimal false hi t') x with
      | true, true =>
          match (2 * (s mod u) ?= u)%Z with
          | Lt => (lo, t')
          | Gt => (hi, t')
          | Eq => if Z.even lo then (lo, t') else (hi, t')
          end
      | true, false => (lo, t')
      | false, true => (hi, t')
      | false, false => shortest x s t j'
      end
  end.

Fixpoint string_of_digits (l : list digit) : string :=
  match l with
  | [] => EmptyString
  | d :: r => String (char_of_digit d) (string_of_digits r)
  end.

(** A number literal without a sign: the digits of the integer part, the
    fraction when it has digits, and the exponent when there is one. *)
Definition fraction_text (fp : list digit) : string :=
  match fp with
  | [] => EmptyString
  | _ => "." ++ string_of_digits fp
  end.

Definition exponent_text (ex : option Z) : string :=
  match ex with
  | None => EmptyString
  | Some e =>
      "e" ++ (if (e <? 0)%Z then "-" else "+")
      ++ string_of_digits (digits_of_Z (Z.abs e))
  end.

Definition decimal_text (ip fp : list digit) (ex : option Z) : string :=
  string_of_digits ip ++ fraction_text fp ++ exponent_text ex.

(** The text of the decimal [0.d1...dk * 10^n], [ds] being its [k] digits:
    without an exponent when [-6 < n <= 21], and otherwise with one digit
    before the point and the exponent [n - 1]. *)
Definition print_decimal (ds : list digit) (n : Z) : string :=
  let k := length ds in
  if (Z.of_nat k <=? n)%Z && (n <=? 21)%Z then
    decimal_text (ds ++ repeat D0 (Z.to_nat n - k))%list [] None
  else if (0 <? n)%Z && (n <=? 21)%Z then
    decimal_text (firstn (Z.to_nat n) ds) (skipn (Z.to_nat n) ds) None
  else if (-6 <? n)%Z && (n <=? 0)%Z then
    decimal_text [D0] (repeat D0 (Z.to_nat (- n)) ++ ds)%list None
  else
    decimal_text (firstn 1 ds) (skipn 1 ds) (Some (n - 1)%Z).

(** The text of the positive double [m * 2^e]. *)
Definition print_positive (m e : Z) : string :=
  let (s0, t0) := exact_decimal m e in
  let (s, t) :=
    shortest (Finite false m e) s0 t0 (length (digits_of_Z s0) - 1) in
  let all := digits_of_Z s in
  print_decimal (strip_trailing all) (t + Z.of_nat (length all)).

(** [Number::toString] in radix 10, which template literals and
    [JSON.stringify] use; both zeros print as [0]. *)
Definition print_number (x : number) : string :=
  match x with
  | NaN => "NaN"
  | Infinite negative => if negative then "-Infinity" else "Infinity"
  | Finite negative m e =>
      if (m =? 0)%Z then "0"
      else (if negative then "-" else EmptyString) ++ print_positive m e
  end.

(** ** JSON values and JavaScript values *)

#[warnings="-register-all"]
Inductive json : Set :=
| JNull : json
| JBool (b : bool) : json
| JNum (n : number) : json
| JStr (s : string) : json
| JArr (items : list json) : json
| JObj (members : list (string * json)) : json.

(** What a JavaScript expression of the page evaluates to: [undefined], or
    a value that JSON can carry ([null] is [J JNull]). *)
Inductive jsval : Set :=
| undefined : jsval
| J (v : json) : jsval.

Definition null : jsval := J JNull.

Section JsonInduction.
Variable P : json -> Prop.
Hypothesis Hnull : P JNull.
Hypothesis Hbool : forall b, P (JBool b).
Hypothesis Hnum : forall n, P (JNum n).
Hypothesis Hstr : forall s, P (JStr s).
Hypothesis Harr : forall l, Forall P l -> P (JArr l).
Hypothesis Hobj : forall l, Forall (fun kv => P (snd kv)) l -> P (JObj l).

Fixpoint json_nested_ind (v : json) : P v :=
  match v with
  | JNull => Hnull
  | JBool b => Hbool b
  | JNum n => Hnum n
  | JStr s => Hstr s
  | JArr l =>
      Harr l ((fix go (l : list json) : Forall P l :=
                 match l with
                 | [] => Forall_nil P
                 | x :: r => Forall_cons x (json_nested_ind x) (go r)
                 end) l)
  | JObj l =>
      Hobj l ((fix go (l : list (string * json))
                 : Forall (fun kv => P (snd kv)) l :=
                 match l with
                 | [] => Forall_nil _
                 | kv :: r =>
                     Forall_cons kv (json_nested_ind (snd kv)) (go r)
                 end) l)
  end.
End JsonInduction.

(** ** [JSON.stringify] *)

Definition hex_digit (k : N) : char16 :=
  match k with
  | 0 => "0" | 1 => "1" | 2 => "2" | 3 => "3" | 4 => "4" | 5 => "5"
  | 6 => "6" | 7 => "7" | 8 => "8" | 9 => "9" | 10 => "a" | 11 => "b"
  | 12 => "c" | 13 => "d" | 14 => "e" | _ => "f"
  end%N%char16.

(** The two hexadecimal digits of a byte, in lower case. *)
Definition hex_byte (a : ascii) (rest : string) : string :=
  String (hex_digit (N_of_ascii a / 16))
    (String (hex_digit (N_of_ascii a mod 16)) rest).

(** [UnicodeEscape]: a backslash, [u] and the four hexadecimal digits of
    the code unit. *)
Definition unicode_escape_of (c : char16) : string :=
  String backslash (String "u" (hex_byte (high c) (hex_byte (low c) EmptyString))).

(** [QuoteJSONString], one code point that is one code unit: the two
    characters that must be escaped, the five short escapes, [UnicodeEscape]
    for the other control characters and for a surrogate without its
    partner, and every other code unit as it is. *)
Definition escape_char (c : char16) : string :=
  if Char16.eqb c dquote then String backslash (str1 dquote)
  else if Char16.eqb c backslash then String backslash (str1 backslash)
  else if Char16.eqb c "008" then String backslash "b"
  else if Char16.eqb c "012" then String backslash "f"
  else if Char16.eqb c "010" then String backslash "n"
  else if Char16.eqb c "013" then String backslash "r"
  else if Char16.eqb c "009" then String backslash "t"
  else if Char16.is_control c || Char16.is_leading c || Char16.is_trailing c
  then unicode_escape_of c
  else str1 c.

(** [QuoteJSONString] walks the code points of the string: a leading
    surrogate followed by a trailing one is one code point and is copied;
    every other code unit is a code point of its own. *)
Fixpoint escape_string (s : string) : string :=
  match s with
  | EmptyString => EmptyString
  | String c r =>
      match r with
      | String d r' =>
          if Char16.is_leading c && Char16.is_trailing d
          then String c (String d (escape_string r'))
          else escape_char c ++ escape_string r
      | EmptyString => escape_char c ++ escape_string r
      end
  end.

Definition quote (s : string) : string :=
  String dquote (escape_string s) ++ str1 dquote.

(** [JSON.stringify(v)] with no indentation: no white space is emitted; a
    number that is not finite prints as [null].
    An array prints its first element and then each further element after a
    comma; an object does the same with its [key:value] members. *)
Fixpoint JSON_stringify (v : json) : string :=
  match v with
  | JNull => "null"
  | JBool true => "true"
  | JBool false => "false"
  | JNum n => if is_finite n then print_number n else "null"
  | JStr s => quote s
  | JArr [] => "[]"
  | JArr (x :: r) =>
      "[" ++ JSON_stringify x
      ++ (fix more (r : list json) : string :=
            match r with
            | [] => "]"
            | y :: r' => "," ++ JSON_stringify y ++ more r'
            end) r
  | JObj [] => "{}"
  | JObj ((k, x) :: r) =>
      "{" ++ quote k ++ ":" ++ JSON_stringify x
      ++ (fix more (r : list (string * json)) : string :=
            match r with
            | [] => "}"
            | (k', y) :: r' =>
                "," ++ quote k' ++ ":" ++ JSON_stringify y ++ more r'
            end) r
  end.

(** The two tails of the printer, named so that lemmas can speak of them. *)
Fixpoint more_items (r : list json) : string :=
  match r with
  | [] => "]"
  | y :: r' => "," ++ JSON_stringify y ++ more_items r'
  end.

Fixpoint more_members (r : list (string * json)) : string :=
  match r with
  | [] => "}"
  | (k, y) :: r' => "," ++ quote k ++ ":" ++ JSON_stringify y ++ more_members r'
  end.

(** ** [JSON.parse] *)

Definition is_ws (c : char16) : bool :=
  Char16.eqb c " " || Char16.eqb c "009" || Char16.eqb c "010"
  || Char16.eqb c "013".

Fixpoint skip_ws (s : string) : string :=
  match s with
  | String c r => if is_ws c then skip_ws r else s
  | EmptyString => s
  end.

Fixpoint expect (lit s : string) : option string :=
  match lit with
  | EmptyString => Some s
  | String a lit' =>
      match s with
      | String b s' => if Char16.eqb a b then expect lit' s' else None
      | EmptyString => None
      end
  end.

Fixpoint span_digits (s : string) : list digit * string :=
  match s with
  | String c r =>
      match digit_of_char c with
      | Some d => let (ds, r') := span_digits r in (d :: ds, r')
      | None => ([], s)
      end
  | EmptyString => ([], s)
  end.

Definition parse_sign (s : string) : bool * string :=
  match s with
  | String c r => if Char16.eqb c "-" then (true, r) else (false, s)
  | EmptyString => (false, s)
  end.

(** The integer part: [0], or a non-zero digit followed by digits. *)
Definition parse_int (s : string) : option (list digit * string) :=
  match span_digits s with
  | ([], _) => None
  | (D0 :: _ :: _, _) => None
  | (ip, r) => Some (ip, r)
  end.

Definition parse_frac (s : string) : option (list digit * string) :=
  match s with
  | String c r =>
      if Char16.eqb c "." then
        match span_digits r with
        | ([], _) => None
        | (fp, r') => Some (fp, r')
        end
      else Some ([], s)
  | EmptyString => Some ([], s)
  end.

(** The exponent part; [0] when there is none. *)
Definition parse_exp (s : string) : option (Z * string) :=
  match s with
  | String c r =>
      if Char16.eqb c "e" || Char16.eqb c "E" then
        let (sg, r1) :=
          match r with
          | String c' r' =>
              if Char16.eqb c' "-" then (true, r')
              else if Char16.eqb c' "+" then (false, r')
              else (false, r)
          | EmptyString => (false, r)
          end in
        match span_digits r1 with
        | ([], _) => None
        | (ds, r2) =>
            Some (if sg then (- Z_of_digits ds)%Z else Z_of_digits ds, r2)
        end
      else Some (0%Z, s)
  | EmptyString => Some (0%Z, s)
  end.

(** A number literal denotes the decimal whose digits are those of its
    integer part and its fraction, scaled by its exponent; its value is
    rounded to a double, and a minus sign gives the negative zero when the
    rounded magnitude is zero. *)
Definition parse_number (s : string) : option (number * string) :=
  let (sg, s1) := parse_sign s in
  match parse_int s1 with
  | None => None
  | Some (ip, s2) =>
      match parse_frac s2 with
      | None => None
      | Some (fp, s3) =>
          match parse_exp s3 with
          | None => None
          | Some (e, s4) =>
              Some (round_decimal sg (Z_of_digits (ip ++ fp)%list)
                      (e - Z.of_nat (length fp)), s4)
          end
      end
  end.

Definition hex_value (c : char16) : option N :=
  if Ascii.eqb (high c) zero then
    let k := N_of_ascii (low c) in
    if (48 <=? k)%N && (k <=? 57)%N then Some (k - 48)%N
    else if (97 <=? k)%N && (k <=? 102)%N then Some (k - 87)%N
    else if (65 <=? k)%N && (k <=? 70)%N then Some (k - 55)%N
    else None
  else None.

Definition byte_of_hex (h1 h2 : char16) : option ascii :=
  match hex_value h1, hex_value h2 with
  | Some a, Some b => Some (ascii_of_N (a * 16 + b))
  | _, _ => None
  end.

(** The code unit of [\uXXXX]; [None] when a digit is not hexadecimal. *)
Definition unicode_escape (h1 h2 h3 h4 : char16) : option char16 :=
  match byte_of_hex h1 h2, byte_of_hex h3 h4 with
  | Some h, Some l => Some (Char16 h l)
  | _, _ => None
  end.

Definition short_escape (e : char16) : option char16 :=
  if Char16.eqb e dquote then Some dquote
  else if Char16.eqb e backslash then Some backslash
  else if Char16.eqb e "/" then Some "/"%char16
  else if Char16.eqb e "b" then Some "008"%char16
  else if Char16.eqb e "f" then Some "012"%char16
  else if Char16.eqb e "n" then Some "010"%char16
  else if Char16.eqb e "r" then Some "013"%char16
  else if Char16.eqb e "t" then Some "009"%char16
  else None.

Definition cons_char (c : char16) (r : option (string * string))
  : option (string * string) :=
  match r with
  | Some (str, rest) => Some (String c str, rest)
  | None => None
  end.

(** The characters of a string literal after its opening quote, up to and
    including the closing quote. *)
Fixpoint parse_string_body (s : string) : option (string * string) :=
  match s with
  | EmptyString => None
  | String c r =>
      if Char16.eqb c dquote then Some (EmptyString, r)
      else if Char16.eqb c backslash then
        match r with
        | EmptyString => None
        | String e r' =>
            match short_escape e with
            | Some x => cons_char x (parse_string_body r')
            | None =>
                if Char16.eqb e "u" then
                  match r' with
                  | String h1 (String h2 (String h3 (String h4 r''))) =>
                      match unicode_escape h1 h2 h3 h4 with
                      | Some x => cons_char x (parse_string_body r'')
                      | None => None
                      end
                  | _ => None
                  end
                else None
            end
        end
      else if Char16.is_control c then None
      else cons_char c (parse_string_body r)
  end.

(** A member's key and the colon after it. *)
Definition parse_key (s : string) : option (string * string) :=
  match skip_ws s with
  | String c r =>
      if Char16.eqb c dquote then
        match parse_string_body r with
        | Some (k, r1) =>
            match skip_ws r1 with
            | String c' r2 => if Char16.eqb c' ":" then Some (k, r2) else None
            | EmptyString => None
            end
        | None => None
        end
      else None
  | EmptyString => None
  end.

(** An array index: a canonical decimal numeral below [2^32 - 1]. *)
Definition array_index (key : string) : option Z :=
  match span_digits key with
  | ([], _) => None
  | (D0 :: _ :: _, _) => None
  | (ds, EmptyString) =>
      if (Z_of_digits ds <? 2 ^ 32 - 1)%Z then Some (Z_of_digits ds) else None
  | (_, String _ _) => None
  end.

(** Whether the engine enumerates a new key [k] before the key [k'] that
    the object has: array indices in ascending order, and before all other
    keys. *)
Definition comes_before (k k' : string) : bool :=
  match array_index k, array_index k' with
  | Some i, Some j => (i <? j)%Z
  | Some _, None => true
  | None, _ => false
  end.

Definition has_key (k : string) (l : list (string * json)) : bool :=
  existsb (fun m => String.eqb (fst m) k) l.

Fixpoint replace_member (l : list (string * json)) (kv : string * json)
  : list (string * json) :=
  match l with
  | [] => []
  | (k', v') :: r =>
      if String.eqb k' (fst kv) then (k', snd kv) :: r
      else (k', v') :: replace_member r kv
  end.

Fixpoint add_member (l : list (string * json)) (kv : string * json)
  : list (string * json) :=
  match l with
  | [] => [kv]
  | (k', v') :: r =>
      if comes_before (fst kv) k' then kv :: l
      else (k', v') :: add_member r kv
  end.

(** [CreateDataProperty]: defining a property that exists keeps its place
    and replaces its value; a new one takes its place in the order of
    enumeration. *)
Definition obj_set (l : list (string * json)) (kv : string * json)
  : list (string * json) :=
  if has_key (fst kv) l then replace_member l kv else add_member l kv.

Definition with_value (v : json) (r : option string) : option (json * string) :=
  match r with
  | Some rest => Some (v, rest)
  | None => None
  end.

(** Recursive descent; [fuel] bounds the nesting and the number of elements
    in a row, and [JSON_parse] supplies more than the text is long. *)
Fixpoint parse_value (fuel : nat) (s : string) {struct fuel}
  : option (json * string) :=
  match fuel with
  | O => None
  | S fuel' =>
      match skip_ws s with
      | EmptyString => None
      | String c r =>
          if Char16.eqb c "n" then with_value JNull (expect "ull" r)
          else if Char16.eqb c "t" then with_value (JBool true) (expect "rue" r)
          else if Char16.eqb c "f" then with_value (JBool false) (expect "alse" r)
          else if Char16.eqb c dquote then
            match parse_string_body r with
            | Some (str, r') => Some (JStr str, r')
            | None => None
            end
          else if Char16.eqb c "[" then
            match skip_ws r with
            | EmptyString => None
            | String c' r' =>
                if Char16.eqb c' "]" then Some (JArr [], r')
                else
                  match parse_value fuel' r with
                  | Some (x, r1) =>
                      match parse_items fuel' r1 with
                      | Some (xs, r2) => Some (JArr (x :: xs), r2)
                      | None => None
                      end
                  | None => None
                  end
            end
          else if Char16.eqb c "{" then
            match skip_ws r with
            | EmptyString => None
            | String c' r' =>
                if Char16.eqb c' "}" then Some (JObj [], r')
                else
                  match parse_key r with
                  | Some (k, r1) =>
                      match parse_value fuel' r1 with
                      | Some (x, r2) =>
                          match parse_members fuel' r2 with
                          | Some (ms, r3) =>
                              Some (JObj (fold_left obj_set ((k, x) :: ms) []), r3)
                          | None => None
                          end
                      | None => None
                      end
                  | None => None
                  end
            end
          else
            match parse_number (String c r) with
            | Some (n, r') => Some (JNum n, r')
            | None => None
            end
      end
  end
with parse_items (fuel : nat) (s : string) {struct fuel}
  : option (list json * string) :=
  match fuel with
  | O => None
  | S fuel' =>
      match skip_ws s with
      | EmptyString => None
      | String c r =>
          if Char16.eqb c "]" then Some ([], r)
          else if Char16.eqb c "," then
            match parse_value fuel' r with
            | Some (x, r1) =>
                match parse_items fuel' r1 with
                | Some (xs, r2) => Some (x :: xs, r2)
                | None => None
                end
            | None => None
            end
          else None
      end
  end
with parse_members (fuel : nat) (s : string) {struct fuel}
  : option (list (string * json) * string) :=
  match fuel with
  | O => None
  | S fuel' =>
      match skip_ws s with
      | EmptyString => None
      | String c r =>
          if Char16.eqb c "}" then Some ([], r)
          else if Char16.eqb c "," then
            match parse_key r with
            | Some (k, r1) =>
                match parse_value fuel' r1 with
                | Some (x, r2) =>
                    match parse_members fuel' r2 with
                    | Some (ms, r3) => Some ((k, x) :: ms, r3)
                    | None => None
                    end
                | None => None
                end
            | None => None
            end
          else None
      end
  end.

(** [JSON.parse(text)]: one value, white space around it, nothing else.
    [None] is the [SyntaxError]. *)
Definition JSON_parse (text : string) : option json :=
  match parse_value (S (String.length text)) text with
  | Some (v, rest) =>
      match skip_ws rest with
      | EmptyString => Some v
      | String _ _ => None
      end
  | None => None
  end.

(** ** Well-formed values and the shape of printed text *)

Fixpoint distinct (keys : list string) : bool :=
  match keys with
  | [] => true
  | k :: r => negb (existsb (String.eqb k) r) && distinct r
  end.

(** The order of enumeration: no key comes before a key that precedes it
    in the list. *)
Fixpoint in_order (keys : list string) : bool :=
  match keys with
  | [] => true
  | k' :: r => forallb (fun k => negb (comes_before k k')) r && in_order r
  end.

(** The invariants of a JavaScript value that the types above do not
    enforce: a number is a double, and the keys of an object are distinct
    and in the order of enumeration. *)
Fixpoint wf_json (v : json) : bool :=
  match v with
  | JNum n => is_double n
  | JArr items => forallb wf_json items
  | JObj members =>
      distinct (map fst members) && in_order (map fst members)
      && forallb (fun kv => wf_json (snd kv)) members
  | _ => true
  end.

(** What a finite number is after [JSON.stringify] and [JSON.parse]: both
    zeros are printed as [0]. *)
Definition reread (x : number) : number :=
  match x with
  | Finite s m e => if (m =? 0)%Z then Finite false 0 emin else x
  | _ => x
  end.

(** What [JSON.stringify] makes of a value, read as a value again: both
    zeros are printed as [0], and a number that is not finite as [null]. *)
Fixpoint after_stringify (v : json) : json :=
  match v with
  | JNum n => if is_finite n then JNum (reread n) else JNull
  | JArr items => JArr (map after_stringify items)
  | JObj members =>
      JObj (map (fun kv => (fst kv, after_stringify (snd kv))) members)
  | _ => v
  end.

(** A value that [JSON.stringify] prints as it is: no negative zero and no
    number that is not finite. *)
Fixpoint plain (v : json) : bool :=
  match v with
  | JNum (Finite s m _) => negb (s && (m =? 0)%Z)
  | JNum _ => false
  | JArr items => forallb plain items
  | JObj members => forallb (fun kv => plain (snd kv)) members
  | _ => true
  end.

Fixpoint size (v : json) : nat :=
  match v with
  | JArr items => S (list_sum (map (fun x => S (size x)) items))
  | JObj members => S (list_sum (map (fun kv => S (size (snd kv))) members))
  | _ => 1
  end.

(** The code units that a string literal holds as they are. *)
Definition copied (c : char16) : bool :=
  negb (Char16.eqb c dquote) && negb (Char16.eqb c backslash)
  && negb (Char16.is_control c).

(** Whether a text begins with a digit. *)
Definition digit_head (s : string) : bool :=
  match s with
  | EmptyString => false
  | String c _ =>
      match digit_of_char c with
      | Some _ => true
      | None => false
      end
  end.

(** The digits of an integer part: at least one, and no leading zero before
    another digit. *)
Definition int_digits (ip : list digit) : bool :=
  match ip with
  | [] => false
  | D0 :: _ :: _ => false
  | _ => true
  end.

(** Where the text of a number ends: at the end of the text, or before a
    character that cannot continue a number. *)
Definition number_ends (rest : string) : bool :=
  match rest with
  | EmptyString => true
  | String c _ =>
      match digit_of_char c with
      | Some _ => false
      | None =>
          negb (Char16.eqb c "." || Char16.eqb c "e" || Char16.eqb c "E")
      end
  end.

(** The characters a printed value can begin with. *)
Definition starts_value (c : char16) : bool :=
  Char16.eqb c "n" || Char16.eqb c "t" || Char16.eqb c "f"
  || Char16.eqb c dquote || Char16.eqb c "[" || Char16.eqb c "{"
  || Char16.eqb c "-"
  || match digit_of_char c with Some _ => true | None => false end.

(** How a text may go on after a value that [JSON_stringify] printed: it
    ends, or a comma or a closing bracket follows. *)
Definition closes (rest : string) : bool :=
  match rest with
  | EmptyString => true
  | String c _ => Char16.eqb c "," || Char16.eqb c "]" || Char16.eqb c "}"
  end.

(** ** The JavaScript operations the page uses *)

(** What a [throw] or a rejected promise carries: an [Error] object with its
    message, or some other value. *)
Inductive thrown : Set :=
| ErrorObject (message : string)
| OtherValue.

Inductive completion (A : Type) : Type :=
| Return (a : A)
| Throw (t : thrown).
Arguments Return {A} a.
Arguments Throw {A} t.

Definition and_then {A B : Type} (c : completion A) (k : A -> completion B)
  : completion B :=
  match c with
  | Return a => k a
  | Throw t => Throw t
  end.

(** [typeof x === 'string'] *)
Definition typeof_string (x : jsval) : bool :=
  match x with
  | J (JStr _) => true
  | _ => false
  end.

(** [ToBoolean] *)
Definition truthy (x : jsval) : bool :=
  match x with
  | undefined => false
  | J JNull => false
  | J (JBool b) => b
  | J (JNum n) => negb (is_zero n || is_nan n)
  | J (JStr s) => negb (String.eqb s EmptyString)
  | J (JArr _) => true
  | J (JObj _) => true
  end.

Fixpoint lookup (key : string) (ms : list (string * json)) : option json :=
  match ms with
  | [] => None
  | (k, v) :: r => if String.eqb k key then Some v else lookup key r
  end.

(** [JSON.stringify(x)] is [undefined] for [undefined]; a template literal
    then prints the word. *)
Definition stringify_js (x : jsval) : option string :=
  match x with
  | undefined => None
  | J v => Some (JSON_stringify v)
  end.

Definition interpolate (x : option string) : string :=
  match x with
  | Some s => s
  | None => "undefined"
  end.

(** ** The data of the page *)

(** The three interfaces of the news stage and the objects that inhabit
    them at run time. *)
Record NewsItem : Set := {
  headline : string;
  source : string;
  date : string;
  summary : string;
  key_takeaway : string;
  url : string;
  relevance_score : number
}.

Record SearchMetadata : Set := {
  queries_executed : list string;
  total_results_found : number;
  results_selected : number;
  search_timestamp : string
}.

Record NewsResponse : Set := {
  news_summary : list NewsItem;
  search_metadata : SearchMetadata;
  confidence : number
}.

Definition json_of_NewsItem (i : NewsItem) : json :=
  JObj [ ("headline", JStr (headline i));
         ("source", JStr (source i));
         ("date", JStr (date i));
         ("summary", JStr (summary i));
         ("key_takeaway", JStr (key_takeaway i));
         ("url", JStr (url i));
         ("relevance_score", JNum (relevance_score i)) ].

Definition json_of_SearchMetadata (m : SearchMetadata) : json :=
  JObj [ ("queries_executed", JArr (map JStr (queries_executed m)));
         ("total_results_found", JNum (total_results_found m));
         ("results_selected", JNum (results_selected m));
         ("search_timestamp", JStr (search_timestamp m)) ].

Definition json_of_NewsResponse (r : NewsResponse) : json :=
  JObj [ ("news_summary", JArr (map json_of_NewsItem (news_summary r)));
         ("search_metadata", json_of_SearchMetadata (search_metadata r));
         ("confidence", JNum (confidence r)) ].

(** [v.key] on a value that is known not to be [null]. *)
Definition field (key : string) (v : json) : jsval :=
  match v with
  | JObj ms =>
      match lookup key ms with
      | Some x => J x
      | None => undefined
      end
  | _ => undefined
  end.

(** The [relevance_score] of each item of a news result, as the page reads
    them when it renders the items. *)
Definition relevance_scores (newsResult : jsval) : list jsval :=
  match newsResult with
  | J v =>
      match field "news_summary" v with
      | J (JArr items) => map (field "relevance_score") items
      | _ => []
      end
  | undefined => []
  end.

(** [WorkflowResult]: the three stage results are whatever the decoded
    replies were, [null] before the first run. *)
Record WorkflowResult : Set := {
  news : jsval;
  personality : jsval;
  draft : jsval;
  loading : bool;
  error : option string
}.

(** The body of the POST to [/api/agent]. *)
Record request : Set := {
  message : string;
  agent_id : string
}.

(** What [await fetch(...)] followed by [await response.json()] gives: a
    rejection of either promise, or the parsed body. *)
Inductive reply : Set :=
| Rejected (t : thrown)
| Data (data : json).

(** Everything outside the page: the endpoint, which answers the [n]-th
    request of the session, and the messages the engine puts in the errors
    it raises itself. *)
Record runtime : Type := {
  fetch_agent : nat -> request -> reply;
  type_error : string -> string;
  syntax_error : string -> string
}.

(** The page: the current React state, the states it replaced (newest
    first) and the requests sent so far (oldest first). *)
Record page : Type := {
  result : WorkflowResult;
  history : list WorkflowResult;
  sent : list request
}.

Definition M (A : Type) : Type := page -> completion A * page.

Definition ret {A : Type} (a : A) : M A := fun p => (Return a, p).

Definition bind {A B : Type} (m : M A) (k : A -> M B) : M B :=
  fun p =>
    match m p with
    | (Return a, p') => k a p'
    | (Throw t, p') => (Throw t, p')
    end.

Definition lift {A : Type} (c : completion A) : M A := fun p => (c, p).

Definition try_catch {A : Type} (body : M A) (handler : thrown -> M A) : M A :=
  fun p =>
    match body p with
    | (Return a, p') => (Return a, p')
    | (Throw t, p') => handler t p'
    end.

Declare Scope page_scope.
Delimit Scope page_scope with page.
Notation "x <- m ;; k" := (bind m (fun x => k))
  (at level 61, m at next level, right associativity) : page_scope.
Notation "m ;; k" := (bind m (fun _ => k))
  (at level 61, right associativity) : page_scope.

(** [setResult(f)]: the state becomes [f prev]; [setResult(s)] is
    [setResult(_ => s)]. *)
Definition setResult (f : WorkflowResult -> WorkflowResult) : M unit :=
  fun p =>
    (Return tt,
     {| result := f (result p);
        history := result p :: history p;
        sent := sent p |}).

(** [useState] initial value, line 79. *)
Definition initialResult : WorkflowResult :=
  {| news := null; personality := null; draft := null;
     loading := false; error := None |}.

Definition initialPage : page :=
  {| result := initialResult; history := []; sent := [] |}.

Module AGENT_IDS.
Definition news : string := "690443fbe26dd0e0368525c4".
Definition personality : string := "6904440fe26dd0e0368525c5".
Definition draft : string := "6904441bcb70cd01d307c50e".
End AGENT_IDS.

Definition nl2 : string := String newline (str1 newline).

Definition NEWS_PROMPT : string :=
  "Search for the latest AI and Lyzr news articles. Focus on recent developments, breakthroughs, and industry updates. Return structured JSON with headlines, sources, dates, summaries, key takeaways, URLs, and relevance scores.".

Definition PERSONALITY_PROMPT : string :=
  "Analyze the tone, style, and communication patterns for a Discord community manager sharing tech news. Create a comprehensive personality profile including formality, vocabulary, emoji usage, humor style, engagement approach, key phrases, and topic angles. Return structured JSON format.".

(** The template literal of line 141. *)
Definition generatePrompt (personalityContext newsContext : option string)
  : string :=
  "Using this personality profile: " ++ interpolate personalityContext
  ++ nl2 ++ "And these news items: " ++ interpolate newsContext
  ++ nl2 ++ "Generate an engaging Discord message that incorporates 2-3 news items. Match the personality profile exactly. Include appropriate markdown formatting and structure the message for maximum engagement in a Discord channel. Return JSON with the draft message and detailed metadata.".

(** The template literal of line 176. *)
Definition regeneratePrompt (personalityContext newsContext : option string)
  : string :=
  "Using this personality profile: " ++ interpolate personalityContext
  ++ nl2 ++ "And these news items: " ++ interpolate newsContext
  ++ nl2 ++ "Generate a NEW and DIFFERENT engaging Discord message. Use a fresh approach while maintaining the personality profile. Return JSON with the draft message and detailed metadata.".

(** ** The handlers *)

Section Handlers.

Variable rt : runtime.

(** [x.key] for a key that no prototype defines ([success], [response],
    [news_summary], [personality_profile]): a [TypeError] on [null] and
    [undefined], the member of an object, [undefined] otherwise. *)
Definition get_prop (x : jsval) (key : string) : completion jsval :=
  match x with
  | undefined => Throw (ErrorObject (type_error rt key))
  | J JNull => Throw (ErrorObject (type_error rt key))
  | J (JObj ms) =>
      Return (match lookup key ms with
              | Some v => J v
              | None => undefined
              end)
  | J _ => Return undefined
  end.

(** [x.slice(0, 3)]: arrays and strings have the method; on anything else
    the call is a [TypeError]. *)
Definition slice_0_3 (x : jsval) : completion jsval :=
  match x with
  | J (JArr items) => Return (J (JArr (firstn 3 items)))
  | J (JStr s) => Return (J (JStr (String.take 3 s)))
  | _ => Throw (ErrorObject (type_error rt "slice"))
  end.

(** [typeof d === 'string' ? JSON.parse(d) : d], lines 119-120, 128-131,
    144-145 and 179-180. *)
Definition decode (d : jsval) : completion jsval :=
  match d with
  | J (JStr text) =>
      match JSON_parse text with
      | Some v => Return (J v)
      | None => Throw (ErrorObject (syntax_error rt text))
      end
  | _ => Return d
  end.

(** [JSON.stringify(newsResult.news_summary.slice(0, 3))], lines 134 and
    169. *)
Definition newsContext (newsResult : jsval) : completion (option string) :=
  and_then (get_prop newsResult "news_summary") (fun all =>
  and_then (slice_0_3 all) (fun top =>
  Return (stringify_js top))).

(** [JSON.stringify(personalityResult.personality_profile)], lines 135-137
    and 170-172. *)
Definition personalityContext (personalityResult : jsval)
  : completion (option string) :=
  and_then (get_prop personalityResult "personality_profile") (fun profile =>
  Return (stringify_js profile)).

Local Open Scope page_scope.

(** Lines 94-107.  The request is sent before anything can fail. *)
Definition callAgent (agentId message : string) : M jsval :=
  fun p =>
    let req := {| message := message; agent_id := agentId |} in
    let p' := {| result := result p; history := history p;
                 sent := (sent p ++ [req])%list |} in
    match fetch_agent rt (length (sent p)) req with
    | Rejected t => (Throw t, p')
    | Data data =>
        (and_then (get_prop (J data) "success") (fun success =>
         if negb (truthy success)
         then Throw (ErrorObject "Agent call failed")
         else get_prop (J data) "response"),
         p')
    end.

(** Step 1, lines 114-120. *)
Definition newsStage : M jsval :=
  newsData <- callAgent AGENT_IDS.news NEWS_PROMPT ;;
  lift (decode newsData).

(** Step 2, lines 123-131. *)
Definition personalityStage : M jsval :=
  personalityData <- callAgent AGENT_IDS.personality PERSONALITY_PROMPT ;;
  lift (decode personalityData).

(** Step 3, lines 134-145, and its variant of lines 169-180; the two differ
    in the template only. *)
Definition draftStage (prompt : option string -> option string -> string)
  (newsResult personalityResult : jsval) : M jsval :=
  nc <- lift (newsContext newsResult) ;;
  pc <- lift (personalityContext personalityResult) ;;
  draftData <- callAgent AGENT_IDS.draft (prompt pc nc) ;;
  lift (decode draftData).

(** [err instanceof Error ? err.message : fallback] *)
Definition errorText (fallback : string) (err : thrown) : string :=
  match err with
  | ErrorObject m => m
  | OtherValue => fallback
  end.

(** [{ ...prev, loading: true, error: null }], lines 110 and 166. *)
Definition started (prev : WorkflowResult) : WorkflowResult :=
  {| news := news prev; personality := personality prev; draft := draft prev;
     loading := true; error := None |}.

(** [{ ...prev, loading: false, error: ... }], lines 155-159 and 188-192. *)
Definition failed (fallback : string) (err : thrown) (prev : WorkflowResult)
  : WorkflowResult :=
  {| news := news prev; personality := personality prev; draft := draft prev;
     loading := false; error := Some (errorText fallback err) |}.

(** The [try] block of [handleGenerateDraft], lines 113-153. *)
Definition generateBody : M unit :=
  newsResult <- newsStage ;;
  personalityResult <- personalityStage ;;
  draftResult <- draftStage generatePrompt newsResult personalityResult ;;
  setResult (fun _ =>
    {| news := newsResult; personality := personalityResult;
       draft := draftResult; loading := false; error := None |}).

(** Lines 109-161. *)
Definition handleGenerateDraft : M unit :=
  setResult started ;;
  try_catch generateBody
    (fun err => setResult (failed "Failed to generate draft" err)).

(** The [try] block of [handleRegenerateDraft], lines 169-186; [result] is
    the state the handler closed over. *)
Definition regenerateBody (result : WorkflowResult) : M unit :=
  draftResult <-
    draftStage regeneratePrompt (news result) (personality result) ;;
  setResult (fun prev =>
    {| news := news prev; personality := personality prev;
       draft := draftResult; loading := false; error := error prev |}).

(** Lines 163-194.  The state the handler closed over is the one current
    when it is invoked. *)
Definition handleRegenerateDraft : M unit :=
  fun p =>
    let result := result p in
    if negb (truthy (news result)) || negb (truthy (personality result))
    then (Return tt, p)
    else
      (setResult started ;;
       try_catch (regenerateBody result)
         (fun err => setResult (failed "Failed to regenerate draft" err))) p.

(** The page after the first [setResult] of a run. *)
Definition begun (p : page) : page := snd (setResult started p).

(** The pages a session can be in between two handlers: the buttons are
    disabled while [loading] is set, so a handler starts when the previous
    one has finished. *)
Inductive reachable : page -> Prop :=
| reach_initial : reachable initialPage
| reach_generate p : reachable p -> reachable (snd (handleGenerateDraft p))
| reach_regenerate p : reachable p -> reachable (snd (handleRegenerateDraft p)).


(** The invariant of [WorkflowResult]: no error is shown while loading. *)
Definition loading_clears_error (s : WorkflowResult) : Prop :=
  loading s = true -> error s = None.

End Handlers.

(** ** Sample sessions *)

(** The double that the decimal with the integer digits [ip] and the
    fraction digits [fp] is read as. *)
Definition dec (sg : bool) (ip fp : list digit) : number :=
  round_decimal sg (Z_of_digits (ip ++ fp)%list) (- Z.of_nat (length fp)).

Definition sampleItem (title : string) (score : number) : NewsItem :=
  {| headline := title; source := "wire"; date := "2025-01-01";
     summary := "summary"; key_takeaway := "takeaway";
     url := "https://example.org"; relevance_score := score |}.

(** Five items whose order is not the order of their scores; the third one
    has the score 1.5. *)
Definition item1 : NewsItem := sampleItem "first" (dec false [D0] [D2]).
Definition item2 : NewsItem := sampleItem "second" (dec false [D0] [D9]).
Definition item3 : NewsItem := sampleItem "third" (dec false [D1] [D5]).
Definition item4 : NewsItem := sampleItem "fourth" (dec false [D0] [D7]).
Definition item5 : NewsItem := sampleItem "fifth" (dec false [D0] [D9; D5]).

Definition sampleMetadata : SearchMetadata :=
  {| queries_executed := ["ai news"; "lyzr"];
     total_results_found := dec false [D4; D2] [];
     results_selected := dec false [D5] [];
     search_timestamp := "2025-01-01T00:00:00Z" |}.

Definition newsOf (items : list NewsItem) : NewsResponse :=
  {| news_summary := items; search_metadata := sampleMetadata;
     confidence := dec false [D0] [D8] |}.

Definition fiveNews : json :=
  json_of_NewsResponse (newsOf [item1; item2; item3; item4; item5]).

Definition twoNews : json := json_of_NewsResponse (newsOf [item1; item2]).

Definition sampleProfile : json :=
  JObj [ ("personality_profile",
          JObj [ ("tone", JStr "friendly");
                 ("formality_level", JStr "informal");
                 ("key_phrases", JArr [JStr "heads up"]) ]);
         ("confidence", JNum (dec false [D0] [D9]));
         ("analysis_summary", JStr "casual") ].

Definition sampleDraft (text : string) : json :=
  JObj [ ("draft_message", JStr text);
         ("metadata", JObj [ ("character_count", JNum (dec false [D5] [])) ]);
         ("confidence", JNum (dec false [D0] [D9]));
         ("generation_notes", JStr "none") ].

(** A body with [success: true] and the payload, and one with
    [success: false]. *)
Definition accepted (payload : json) : reply :=
  Data (JObj [ ("success", JBool true); ("response", payload) ]).

Definition refused : reply :=
  Data (JObj [ ("success", JBool false) ]).

(** An endpoint that answers the requests of a session from a list. *)
Definition scripted (replies : list reply) : runtime :=
  {| fetch_agent := fun n _ => nth n replies (Rejected OtherValue);
     type_error := fun key => "Cannot read properties: " ++ key;
     syntax_error := fun _ => "Unexpected token" |}.

Definition allAccepted : runtime :=
  scripted [ accepted fiveNews; accepted sampleProfile;
             accepted (sampleDraft "hello");
             accepted (sampleDraft "hello again") ].

Definition fewItems : runtime :=
  scripted [ accepted twoNews; accepted sampleProfile;
             accepted (sampleDraft "hello");
             accepted (sampleDraft "hello again") ].

Definition profileRefused : runtime :=
  scripted [ accepted fiveNews; refused ].

(** A session whose first run succeeds and whose second run is refused by
    the news agent. *)
Definition newsRefusedLater : runtime :=
  scripted [ accepted fiveNews; accepted sampleProfile;
             accepted (sampleDraft "hello"); refused ].

(** ** [JSON.stringify(value, null, 2)] *)

Definition gap : string := "  ".

(** A line feed and the indentation of the line it opens. *)
Definition line (indent : string) : string := String newline indent.

(** [SerializeJSONProperty] with a gap of two spaces: an array or an object
    that is not empty puts each element on a line of its own, one step
    deeper, and its closing bracket on a line at its own depth; a key is
    followed by a colon and a space. *)
Fixpoint JSON_stringify_indent (indent : string) (v : json) : string :=
  match v with
  | JArr [] => "[]"
  | JArr (x :: r) =>
      "[" ++ line (indent ++ gap) ++ JSON_stringify_indent (indent ++ gap) x
      ++ (fix more (r : list json) : string :=
            match r with
            | [] => line indent ++ "]"
            | y :: r' =>
                "," ++ line (indent ++ gap)
                ++ JSON_stringify_indent (indent ++ gap) y ++ more r'
            end) r
  | JObj [] => "{}"
  | JObj ((k, x) :: r) =>
      "{" ++ line (indent ++ gap) ++ quote k ++ ": "
      ++ JSON_stringify_indent (indent ++ gap) x
      ++ (fix more (r : list (string * json)) : string :=
            match r with
            | [] => line indent ++ "}"
            | (k', y) :: r' =>
                "," ++ line (indent ++ gap) ++ quote k' ++ ": "
                ++ JSON_stringify_indent (indent ++ gap) y ++ more r'
            end) r
  | _ => JSON_stringify v
  end.

Definition more_items_indent (indent : string) : list json -> string :=
  fix more (r : list json) : string :=
    match r with
    | [] => line indent ++ "]"
    | y :: r' =>
        "," ++ line (indent ++ gap)
        ++ JSON_stringify_indent (indent ++ gap) y ++ more r'
    end.

Definition more_members_indent (indent : string)
  : list (string * json) -> string :=
  fix more (r : list (string * json)) : string :=
    match r with
    | [] => line indent ++ "}"
    | (k, y) :: r' =>
        "," ++ line (indent ++ gap) ++ quote k ++ ": "
        ++ JSON_stringify_indent (indent ++ gap) y ++ more r'
    end.

Fixpoint all_ws (s : string) : bool :=
  match s with
  | EmptyString => true
  | String c r => is_ws c && all_ws r
  end.

(** How an indented text may go on after a value: it ends, or white space,
    a comma or a closing bracket follows. *)
Definition follows_value (rest : string) : bool :=
  match rest with
  | EmptyString => true
  | String c _ =>
      is_ws c || Char16.eqb c "," || Char16.eqb c "]" || Char16.eqb c "}"
  end.

(** ** The shape of what the page holds *)

(** [null] or [undefined]. *)
Definition nullish (x : jsval) : bool :=
  match x with
  | undefined => true
  | J JNull => true
  | J _ => false
  end.

(** An object whose [news_summary] has a [slice] method: an array or a
    string. *)
Definition has_summary (x : jsval) : bool :=
  match x with
  | J (JObj ms) =>
      match lookup "news_summary" ms with
      | Some (JArr _) => true
      | Some (JStr _) => true
      | _ => false
      end
  | _ => false
  end.

(** Nothing has been committed yet, or a news result and a personality
    result have been committed together. *)
Definition committed_together (s : WorkflowResult) : Prop :=
  (news s = null /\ personality s = null /\ draft s = null)
  \/ (has_summary (news s) = true /\ nullish (personality s) = false).

Definition newsRequest : request :=
  {| message := NEWS_PROMPT; agent_id := AGENT_IDS.news |}.

Definition personalityRequest : request :=
  {| message := PERSONALITY_PROMPT; agent_id := AGENT_IDS.personality |}.

Definition draftRequest (prompt : option string -> option string -> string)
  (personalityContext newsContext : option string) : request :=
  {| message := prompt personalityContext newsContext;
     agent_id := AGENT_IDS.draft |}.

(** ** Saving the draft *)

(** The two readings of the clock in [handleSaveDraft]:
    [new Date().toISOString()] and [Date.now()]. *)
Record clock : Set := {
  toISOString : string;
  now : number
}.

(** What the browser is asked to download: the [download] attribute of the
    anchor, and the type and the text of the [Blob]. *)
Record download : Set := {
  filename : string;
  mime : string;
  content : string
}.

(** [x?.key] *)
Definition optional_field (key : string) (x : jsval) : jsval :=
  match x with
  | undefined => undefined
  | J JNull => undefined
  | J v => field key v
  end.

(** The properties of an object literal that [JSON.stringify] serializes:
    those whose value is not [undefined]. *)
Fixpoint defined_members (props : list (string * jsval))
  : list (string * json) :=
  match props with
  | [] => []
  | (k, undefined) :: r => defined_members r
  | (k, J v) :: r => (k, v) :: defined_members r
  end.

(** The object literal of lines 200-206; [draft] is [result.draft], which
    the guard of line 197 has found truthy. *)
Definition savedData (draft : json) (timestamp : string)
  (result : WorkflowResult) : list (string * jsval) :=
  [ ("draft", field "draft_message" draft);
    ("metadata", field "metadata" draft);
    ("timestamp", J (JStr timestamp));
    ("personality", personality result);
    ("news", optional_field "news_summary" (news result)) ].

(** Lines 196-217: nothing without a draft; otherwise the download of the
    indented JSON text of [savedData]. *)
Definition handleSaveDraft (c : clock) (result : WorkflowResult)
  : option download :=
  if negb (truthy (draft result)) then None
  else
    match draft result with
    | undefined => None
    | J d =>
        Some {| filename := "discord-draft-" ++ print_number (now c) ++ ".json";
                mime := "application/json";
                content :=
                  JSON_stringify_indent EmptyString
                    (JObj (defined_members
                             (savedData d (toISOString c) result))) |}
    end.

(** A value of the page that keeps the invariants of JavaScript values. *)
Definition wf_js (x : jsval) : bool :=
  match x with
  | undefined => true
  | J v => wf_json v
  end.

(** ** More sample sessions *)

Definition sampleClock : clock :=
  {| toISOString := "2025-01-01T00:00:00.000Z";
     now := dec false [D1; D7; D3; D5; D6; D8; D9; D6; D0; D0; D0; D0; D0] [] |}.

(** The news agent answers with plain text instead of JSON. *)
Definition plainTextNews : runtime :=
  scripted [ accepted (JStr "Here is the news of today") ].

(** The news agent answers with an object of another shape. *)
Definition shapelessNews : runtime :=
  scripted [ accepted (JObj [ ("articles", JArr []) ]);
             accepted sampleProfile ].

(** The personality agent answers without a [personality_profile]. *)
Definition profileWithoutKey : runtime :=
  scripted [ accepted fiveNews;
             accepted (JObj [ ("confidence", JNum (dec false [D0] [D9])) ]);
             accepted (sampleDraft "hello") ].

Definition draftRefused : runtime :=
  scripted [ accepted fiveNews; accepted sampleProfile; refused ].

(** The endpoint cannot be reached, and the rejection is not an [Error]. *)
Definition unreachable : runtime := scripted [].

(** A first run succeeds, the second is refused by the news agent, and the
    draft agent answers again afterwards. *)
Definition refusedThenAccepted : runtime :=
  scripted [ accepted fiveNews; accepted sampleProfile;
             accepted (sampleDraft "hello"); refused;
             accepted (sampleDraft "hello again") ].

(** The draft agent answers [success: true] without a [response]. *)
Definition draftWithoutPayload : runtime :=
  scripted [ accepted fiveNews; accepted sampleProfile;
             Data (JObj [ ("success", JBool true) ]) ].

(** Whether a text, white space apart, begins with a character that a JSON
    value can begin with. *)
Definition begins_value (text : string) : bool :=
  match skip_ws text with
  | EmptyString => false
  | String c _ => starts_value c
  end.


(** A payload whose number is the negative zero. *)
Definition negativeZeroPayload : json :=
  JObj [ ("confidence", JNum (Finite true 0 emin)) ].

(** Case analysis on the eight bits of a byte. *)
Ltac byte_cases a := destruct a as [[|] [|] [|] [|] [|] [|] [|] [|]].

(** Case analysis on every [match] of a hypothesis. *)
Ltac split_match H :=
  repeat match type of H with
  | context [match ?x with _ => _ end] =>
      let E := fresh "E" in destruct x eqn:E; try discriminate H
  end.

(** [await response.json()]: the data of every reply has been read by
    [JSON.parse] from the body of the response. *)
Definition parsed_bodies (rt : runtime) : Prop :=
  forall (k : nat) (req : request) (data : json),
    fetch_agent rt k req = Data data ->
    exists body, JSON_parse body = Some data.

(** The body of a reply that carries a payload. *)
Definition acceptedBody (payload : json) : string :=
  JSON_stringify (JObj [ ("success", JBool true); ("response", payload) ]).

(** A body whose payload holds the negative zero. *)
Definition negativeZeroBody : string :=
  "{" ++ quote "success" ++ ":true," ++ quote "response" ++ ":{"
  ++ quote "confidence" ++ ":-0}}".

(** ** The JSON grammar *)

(** The texts of the grammar of ECMA-404, as trees: a tree keeps everything
    that is written (the spelling of each number, each escape, the white
    space between the tokens), so that every JSON text is the text of
    a tree. *)

Inductive escape : Set :=
| EQuote | EBackslash | ESlash | Eb | Ef | En | Er | Et.

(** The character after the backslash, and the code unit denoted. *)
Definition escape_letter (e : escape) : char16 :=
  match e with
  | EQuote => dquote | EBackslash => backslash | ESlash => "/"
  | Eb => "b" | Ef => "f" | En => "n" | Er => "r" | Et => "t"
  end%char16.

Definition escape_unit (e : escape) : char16 :=
  match e with
  | EQuote => dquote | EBackslash => backslash | ESlash => "/"
  | Eb => "008" | Ef => "012" | En => "010" | Er => "013" | Et => "009"
  end%char16.

(** A hexadecimal digit as it is written: its value, and whether a letter
    is a capital. *)
Record hex : Set := Hex { hex_val : N; hex_upper : bool }.

Definition hex_char (h : hex) : char16 :=
  if (hex_val h <? 10)%N then Char16 zero (ascii_of_N (48 + hex_val h))
  else if hex_upper h then Char16 zero (ascii_of_N (55 + hex_val h))
  else Char16 zero (ascii_of_N (87 + hex_val h)).

(** One character of a string literal: a code unit written as it is, a
    short escape, or [\uXXXX]. *)
Inductive strchar : Set :=
| Plain (c : char16)
| Escaped (e : escape)
| Unicode (h1 h2 h3 h4 : hex).

Definition wf_strchar (x : strchar) : bool :=
  match x with
  | Plain c => copied c
  | Escaped _ => true
  | Unicode h1 h2 h3 h4 =>
      (hex_val h1 <? 16)%N && (hex_val h2 <? 16)%N
      && (hex_val h3 <? 16)%N && (hex_val h4 <? 16)%N
  end.

Definition strchar_text (x : strchar) : string :=
  match x with
  | Plain c => str1 c
  | Escaped e => String backslash (str1 (escape_letter e))
  | Unicode h1 h2 h3 h4 =>
      String backslash
        (String "u"
           (String (hex_char h1)
              (String (hex_char h2)
                 (String (hex_char h3) (str1 (hex_char h4))))))
  end.

Definition strchar_unit (x : strchar) : char16 :=
  match x with
  | Plain c => c
  | Escaped e => escape_unit e
  | Unicode h1 h2 h3 h4 =>
      Char16 (ascii_of_N (hex_val h1 * 16 + hex_val h2))
             (ascii_of_N (hex_val h3 * 16 + hex_val h4))
  end.

Fixpoint chars_text (cs : list strchar) : string :=
  match cs with
  | [] => EmptyString
  | x :: r => strchar_text x ++ chars_text r
  end.

Fixpoint chars_value (cs : list strchar) : string :=
  match cs with
  | [] => EmptyString
  | x :: r => String (strchar_unit x) (chars_value r)
  end.

Definition string_text (cs : list strchar) : string :=
  String dquote (chars_text cs ++ str1 dquote).

(** The exponent of a number literal: the letter, the sign when one is
    written ([true] for the minus sign), and the digits. *)
Record exponent : Set := {
  capital : bool;
  exp_sign : option bool;
  exp_digits : list digit
}.

(** A number literal: the sign, the digits of the integer part, the digits
    of the fraction (none when there is no point) and the exponent. *)
Record literal : Set := {
  minus : bool;
  int_part : list digit;
  frac_part : list digit;
  exp_part : option exponent
}.

Definition wf_literal (l : literal) : bool :=
  int_digits (int_part l)
  && match exp_part l with
     | None => true
     | Some x =>
         match exp_digits x with
         | [] => false
         | _ => true
         end
     end.

Definition exponent_value (x : option exponent) : Z :=
  match x with
  | None => 0%Z
  | Some x =>
      match exp_sign x with
      | Some true => (- Z_of_digits (exp_digits x))%Z
      | _ => Z_of_digits (exp_digits x)
      end
  end.

Definition exponent_spelling (x : option exponent) : string :=
  match x with
  | None => EmptyString
  | Some x =>
      (if capital x then "E" else "e")
      ++ match exp_sign x with
         | None => EmptyString
         | Some true => "-"
         | Some false => "+"
         end
      ++ string_of_digits (exp_digits x)
  end.

Definition literal_text (l : literal) : string :=
  (if minus l then "-" else EmptyString)
  ++ string_of_digits (int_part l)
  ++ fraction_text (frac_part l)
  ++ exponent_spelling (exp_part l).

(** The number a literal denotes: the double nearest to the decimal that
    is written. *)
Definition literal_value (l : literal) : number :=
  round_decimal (minus l)
    (Z_of_digits (int_part l ++ frac_part l)%list)
    (exponent_value (exp_part l) - Z.of_nat (length (frac_part l))).

(** A value with the white space around it, and the key of a member with
    the white space around it. *)
#[warnings="-register-all"]
Inductive tree : Set :=
| TNull : tree
| TBool (b : bool) : tree
| TNum (l : literal) : tree
| TStr (cs : list strchar) : tree
| TArr (w : string) (items : list (string * tree * string)) : tree
| TObj (w : string)
       (members : list ((string * list strchar * string)
                        * (string * tree * string))) : tree.

Section TreeInduction.
Variable P : tree -> Prop.
Hypothesis Hnull : P TNull.
Hypothesis Hbool : forall b, P (TBool b).
Hypothesis Hnum : forall l, P (TNum l).
Hypothesis Hstr : forall cs, P (TStr cs).
Hypothesis Harr :
  forall w l, Forall (fun e => P (snd (fst e))) l -> P (TArr w l).
Hypothesis Hobj :
  forall w l, Forall (fun m => P (snd (fst (snd m)))) l -> P (TObj w l).

Fixpoint tree_nested_ind (t : tree) : P t :=
  match t with
  | TNull => Hnull
  | TBool b => Hbool b
  | TNum l => Hnum l
  | TStr cs => Hstr cs
  | TArr w l =>
      Harr w l
        ((fix go (l : list (string * tree * string))
            : Forall (fun e => P (snd (fst e))) l :=
            match l with
            | [] => Forall_nil _
            | e :: r =>
                Forall_cons e (tree_nested_ind (snd (fst e))) (go r)
            end) l)
  | TObj w l =>
      Hobj w l
        ((fix go (l : list ((string * list strchar * string)
                            * (string * tree * string)))
            : Forall (fun m => P (snd (fst (snd m)))) l :=
            match l with
            | [] => Forall_nil _
            | m :: r =>
                Forall_cons m (tree_nested_ind (snd (fst (snd m)))) (go r)
            end) l)
  end.
End TreeInduction.

Definition key_text (k : string * list strchar * string) : string :=
  fst (fst k) ++ string_text (snd (fst k)) ++ snd k.

(** The text of a tree.  An empty array or object holds white space
    only. *)
Fixpoint render (t : tree) : string :=
  match t with
  | TNull => "null"
  | TBool true => "true"
  | TBool false => "false"
  | TNum l => literal_text l
  | TStr cs => string_text cs
  | TArr w [] => "[" ++ w ++ "]"
  | TArr _ (e :: r) =>
      "[" ++ fst (fst e) ++ render (snd (fst e)) ++ snd e
      ++ (fix more (r : list (string * tree * string)) : string :=
            match r with
            | [] => "]"
            | e' :: r' =>
                "," ++ fst (fst e') ++ render (snd (fst e')) ++ snd e'
                ++ more r'
            end) r
  | TObj w [] => "{" ++ w ++ "}"
  | TObj _ (m :: r) =>
      "{" ++ key_text (fst m) ++ ":"
      ++ fst (fst (snd m)) ++ render (snd (fst (snd m))) ++ snd (snd m)
      ++ (fix more (r : list ((string * list strchar * string)
                              * (string * tree * string))) : string :=
            match r with
            | [] => "}"
            | m' :: r' =>
                "," ++ key_text (fst m') ++ ":"
                ++ fst (fst (snd m')) ++ render (snd (fst (snd m')))
                ++ snd (snd m') ++ more r'
            end) r
  end.

Fixpoint more_elements (r : list (string * tree * string)) : string :=
  match r with
  | [] => "]"
  | e :: r' =>
      "," ++ fst (fst e) ++ render (snd (fst e)) ++ snd e ++ more_elements r'
  end.

Fixpoint more_pairs (r : list ((string * list strchar * string)
                               * (string * tree * string))) : string :=
  match r with
  | [] => "}"
  | m :: r' =>
      "," ++ key_text (fst m) ++ ":"
      ++ fst (fst (snd m)) ++ render (snd (fst (snd m))) ++ snd (snd m)
      ++ more_pairs r'
  end.

(** The value a tree denotes: each number literal the double nearest to
    what is written, each string the code units its characters denote, and
    the members of an object defined one after the other, so that of two
    members with the same key the later one gives the value. *)
Fixpoint value (t : tree) : json :=
  match t with
  | TNull => JNull
  | TBool b => JBool b
  | TNum l => JNum (literal_value l)
  | TStr cs => JStr (chars_value cs)
  | TArr _ items => JArr (map (fun e => value (snd (fst e))) items)
  | TObj _ members =>
      JObj (fold_left obj_set
              (map (fun m => (chars_value (snd (fst (fst m))),
                              value (snd (fst (snd m))))) members) [])
  end.

Definition wf_key (k : string * list strchar * string) : bool :=
  all_ws (fst (fst k)) && forallb wf_strchar (snd (fst k)) && all_ws (snd k).

(** The trees of the grammar. *)
Fixpoint wf_tree (t : tree) : bool :=
  match t with
  | TNum l => wf_literal l
  | TStr cs => forallb wf_strchar cs
  | TArr w items =>
      all_ws w
      && forallb (fun e => all_ws (fst (fst e)) && wf_tree (snd (fst e))
                           && all_ws (snd e)) items
  | TObj w members =>
      all_ws w
      && forallb (fun m => wf_key (fst m)
                           && (all_ws (fst (fst (snd m)))
                               && wf_tree (snd (fst (snd m)))
                               && all_ws (snd (snd m)))) members
  | _ => true
  end.

(** The JSON texts: a tree of the grammar, with white space around it. *)
Definition json_text (text : string) : Prop :=
  exists a t b,
    all_ws a = true /\ wf_tree t = true /\ all_ws b = true
    /\ text = a ++ render t ++ b.

Fixpoint tree_size (t : tree) : nat :=
  match t with
  | TArr _ items =>
      S (list_sum (map (fun e => S (tree_size (snd (fst e)))) items))
  | TObj _ members =>
      S (list_sum (map (fun m => S (tree_size (snd (fst (snd m))))) members))
  | _ => 1
  end.


(** *** Sample texts *)

Fixpoint plain_chars (s : string) : list strchar :=
  match s with
  | EmptyString => []
  | String c r => Plain c :: plain_chars r
  end.

Definition plainKey (name : string) : string * list strchar * string :=
  (EmptyString, plain_chars name, " ").

(** A news reply that holds nothing but the scores of its items, each
    written as the literal says, with white space between the tokens. *)
Definition scoreItem (l : literal) : tree :=
  TObj EmptyString [ (plainKey "relevance_score", (" ", TNum l, " ")) ].

Definition newsTree (scores : list literal) : tree :=
  TObj EmptyString
    [ (plainKey "news_summary",
       (" ",
        TArr EmptyString
          (map (fun l => (" ", scoreItem l, EmptyString)) scores),
        " ")) ].

(** [1.5], [15E-1], and [1.0000000000000000001]. *)
Definition onePointFive : literal :=
  {| minus := false; int_part := [D1]; frac_part := [D5];
     exp_part := None |}.

Definition fifteenTenths : literal :=
  {| minus := false; int_part := [D1; D5]; frac_part := [];
     exp_part := Some {| capital := true; exp_sign := Some true;
                         exp_digits := [D1] |} |}.

(** * Properties of the runtime model *)

(** ** Strings *)

Lemma char_eqb_refl (c : char16) : Char16.eqb c c = true.
Proof.
  destruct c as [h l]. unfold Char16.eqb. simpl.
  now rewrite !Ascii.eqb_refl.
Qed.

Lemma char_eqb_eq (a b : char16) : Char16.eqb a b = true <-> a = b.
Proof.
  destruct a as [h l], b as [h' l']. unfold Char16.eqb. simpl. split.
  - intros H. apply andb_true_iff in H. destruct H as [H1 H2].
    apply Ascii.eqb_eq in H1, H2. now subst.
  - intros H. injection H as -> ->. now rewrite !Ascii.eqb_refl.
Qed.

Lemma char_eqb_neq (a b : char16) : Char16.eqb a b = false <-> a <> b.
Proof.
  split.
  - intros H E. apply char_eqb_eq in E. congruence.
  - intros H. destruct (Char16.eqb a b) eqn:E; [|reflexivity].
    apply char_eqb_eq in E. contradiction.
Qed.

Lemma string_eqb_refl (s : string) : String.eqb s s = true.
Proof.
  induction s as [|c s IH]; simpl; [reflexivity|].
  now rewrite char_eqb_refl, IH.
Qed.

Lemma string_eqb_eq (a b : string) : String.eqb a b = true <-> a = b.
Proof.
  revert b. induction a as [|x a IH]; intros [|y b]; simpl; split;
    try reflexivity; try discriminate.
  - intros H. apply andb_true_iff in H. destruct H as [H1 H2].
    apply char_eqb_eq in H1. apply IH in H2. now subst.
  - intros H. injection H as -> ->. now rewrite char_eqb_refl, string_eqb_refl.
Qed.

Lemma string_eqb_neq (a b : string) : String.eqb a b = false <-> a <> b.
Proof.
  split.
  - intros H E. apply string_eqb_eq in E. congruence.
  - intros H. destruct (String.eqb a b) eqn:E; [|reflexivity].
    apply string_eqb_eq in E. contradiction.
Qed.

Lemma string_eqb_sym (a b : string) : String.eqb a b = String.eqb b a.
Proof.
  destruct (String.eqb a b) eqn:E.
  - apply string_eqb_eq in E. subst. symmetry. apply string_eqb_refl.
  - apply string_eqb_neq in E. symmetry. apply string_eqb_neq. congruence.
Qed.

Lemma append_assoc (a b c : string) : (a ++ b) ++ c = a ++ (b ++ c).
Proof.
  induction a as [|x a IH]; simpl; [reflexivity | now rewrite IH].
Qed.

Lemma append_empty_r (a : string) : a ++ EmptyString = a.
Proof.
  induction a as [|x a IH]; simpl; [reflexivity | now rewrite IH].
Qed.

Lemma length_append (a b : string) :
  String.length (a ++ b) = String.length a + String.length b.
Proof.
  induction a as [|x a IH]; simpl; [reflexivity | now rewrite IH].
Qed.

(** *** Escapes *)

Lemma byte_of_hex_byte (a : ascii) :
  byte_of_hex (hex_digit (N_of_ascii a / 16)) (hex_digit (N_of_ascii a mod 16))
  = Some a.
Proof. byte_cases a; reflexivity. Qed.

Lemma parse_unicode_escape (c : char16) (r : string) :
  parse_string_body (unicode_escape_of c ++ r)
  = cons_char c (parse_string_body r).
Proof.
  destruct c as [h l]. unfold unicode_escape_of, hex_byte. simpl high. simpl low.
  change (parse_string_body
            (String backslash
               (String "u"
                  (String (hex_digit (N_of_ascii h / 16))
                     (String (hex_digit (N_of_ascii h mod 16))
                        (String (hex_digit (N_of_ascii l / 16))
                           (String (hex_digit (N_of_ascii l mod 16)) EmptyString)))))
             ++ r))
    with (match unicode_escape (hex_digit (N_of_ascii h / 16))
                  (hex_digit (N_of_ascii h mod 16))
                  (hex_digit (N_of_ascii l / 16))
                  (hex_digit (N_of_ascii l mod 16)) with
          | Some x => cons_char x (parse_string_body r)
          | None => None
          end).
  unfold unicode_escape. now rewrite !byte_of_hex_byte.
Qed.

Lemma parse_copied (c : char16) (r : string) :
  copied c = true ->
  parse_string_body (String c r) = cons_char c (parse_string_body r).
Proof.
  unfold copied. intros H.
  apply andb_true_iff in H. destruct H as [H H3].
  apply andb_true_iff in H. destruct H as [H1 H2].
  apply negb_true_iff in H1, H2, H3.
  simpl. now rewrite H1, H2, H3.
Qed.

Lemma surrogate_copied (c : char16) :
  Char16.is_leading c || Char16.is_trailing c = true -> copied c = true.
Proof.
  destruct c as [h l]. byte_cases h; intros H; try discriminate H; reflexivity.
Qed.

(** One escaped code unit is read back as that code unit. *)
Lemma parse_escape_char (c : char16) (r : string) :
  parse_string_body (escape_char c ++ r) = cons_char c (parse_string_body r).
Proof.
  unfold escape_char.
  destruct (Char16.eqb c dquote) eqn:E1;
    [apply char_eqb_eq in E1; subst c; reflexivity|].
  destruct (Char16.eqb c backslash) eqn:E2;
    [apply char_eqb_eq in E2; subst c; reflexivity|].
  destruct (Char16.eqb c "008") eqn:E3;
    [apply char_eqb_eq in E3; subst c; reflexivity|].
  destruct (Char16.eqb c "012") eqn:E4;
    [apply char_eqb_eq in E4; subst c; reflexivity|].
  destruct (Char16.eqb c "010") eqn:E5;
    [apply char_eqb_eq in E5; subst c; reflexivity|].
  destruct (Char16.eqb c "013") eqn:E6;
    [apply char_eqb_eq in E6; subst c; reflexivity|].
  destruct (Char16.eqb c "009") eqn:E7;
    [apply char_eqb_eq in E7; subst c; reflexivity|].
  destruct (Char16.is_control c || Char16.is_leading c || Char16.is_trailing c)
    eqn:E8.
  - apply parse_unicode_escape.
  - apply orb_false_iff in E8. destruct E8 as [E8 _].
    apply orb_false_iff in E8. destruct E8 as [E8 _].
    apply parse_copied. unfold copied. now rewrite E1, E2, E8.
Qed.

Lemma escape_string_cons (c : char16) (s : string) :
  escape_string (String c s)
  = match s with
    | String d r' =>
        if Char16.is_leading c && Char16.is_trailing d
        then String c (String d (escape_string r'))
        else escape_char c ++ escape_string s
    | EmptyString => escape_char c ++ escape_string s
    end.
Proof. destruct s; reflexivity. Qed.

Lemma parse_escape_string_step (s : string) :
  (forall rest,
     parse_string_body (escape_string s ++ String dquote rest) = Some (s, rest))
  /\ (forall c rest,
        parse_string_body (escape_string (String c s) ++ String dquote rest)
        = Some (String c s, rest)).
Proof.
  induction s as [|d s [IH1 IH2]].
  - split; [reflexivity|]. intros c rest.
    rewrite escape_string_cons, append_assoc, parse_escape_char. reflexivity.
  - assert (H : forall rest,
      parse_string_body (escape_string (String d s) ++ String dquote rest)
      = Some (String d s, rest)) by (intros rest; apply IH2).
    split; [exact H|]. intros c rest.
    rewrite escape_string_cons.
    destruct (Char16.is_leading c && Char16.is_trailing d) eqn:E.
    + apply andb_true_iff in E. destruct E as [Ec Ed].
      change (String c (String d (escape_string s)) ++ String dquote rest)
        with (String c (String d (escape_string s ++ String dquote rest))).
      rewrite parse_copied by (apply surrogate_copied; now rewrite Ec).
      rewrite parse_copied
        by (apply surrogate_copied; rewrite Ed; apply orb_true_r).
      now rewrite IH1.
    + rewrite append_assoc, parse_escape_char, H. reflexivity.
Qed.

Lemma parse_escape_string (s rest : string) :
  parse_string_body (escape_string s ++ String dquote rest) = Some (s, rest).
Proof. apply parse_escape_string_step. Qed.

Lemma quote_unfold (s rest : string) :
  quote s ++ rest = String dquote (escape_string s ++ String dquote rest).
Proof.
  unfold quote. simpl. rewrite append_assoc. reflexivity.
Qed.

(** ** Numbers *)

(** *** Rounding *)

Lemma two_nz : ~ (2 # 1 == 0)%Q.
Proof. discriminate. Qed.

Lemma pow2_Z (n : Z) : (0 <= n)%Z -> (inject_Z (2 ^ n) == (2 # 1) ^ n)%Q.
Proof. intros H. exact (Zpower_Qpower 2 n H). Qed.

Lemma log2_unique_Q (x : Q) (a b : Z) :
  ((2 # 1) ^ a <= x)%Q -> (x < (2 # 1) ^ (a + 1))%Q ->
  ((2 # 1) ^ b <= x)%Q -> (x < (2 # 1) ^ (b + 1))%Q -> a = b.
Proof.
  intros A1 A2 B1 B2.
  assert (H1 : ((2 # 1) ^ a < (2 # 1) ^ (b + 1))%Q)
    by (eapply Qle_lt_trans; eauto).
  assert (H2 : ((2 # 1) ^ b < (2 # 1) ^ (a + 1))%Q)
    by (eapply Qle_lt_trans; eauto).
  apply Qpower_lt_compat_l_inv in H1; [|reflexivity].
  apply Qpower_lt_compat_l_inv in H2; [|reflexivity].
  lia.
Qed.

Lemma pow2_diff (u v : Z) :
  (0 <= u)%Z -> (0 <= v)%Z ->
  ((2 # 1) ^ (u - v) == (2 ^ u)%Z # Z.to_pos (2 ^ v))%Q.
Proof.
  intros Hu Hv.
  rewrite Qpower_minus by exact two_nz.
  rewrite <- (pow2_Z u Hu), <- (pow2_Z v Hv).
  assert (P : (0 < 2 ^ v)%Z) by (apply Z.pow_pos_nonneg; lia).
  rewrite (Qmake_Qdiv (2 ^ u) (Z.to_pos (2 ^ v))).
  rewrite Z2Pos.id by exact P. reflexivity.
Qed.

Lemma floor_log2_bounds (x : Q) :
  (0 < x)%Q ->
  let t := (Z.log2 (Qnum x) - Z.log2 (Zpos (Qden x)))%Z in
  ((2 # 1) ^ (t - 1) <= x)%Q /\ (x < (2 # 1) ^ (t + 1))%Q.
Proof.
  destruct x as [a b]. intros Ha. unfold Qlt in Ha. simpl in Ha.
  rewrite Z.mul_1_r in Ha. cbv zeta.
  change (Qnum (a # b)) with a. change (Qden (a # b)) with b.
  pose proof (Z.log2_spec a Ha) as [A1 A2].
  pose proof (Z.log2_spec (Zpos b) (Pos2Z.is_pos b)) as [B1 B2].
  pose proof (Z.log2_nonneg a) as La.
  pose proof (Z.log2_nonneg (Zpos b)) as Lb.
  set (la := Z.log2 a) in *. set (lb := Z.log2 (Zpos b)) in *.
  assert (Pa : (0 < 2 ^ la)%Z) by (apply Z.pow_pos_nonneg; lia).
  assert (Pb : (0 < 2 ^ lb)%Z) by (apply Z.pow_pos_nonneg; lia).
  assert (Pa1 : (0 < 2 ^ (la + 1))%Z) by (apply Z.pow_pos_nonneg; lia).
  assert (Pb1 : (0 < 2 ^ (lb + 1))%Z) by (apply Z.pow_pos_nonneg; lia).
  split.
  - replace (la - lb - 1)%Z with (la - (lb + 1))%Z by lia.
    rewrite pow2_diff by lia.
    unfold Qle. simpl. rewrite Z2Pos.id by exact Pb1. nia.
  - replace (la - lb + 1)%Z with ((la + 1) - lb)%Z by lia.
    rewrite pow2_diff by lia.
    unfold Qlt. simpl. rewrite Z2Pos.id by exact Pb. nia.
Qed.

Lemma floor_log2_spec (x : Q) :
  (0 < x)%Q ->
  ((2 # 1) ^ floor_log2 x <= x)%Q /\ (x < (2 # 1) ^ (floor_log2 x + 1))%Q.
Proof.
  intros Hx. destruct (floor_log2_bounds x Hx) as [B1 B2].
  unfold floor_log2.
  set (t := (Z.log2 (Qnum x) - Z.log2 (Zpos (Qden x)))%Z) in *.
  destruct (Qle_bool ((2 # 1) ^ t) x) eqn:E.
  - split; [apply Qle_bool_iff; exact E | exact B2].
  - split; [exact B1|].
    replace (t - 1 + 1)%Z with t by lia.
    apply Qnot_le_lt. intros H. apply Qle_bool_iff in H. congruence.
Qed.

Lemma round_half_even_comp (x y : Q) :
  (x == y)%Q -> round_half_even x = round_half_even y.
Proof.
  intros H. unfold round_half_even.
  rewrite (Qfloor_comp x y H).
  assert (E : (x - inject_Z (Qfloor y) == y - inject_Z (Qfloor y))%Q)
    by (rewrite H; reflexivity).
  rewrite (Qcompare_comp _ _ E (1 # 2)%Q (1 # 2)%Q (Qeq_refl _)). reflexivity.
Qed.

Lemma round_half_even_Z (m : Z) : round_half_even (inject_Z m) = m.
Proof.
  unfold round_half_even. rewrite Qfloor_Z.
  assert (E : (inject_Z m - inject_Z m == 0)%Q) by ring.
  rewrite (Qcompare_comp _ _ E (1 # 2)%Q (1 # 2)%Q (Qeq_refl _)). reflexivity.
Qed.

Lemma number_value_pos (m e : Z) :
  (0 < m)%Z -> (0 < number_value (Finite false m e))%Q.
Proof.
  intros H. unfold number_value.
  apply Qmult_lt_0_compat; [|apply Qpower_0_lt; reflexivity].
  unfold Qlt. simpl. lia.
Qed.

Lemma number_value_log2 (m e : Z) :
  (0 < m)%Z ->
  ((2 # 1) ^ (Z.log2 m + e) <= number_value (Finite false m e))%Q
  /\ (number_value (Finite false m e) < (2 # 1) ^ (Z.log2 m + e + 1))%Q.
Proof.
  intros H. pose proof (Z.log2_spec m H) as [A1 A2].
  pose proof (Z.log2_nonneg m) as L.
  assert (P : (0 < (2 # 1) ^ e)%Q) by (apply Qpower_0_lt; reflexivity).
  unfold number_value. split.
  - rewrite Qpower_plus by exact two_nz.
    apply Qmult_le_compat_r; [|apply Qlt_le_weak; exact P].
    rewrite <- pow2_Z by exact L. rewrite <- Zle_Qle. exact A1.
  - replace (Z.log2 m + e + 1)%Z with ((Z.log2 m + 1) + e)%Z by lia.
    rewrite Qpower_plus by exact two_nz.
    apply Qmult_lt_compat_r; [exact P|].
    rewrite <- pow2_Z by lia. rewrite <- Zlt_Qlt.
    replace (Z.log2 m + 1)%Z with (Z.succ (Z.log2 m)) by lia. exact A2.
Qed.

Lemma round_double_comp (s : bool) (x y : Q) :
  (x == y)%Q -> round_double s x = round_double s y.
Proof.
  intros H. unfold round_double. now rewrite (Qred_complete x y H).
Qed.

(** The sign is carried through. *)
Lemma round_double_finite (s : bool) (x : Q) (m e : Z) :
  round_double false x = Finite false m e ->
  round_double s x = Finite s m e.
Proof.
  unfold round_double.
  destruct (Qle_bool (Qred x) 0).
  - intros H. injection H as <- <-. reflexivity.
  - destruct (round_half_even _ =? 2 ^ 53)%Z.
    + destruct (_ <=? emax)%Z; [|discriminate].
      intros H. injection H as <- <-. reflexivity.
    + destruct (_ <=? emax)%Z; [|discriminate].
      intros H. injection H as <- <-. reflexivity.
Qed.

(** A double is the nearest double to its own value. *)
Lemma round_double_exact (m e : Z) (x : Q) :
  is_double (Finite false m e) = true -> (0 < m)%Z ->
  (x == number_value (Finite false m e))%Q ->
  round_double false x = Finite false m e.
Proof.
  intros V Hm Hx. unfold round_double.
  pose proof (Qred_correct x) as R.
  set (y := Qred x) in *.
  assert (Y : (y == number_value (Finite false m e))%Q)
    by (rewrite R; exact Hx).
  assert (Yp : (0 < y)%Q) by (rewrite Y; apply number_value_pos; exact Hm).
  destruct (Qle_bool y 0) eqn:Z0.
  { apply Qle_bool_iff in Z0. exfalso. exact (Qlt_not_le _ _ Yp Z0). }
  assert (L : floor_log2 y = (Z.log2 m + e)%Z).
  { destruct (floor_log2_spec y Yp) as [S1 S2].
    destruct (number_value_log2 m e Hm) as [E1 E2].
    rewrite <- Y in E1, E2.
    exact (log2_unique_Q y _ _ S1 S2 E1 E2). }
  rewrite L.
  unfold is_double in V.
  repeat (apply andb_prop in V; destruct V as [V ?]).
  assert (Hlt : (m < 2 ^ 53)%Z) by (apply Z.ltb_lt; assumption).
  assert (He1 : (emin <= e)%Z) by (apply Z.leb_le; assumption).
  assert (He2 : (e <= emax)%Z) by (apply Z.leb_le; assumption).
  assert (E : Z.max emin (Z.log2 m + e - 52) = e).
  { match goal with
    | H : (_ || _) = true |- _ => apply orb_prop in H; destruct H as [N|N]
    end.
    - apply Z.leb_le in N.
      assert (Z.log2 m = 52%Z).
      { apply Z.log2_unique; [lia|]. split; [exact N|exact Hlt]. }
      lia.
    - apply Z.eqb_eq in N.
      assert (Z.log2 m <= 52)%Z.
      { destruct (Z.le_gt_cases (Z.log2 m) 52) as [G|G]; [exact G|].
        exfalso. pose proof (Z.log2_spec m Hm) as [A _].
        assert ((2 ^ 53 <= 2 ^ Z.log2 m)%Z)
          by (apply Z.pow_le_mono_r; lia).
        lia. }
      lia. }
  rewrite E.
  assert (D : (y / (2 # 1) ^ e == inject_Z m)%Q).
  { rewrite Y. unfold number_value. field. apply Qpower_not_0. exact two_nz. }
  rewrite (round_half_even_comp _ _ D), round_half_even_Z.
  destruct (m =? 2 ^ 53)%Z eqn:M; [apply Z.eqb_eq in M; lia|].
  destruct (e <=? emax)%Z eqn:X; [reflexivity|].
  apply Z.leb_gt in X. lia.
Qed.

Lemma round_decimal_comp (sg : bool) (s t s' t' : Z) :
  (decimal_value s t == decimal_value s' t')%Q ->
  round_decimal sg s t = round_decimal sg s' t'.
Proof. intros H. unfold round_decimal. now apply round_double_comp. Qed.

Lemma round_decimal_zero (sg : bool) (t : Z) :
  round_decimal sg 0 t = Finite sg 0 emin.
Proof.
  unfold round_decimal.
  assert (E : (decimal_value 0 t == 0)%Q) by (unfold decimal_value; ring).
  rewrite (round_double_comp sg _ _ E). reflexivity.
Qed.

Lemma ten_nz : ~ (10 # 1 == 0)%Q.
Proof. discriminate. Qed.

Lemma pow10_Z (n : Z) : (0 <= n)%Z -> (inject_Z (10 ^ n) == (10 # 1) ^ n)%Q.
Proof. intros H. exact (Zpower_Qpower 10 n H). Qed.

(** Trailing zeros of the digits are part of the exponent. *)
Lemma decimal_value_shift (s t j : Z) :
  (0 <= j)%Z ->
  (decimal_value (s * 10 ^ j) t == decimal_value s (t + j))%Q.
Proof.
  intros Hj. unfold decimal_value.
  rewrite inject_Z_mult, (pow10_Z j Hj).
  rewrite (Qpower_plus (10 # 1) t j ten_nz). ring.
Qed.

(** The exact decimal of a double has the value of the double. *)
Lemma exact_decimal_value (m e : Z) :
  (decimal_value (fst (exact_decimal m e)) (snd (exact_decimal m e))
   == number_value (Finite false m e))%Q.
Proof.
  unfold exact_decimal, decimal_value, number_value.
  destruct (0 <=? e)%Z eqn:E; simpl fst; simpl snd.
  - apply Z.leb_le in E.
    rewrite inject_Z_mult, (pow2_Z e E). simpl. ring.
  - apply Z.leb_gt in E.
    rewrite inject_Z_mult.
    assert (H5 : (inject_Z (5 ^ (- e)) == (5 # 1) ^ (- e))%Q)
      by (apply (Zpower_Qpower 5); lia).
    rewrite H5.
    assert (H10 : ((10 # 1) ^ e == / ((2 # 1) ^ (- e) * (5 # 1) ^ (- e)))%Q).
    { rewrite <- Qmult_power.
      replace e with (- (- e))%Z at 1 by lia.
      rewrite Qpower_opp. reflexivity. }
    rewrite H10.
    assert (H2 : ((2 # 1) ^ e == / (2 # 1) ^ (- e))%Q).
    { replace e with (- (- e))%Z at 1 by lia. apply Qpower_opp. }
    rewrite H2. field. split; apply Qpower_not_0; discriminate.
Qed.

Lemma round_exact_decimal (m e : Z) :
  is_double (Finite false m e) = true -> (0 < m)%Z ->
  round_decimal false (fst (exact_decimal m e)) (snd (exact_decimal m e))
  = Finite false m e.
Proof.
  intros V Hm. unfold round_decimal.
  apply round_double_exact; [exact V | exact Hm | apply exact_decimal_value].
Qed.

Lemma number_eqb_eq (x y : number) : number_eqb x y = true -> x = y.
Proof.
  destruct x as [|a|a m e], y as [|b|b m' e']; simpl; intros H;
    try discriminate H; try reflexivity.
  - apply Bool.eqb_prop in H. now subst.
  - apply andb_true_iff in H. destruct H as [H H3].
    apply andb_true_iff in H. destruct H as [H1 H2].
    apply Bool.eqb_prop in H1. apply Z.eqb_eq in H2, H3. now subst.
Qed.

(** The decimal that [shortest] finds is read as the double, and is not
    negative. *)
Lemma shortest_rounds (x : number) (s t : Z) (j : nat) :
  (0 <= s)%Z ->
  round_decimal false s t = x ->
  round_decimal false (fst (shortest x s t j)) (snd (shortest x s t j)) = x
  /\ (0 <= fst (shortest x s t j))%Z.
Proof.
  intros Hs Hx. induction j as [|j IH]; [simpl; auto|].
  cbn [shortest].
  set (u := (10 ^ Z.of_nat (S j))%Z).
  set (lo := (s / u)%Z). set (t' := (t + Z.of_nat (S j))%Z).
  assert (Hu : (0 < u)%Z) by (apply Z.pow_pos_nonneg; lia).
  assert (Hlo : (0 <= lo)%Z) by (apply Z.div_pos; assumption).
  destruct (number_eqb (round_decimal false lo t') x) eqn:E1;
    destruct (number_eqb (round_decimal false (lo + 1) t') x) eqn:E2;
    try apply number_eqb_eq in E1; try apply number_eqb_eq in E2.
  - destruct (2 * (s mod u) ?= u)%Z; [destruct (Z.even lo)| |];
      simpl; split; auto; lia.
  - simpl; auto.
  - simpl; split; auto; lia.
  - exact IH.
Qed.

(** *** Digits *)

Lemma digit_of_char_of_digit (d : digit) :
  digit_of_char (char_of_digit d) = Some d.
Proof. destruct d; reflexivity. Qed.

Lemma digit_of_char_some (c : char16) (d : digit) :
  digit_of_char c = Some d -> c = char_of_digit d.
Proof.
  unfold digit_of_char.
  repeat match goal with
  | |- context [Char16.eqb c ?x] =>
      let E := fresh "E" in
      destruct (Char16.eqb c x) eqn:E;
      [apply char_eqb_eq in E; subst c; intros H; injection H as <-;
       reflexivity|]
  end.
  discriminate.
Qed.

Lemma Z_of_digit_of_Z (n : Z) :
  (0 <= n < 10)%Z -> Z_of_digit (digit_of_Z n) = n.
Proof.
  intros [H1 H2]. destruct n as [|p|p]; [reflexivity | | lia].
  do 4 (try destruct p as [p|p|]); try reflexivity; lia.
Qed.

Lemma digit_of_Z_nonzero (n : Z) :
  (0 < n < 10)%Z -> is_D0 (digit_of_Z n) = false.
Proof.
  intros [H1 H2]. destruct n as [|p|p]; [lia | | lia].
  do 4 (try destruct p as [p|p|]); try reflexivity; lia.
Qed.


Lemma fold_digits (l : list digit) (acc : Z) :
  fold_left (fun a d => (10 * a + Z_of_digit d)%Z) l acc
  = (acc * 10 ^ Z.of_nat (length l) + Z_of_digits l)%Z.
Proof.
  unfold Z_of_digits. revert acc.
  induction l as [|d l IH]; intros acc.
  - simpl. lia.
  - cbn [fold_left]. rewrite (IH (10 * acc + Z_of_digit d)%Z).
    rewrite (IH (10 * 0 + Z_of_digit d)%Z).
    cbn [length]. rewrite Nat2Z.inj_succ, Z.pow_succ_r by lia. ring.
Qed.

Lemma Z_of_digits_app (a b : list digit) :
  Z_of_digits (a ++ b)%list
  = (Z_of_digits a * 10 ^ Z.of_nat (length b) + Z_of_digits b)%Z.
Proof.
  unfold Z_of_digits at 1. rewrite fold_left_app.
  fold (Z_of_digits a). apply fold_digits.
Qed.

Lemma Z_of_digits_cons (d : digit) (l : list digit) :
  Z_of_digits (d :: l)
  = (Z_of_digit d * 10 ^ Z.of_nat (length l) + Z_of_digits l)%Z.
Proof. exact (Z_of_digits_app [d] l). Qed.

Lemma Z_of_digits_zeros (k : nat) : Z_of_digits (repeat D0 k) = 0%Z.
Proof.
  induction k as [|k IH]; [reflexivity|].
  cbn [repeat]. rewrite Z_of_digits_cons, IH. simpl. lia.
Qed.

Lemma Z_of_digits_app_zeros (l : list digit) (k : nat) :
  Z_of_digits (l ++ repeat D0 k)%list = (Z_of_digits l * 10 ^ Z.of_nat k)%Z.
Proof.
  rewrite Z_of_digits_app, Z_of_digits_zeros, repeat_length. lia.
Qed.

Lemma Z_of_digits_zeros_app (k : nat) (l : list digit) :
  Z_of_digits (repeat D0 k ++ l)%list = Z_of_digits l.
Proof. rewrite Z_of_digits_app, Z_of_digits_zeros. lia. Qed.

Lemma digits_onto_spec (fuel : nat) :
  forall (n : Z) (acc : list digit),
    (0 <= n < 2 ^ Z.of_nat fuel)%Z -> fuel <> 0 ->
    Z_of_digits (digits_onto fuel n acc)
    = (n * 10 ^ Z.of_nat (length acc) + Z_of_digits acc)%Z
    /\ ((0 < n)%Z ->
        exists d r, digits_onto fuel n acc = d :: r /\ is_D0 d = false).
Proof.
  induction fuel as [|fuel IH]; intros n acc Hn Hf; [contradiction|].
  cbn [digits_onto]. destruct (n <? 10)%Z eqn:E.
  - apply Z.ltb_lt in E. split.
    + rewrite Z_of_digits_cons, Z_of_digit_of_Z by lia. reflexivity.
    + intros Hp. exists (digit_of_Z n), acc. split; [reflexivity|].
      apply digit_of_Z_nonzero. lia.
  - apply Z.ltb_ge in E.
    assert (Hq : (0 <= n / 10 < 2 ^ Z.of_nat fuel)%Z).
    { split; [apply Z.div_pos; lia|].
      rewrite Nat2Z.inj_succ, Z.pow_succ_r in Hn by lia.
      apply Z.div_lt_upper_bound; lia. }
    assert (Hf' : fuel <> 0).
    { intros ->. simpl in Hn. lia. }
    destruct (IH (n / 10)%Z (digit_of_Z (n mod 10) :: acc) Hq Hf') as [V H].
    split.
    + rewrite V, Z_of_digits_cons.
      rewrite Z_of_digit_of_Z by (apply Z.mod_pos_bound; lia).
      cbn [length]. rewrite Nat2Z.inj_succ, Z.pow_succ_r by lia.
      pose proof (Z.div_mod n 10). lia.
    + intros _. apply H.
      apply Z.div_str_pos. lia.
Qed.

Lemma digits_of_Z_spec (n : Z) :
  (0 <= n)%Z ->
  Z_of_digits (digits_of_Z n) = n
  /\ ((0 < n)%Z -> exists d r, digits_of_Z n = d :: r /\ is_D0 d = false).
Proof.
  intros Hn. unfold digits_of_Z.
  assert (B : (0 <= n < 2 ^ Z.of_nat (S (Z.to_nat (Z.log2 n))))%Z).
  { split; [exact Hn|].
    rewrite Nat2Z.inj_succ, Z2Nat.id by apply Z.log2_nonneg.
    destruct (Z.eq_dec n 0) as [->|N]; [reflexivity|].
    apply Z.log2_spec. lia. }
  destruct (digits_onto_spec _ n [] B) as [V H]; [discriminate|].
  split; [|exact H]. rewrite V.
  change (Z_of_digits []) with 0%Z. change (Z.of_nat (length (@nil digit))) with 0%Z.
  rewrite Z.pow_0_r. lia.
Qed.

Lemma digits_of_Z_nonempty (n : Z) : (0 <= n)%Z -> digits_of_Z n <> [].
Proof.
  intros Hn. destruct (Z.eq_dec n 0) as [->|N]; [discriminate|].
  destruct (digits_of_Z_spec n Hn) as [_ H].
  destruct H as (d & r & -> & _); [lia | discriminate].
Qed.

Lemma drop_zeros_spec (l : list digit) :
  exists z, l = (repeat D0 z ++ drop_zeros l)%list.
Proof.
  induction l as [|d l [z IH]]; [exists 0; reflexivity|].
  destruct d; try (exists 0; reflexivity).
  exists (S z). simpl. now rewrite <- IH.
Qed.

Lemma rev_zeros (z : nat) : rev (repeat D0 z) = repeat D0 z.
Proof.
  induction z as [|z IH]; [reflexivity|].
  simpl. rewrite IH. clear IH.
  induction z as [|z IH]; [reflexivity|]. simpl. now rewrite IH.
Qed.

(** Stripping the trailing zeros takes zeros off the end. *)
Lemma strip_trailing_spec (l : list digit) :
  exists z, l = (strip_trailing l ++ repeat D0 z)%list.
Proof.
  unfold strip_trailing. destruct (drop_zeros_spec (rev l)) as [z H].
  exists z. rewrite <- (rev_involutive l) at 1.
  rewrite H at 1. rewrite rev_app_distr, rev_zeros. reflexivity.
Qed.

Lemma strip_trailing_head (d : digit) (r : list digit) :
  is_D0 d = false -> exists r', strip_trailing (d :: r) = d :: r'.
Proof.
  intros Hd. destruct (strip_trailing_spec (d :: r)) as [z H].
  destruct (strip_trailing (d :: r)) as [|d' r'].
  - destruct z; [discriminate H|]. simpl in H. injection H as -> _.
    discriminate Hd.
  - simpl in H. injection H as <- _. now exists r'.
Qed.

(** *** Reading a printed number *)

Lemma number_ends_facts (rest : string) :
  number_ends rest = true ->
  digit_head rest = false
  /\ match rest with
     | EmptyString => True
     | String c _ =>
         Char16.eqb c "." = false /\ Char16.eqb c "e" = false
         /\ Char16.eqb c "E" = false
     end.
Proof.
  destruct rest as [|c r]; [auto|]. unfold number_ends, digit_head.
  destruct (digit_of_char c); [discriminate|].
  intros H. apply negb_true_iff in H.
  apply orb_false_iff in H. destruct H as [H H3].
  apply orb_false_iff in H. destruct H as [H1 H2]. auto.
Qed.

Lemma span_digits_text (l : list digit) (rest : string) :
  digit_head rest = false ->
  span_digits (string_of_digits l ++ rest) = (l, rest).
Proof.
  intros Hc. induction l as [|d l IH]; simpl.
  - destruct rest as [|c r]; [reflexivity|].
    simpl in *. destruct (digit_of_char c); [discriminate|reflexivity].
  - rewrite digit_of_char_of_digit, IH. reflexivity.
Qed.

Lemma parse_int_text (ip : list digit) (rest : string) :
  int_digits ip = true ->
  digit_head rest = false ->
  parse_int (string_of_digits ip ++ rest) = Some (ip, rest).
Proof.
  intros Hi Hr. unfold parse_int. rewrite (span_digits_text ip rest Hr).
  destruct ip as [|d [|x r]]; [discriminate Hi | destruct d; reflexivity |].
  destruct d; try reflexivity. discriminate Hi.
Qed.

Lemma parse_sign_digit (d : digit) (s : string) :
  parse_sign (String (char_of_digit d) s) = (false, String (char_of_digit d) s).
Proof. destruct d; reflexivity. Qed.

Lemma exponent_text_head (ex : option Z) (rest : string) :
  number_ends rest = true ->
  digit_head (exponent_text ex ++ rest) = false
  /\ match exponent_text ex ++ rest with
     | EmptyString => True
     | String c _ => Char16.eqb c "." = false
     end.
Proof.
  intros Hr. destruct ex as [e|].
  - split; reflexivity.
  - simpl. destruct (number_ends_facts rest Hr) as [H1 H2].
    split; [exact H1|]. destruct rest; [exact I | apply H2].
Qed.

Lemma parse_frac_text (fp : list digit) (tail : string) :
  digit_head tail = false ->
  match tail with
  | EmptyString => True
  | String c _ => Char16.eqb c "." = false
  end ->
  parse_frac (fraction_text fp ++ tail) = Some (fp, tail).
Proof.
  intros Hd Hp. destruct fp as [|f fp].
  - simpl. destruct tail as [|c r]; [reflexivity|]. simpl. now rewrite Hp.
  - change (fraction_text (f :: fp) ++ tail)
      with (String "." (string_of_digits (f :: fp) ++ tail)).
    unfold parse_frac. rewrite char_eqb_refl.
    rewrite (span_digits_text (f :: fp) tail Hd). reflexivity.
Qed.

Lemma parse_exp_text (ex : option Z) (rest : string) :
  number_ends rest = true ->
  parse_exp (exponent_text ex ++ rest)
  = Some (match ex with Some e => e | None => 0%Z end, rest).
Proof.
  intros Hr. destruct (number_ends_facts rest Hr) as [Hd Hc].
  destruct ex as [e|].
  - unfold exponent_text.
    pose proof (digits_of_Z_spec (Z.abs e) (Z.abs_nonneg e)) as [V _].
    pose proof (digits_of_Z_nonempty (Z.abs e) (Z.abs_nonneg e)) as Hne.
    destruct (e <? 0)%Z eqn:E.
    + change (("e" ++ "-" ++ string_of_digits (digits_of_Z (Z.abs e))) ++ rest)
        with (String "e" (String "-"
                (string_of_digits (digits_of_Z (Z.abs e)) ++ rest))).
      change (parse_exp (String "e" (String "-"
                (string_of_digits (digits_of_Z (Z.abs e)) ++ rest))))
        with (match span_digits
                      (string_of_digits (digits_of_Z (Z.abs e)) ++ rest) with
              | ([], _) => None
              | (ds, r2) => Some ((- Z_of_digits ds)%Z, r2)
              end).
      rewrite (span_digits_text _ rest Hd).
      destruct (digits_of_Z (Z.abs e)) as [|d r]; [contradiction|].
      rewrite V. apply Z.ltb_lt in E. f_equal. f_equal. lia.
    + change (("e" ++ "+" ++ string_of_digits (digits_of_Z (Z.abs e))) ++ rest)
        with (String "e" (String "+"
                (string_of_digits (digits_of_Z (Z.abs e)) ++ rest))).
      change (parse_exp (String "e" (String "+"
                (string_of_digits (digits_of_Z (Z.abs e)) ++ rest))))
        with (match span_digits
                      (string_of_digits (digits_of_Z (Z.abs e)) ++ rest) with
              | ([], _) => None
              | (ds, r2) => Some (Z_of_digits ds, r2)
              end).
      rewrite (span_digits_text _ rest Hd).
      destruct (digits_of_Z (Z.abs e)) as [|d r]; [contradiction|].
      rewrite V. apply Z.ltb_ge in E. f_equal. f_equal. lia.
  - simpl. destruct rest as [|c r]; [reflexivity|].
    destruct Hc as (_ & He & HE). simpl. now rewrite He, HE.
Qed.

(** A number literal is read as the double nearest to the decimal it
    denotes, however its exponent is spelled. *)
Lemma parse_number_parts (sg : bool) (ip fp : list digit) (xt : string)
  (xv : Z) (rest : string) :
  int_digits ip = true ->
  digit_head (xt ++ rest) = false ->
  match xt ++ rest with
  | EmptyString => True
  | String c _ => Char16.eqb c "." = false
  end ->
  parse_exp (xt ++ rest) = Some (xv, rest) ->
  parse_number ((if sg then "-" else EmptyString)
                ++ string_of_digits ip ++ fraction_text fp ++ xt ++ rest)
  = Some (round_decimal sg (Z_of_digits (ip ++ fp)%list)
            (xv - Z.of_nat (length fp)),
          rest).
Proof.
  intros Hi Hd Hp Hx.
  assert (Hsign :
    parse_sign ((if sg then "-" else EmptyString)
                ++ string_of_digits ip ++ fraction_text fp ++ xt ++ rest)
    = (sg, string_of_digits ip ++ fraction_text fp ++ xt ++ rest)).
  { destruct sg; [reflexivity|].
    destruct ip as [|d r]; [discriminate Hi|]. apply parse_sign_digit. }
  unfold parse_number. rewrite Hsign.
  assert (Hh : digit_head (fraction_text fp ++ xt ++ rest) = false).
  { destruct fp; [exact Hd | reflexivity]. }
  rewrite (parse_int_text ip _ Hi Hh).
  rewrite (parse_frac_text fp _ Hd Hp).
  rewrite Hx. reflexivity.
Qed.

Lemma parse_decimal_text (sg : bool) (ip fp : list digit) (ex : option Z)
  (rest : string) :
  int_digits ip = true ->
  number_ends rest = true ->
  parse_number ((if sg then "-" else EmptyString)
                ++ decimal_text ip fp ex ++ rest)
  = Some (round_decimal sg (Z_of_digits (ip ++ fp)%list)
            (match ex with Some e => e | None => 0%Z end
             - Z.of_nat (length fp)),
          rest).
Proof.
  intros Hi Hr. unfold decimal_text. rewrite !append_assoc.
  destruct (exponent_text_head ex rest Hr) as [Hd Hp].
  exact (parse_number_parts sg ip fp (exponent_text ex) _ rest Hi Hd Hp
           (parse_exp_text ex rest Hr)).
Qed.

Lemma firstn_head (d : digit) (r : list digit) (n : nat) :
  n <> 0 -> int_digits (firstn n (d :: r)) = true \/ is_D0 d = true.
Proof.
  destruct n as [|n]; [contradiction|]. intros _.
  destruct d; auto; left; simpl; now destruct (firstn n r).
Qed.

(** The text of a decimal is read as the double nearest to it. *)
Lemma parse_print_decimal (sg : bool) (d : digit) (r : list digit) (n : Z)
  (rest : string) :
  is_D0 d = false ->
  number_ends rest = true ->
  parse_number ((if sg then "-" else EmptyString)
                ++ print_decimal (d :: r) n ++ rest)
  = Some (round_decimal sg (Z_of_digits (d :: r))
            (n - Z.of_nat (length (d :: r))), rest).
Proof.
  intros Hd Hr. unfold print_decimal.
  set (ds := d :: r). set (k := length ds).
  assert (Hk : k = S (length r)) by reflexivity.
  destruct ((Z.of_nat k <=? n)%Z && (n <=? 21)%Z) eqn:A.
  { apply andb_true_iff in A. destruct A as [A _]. apply Z.leb_le in A.
    rewrite parse_decimal_text; [|destruct d; try reflexivity; discriminate Hd
                                 |exact Hr].
    f_equal. f_equal. rewrite app_nil_r, Z_of_digits_app_zeros.
    apply round_decimal_comp. rewrite decimal_value_shift by lia.
    replace (0 - Z.of_nat (length (@nil digit)) + Z.of_nat (Z.to_nat n - k))%Z
      with (n - Z.of_nat k)%Z; [reflexivity|].
    simpl length. lia. }
  destruct ((0 <? n)%Z && (n <=? 21)%Z) eqn:B.
  { apply andb_true_iff in B. destruct B as [B B2].
    apply Z.ltb_lt in B. apply Z.leb_le in B2.
    assert (Hn : (n < Z.of_nat k)%Z).
    { apply andb_false_iff in A. destruct A as [A|A]; apply Z.leb_gt in A; lia. }
    rewrite parse_decimal_text; [| |exact Hr].
    - rewrite firstn_skipn. f_equal. f_equal. f_equal.
      rewrite length_skipn. fold k. lia.
    - destruct (firstn_head d r (Z.to_nat n)) as [H|H]; [lia|exact H|].
      congruence. }
  destruct ((-6 <? n)%Z && (n <=? 0)%Z) eqn:C.
  { apply andb_true_iff in C. destruct C as [_ C]. apply Z.leb_le in C.
    rewrite parse_decimal_text; [|reflexivity|exact Hr].
    f_equal. f_equal.
    change ([D0] ++ repeat D0 (Z.to_nat (- n)) ++ ds)%list
      with (repeat D0 (S (Z.to_nat (- n))) ++ ds)%list.
    rewrite Z_of_digits_zeros_app. f_equal.
    rewrite length_app, repeat_length. fold k. lia. }
  rewrite parse_decimal_text; [|destruct d; try reflexivity; discriminate Hd
                               |exact Hr].
  f_equal. f_equal.
  change (firstn 1 ds ++ skipn 1 ds)%list with ds. f_equal.
  change (skipn 1 ds) with r. lia.
Qed.

(** A printed finite double is read back as the same double, but for the
    sign of zero. *)
Lemma parse_print_number (s : bool) (m e : Z) (rest : string) :
  is_double (Finite s m e) = true ->
  number_ends rest = true ->
  parse_number (print_number (Finite s m e) ++ rest)
  = Some (reread (Finite s m e), rest).
Proof.
  intros V Hr. unfold print_number, reread.
  destruct (m =? 0)%Z eqn:M.
  - change ("0" ++ rest)
      with (EmptyString ++ decimal_text [D0] [] None ++ rest).
    rewrite (parse_decimal_text false [D0] [] None rest eq_refl Hr).
    change (Z_of_digits ([D0] ++ [])%list) with 0%Z.
    now rewrite round_decimal_zero.
  - apply Z.eqb_neq in M.
    assert (V' : is_double (Finite false m e) = true) by exact V.
    assert (Hm : (0 < m)%Z).
    { unfold is_double in V.
      repeat (apply andb_prop in V; destruct V as [V ?]).
      apply Z.leb_le in V. lia. }
    rewrite append_assoc. unfold print_positive.
    pose proof (round_exact_decimal m e V' Hm) as X.
    destruct (exact_decimal m e) as [s0 t0]. simpl fst in X. simpl snd in X.
    assert (H0 : (0 <= s0)%Z).
    { destruct (Z.le_gt_cases 0 s0) as [G|G]; [exact G|]. exfalso.
      revert X. unfold round_decimal, round_double.
      assert (N : (Qred (decimal_value s0 t0) <= 0)%Q).
      { rewrite Qred_correct. unfold decimal_value.
        setoid_replace 0%Q with (0 * (10 # 1) ^ t0)%Q by ring.
        apply Qmult_le_compat_r;
          [|apply Qpower_0_le; discriminate].
        unfold Qle. simpl. lia. }
      apply Qle_bool_iff in N. rewrite N. intros X. injection X as <-. lia. }
    destruct (shortest_rounds (Finite false m e) s0 t0
                (length (digits_of_Z s0) - 1) H0 X) as [S1 S2].
    destruct (shortest (Finite false m e) s0 t0
                (length (digits_of_Z s0) - 1)) as [s1 t1].
    simpl fst in S1, S2. simpl snd in S1.
    assert (P : (0 < s1)%Z).
    { destruct (Z.eq_dec s1 0) as [->|N]; [|lia].
      rewrite round_decimal_zero in S1. injection S1 as <-. lia. }
    destruct (digits_of_Z_spec s1 S2) as [Vd Hh].
    destruct (Hh P) as (d & r & Ed & Hd).
    rewrite Ed in *.
    destruct (strip_trailing_head d r Hd) as (r' & Es).
    destruct (strip_trailing_spec (d :: r)) as [z Ez].
    rewrite Es in *.
    rewrite (parse_print_decimal s d r' _ rest Hd Hr).
    f_equal. f_equal.
    assert (Hl : length (d :: r) = length (d :: r') + z).
    { rewrite Ez at 1. now rewrite length_app, repeat_length. }
    assert (Hv : s1 = (Z_of_digits (d :: r') * 10 ^ Z.of_nat z)%Z).
    { rewrite <- Vd. rewrite Ez at 1. apply Z_of_digits_app_zeros. }
    replace (t1 + Z.of_nat (length (d :: r)) - Z.of_nat (length (d :: r')))%Z
      with (t1 + Z.of_nat z)%Z by lia.
    assert (Q : round_decimal false (Z_of_digits (d :: r')) (t1 + Z.of_nat z)
                = Finite false m e).
    { rewrite <- S1. rewrite Hv. symmetry. apply round_decimal_comp.
      apply decimal_value_shift. lia. }
    apply round_double_finite. exact Q.
Qed.

(** ** Values *)

Lemma starts_value_digit (d : digit) : starts_value (char_of_digit d) = true.
Proof. destruct d; reflexivity. Qed.

Lemma starts_value_facts (c : char16) :
  starts_value c = true ->
  is_ws c = false
  /\ Char16.eqb c "]" = false
  /\ Char16.eqb c "}" = false
  /\ Char16.eqb c "," = false.
Proof.
  unfold starts_value. intros H.
  destruct (Char16.eqb c "n") eqn:E1;
    [apply char_eqb_eq in E1; subst c; repeat split|].
  destruct (Char16.eqb c "t") eqn:E2;
    [apply char_eqb_eq in E2; subst c; repeat split|].
  destruct (Char16.eqb c "f") eqn:E3;
    [apply char_eqb_eq in E3; subst c; repeat split|].
  destruct (Char16.eqb c dquote) eqn:E4;
    [apply char_eqb_eq in E4; subst c; repeat split|].
  destruct (Char16.eqb c "[") eqn:E5;
    [apply char_eqb_eq in E5; subst c; repeat split|].
  destruct (Char16.eqb c "{") eqn:E6;
    [apply char_eqb_eq in E6; subst c; repeat split|].
  destruct (Char16.eqb c "-") eqn:E7;
    [apply char_eqb_eq in E7; subst c; repeat split|].
  destruct (digit_of_char c) as [d|] eqn:D; [|discriminate].
  apply digit_of_char_some in D. subst c.
  destruct d; repeat split.
Qed.

Lemma stringify_array (x : json) (r : list json) :
  JSON_stringify (JArr (x :: r)) = "[" ++ JSON_stringify x ++ more_items r.
Proof. reflexivity. Qed.

Lemma stringify_object (k : string) (x : json) (r : list (string * json)) :
  JSON_stringify (JObj ((k, x) :: r))
  = "{" ++ quote k ++ ":" ++ JSON_stringify x ++ more_members r.
Proof. reflexivity. Qed.

(** A text that is read as a number begins with a minus sign or a digit. *)
Lemma parse_number_head (s : string) (x : number) (r : string) :
  parse_number s = Some (x, r) ->
  exists c t, s = String c t
              /\ (c = "-"%char16 \/ exists d, c = char_of_digit d).
Proof.
  destruct s as [|c t]; [discriminate|]. intros H.
  exists c, t. split; [reflexivity|].
  destruct (Char16.eqb c "-") eqn:E; [left; now apply char_eqb_eq|].
  right. unfold parse_number, parse_sign in H. rewrite E in H.
  unfold parse_int in H. cbn [span_digits] in H.
  destruct (digit_of_char c) as [d|] eqn:D; [|discriminate H].
  exists d. now apply digit_of_char_some.
Qed.

Lemma print_number_head (s : bool) (m e : Z) :
  is_double (Finite s m e) = true ->
  exists c t, print_number (Finite s m e) = String c t
              /\ (c = "-"%char16 \/ exists d, c = char_of_digit d).
Proof.
  intros V.
  pose proof (parse_print_number s m e EmptyString V eq_refl) as H.
  rewrite append_empty_r in H. exact (parse_number_head _ _ _ H).
Qed.

Lemma stringify_head (v : json) :
  wf_json v = true ->
  exists c r, JSON_stringify v = String c r /\ starts_value c = true.
Proof.
  destruct v as [|[|]|n|s|[|x l]|[|[k x] l]]; simpl; intros H;
    try (eexists _, _; split; reflexivity).
  destruct n as [|sg|sg m e]; simpl is_finite; cbv iota;
    try (eexists _, _; split; reflexivity).
  destruct (print_number_head sg m e H) as (c & t & -> & [->|[d ->]]);
    eexists _, _; (split; [reflexivity|]);
    [reflexivity | apply starts_value_digit].
Qed.

(** In front of a printed value there is no white space to skip, and the
    value does not begin like the end of an array or an object. *)
Lemma skip_ws_stringify (v : json) (tail : string) :
  wf_json v = true ->
  exists c r,
    skip_ws (JSON_stringify v ++ tail) = String c r
    /\ Char16.eqb c "]" = false /\ Char16.eqb c "}" = false.
Proof.
  intros H. destruct (stringify_head v H) as (c & r & -> & Hc).
  destruct (starts_value_facts c Hc) as (Hw & Hb & Hbr & _).
  exists c, (r ++ tail). simpl. rewrite Hw. auto.
Qed.

Lemma closes_facts (rest : string) :
  closes rest = true -> number_ends rest = true /\ skip_ws rest = rest.
Proof.
  destruct rest as [|c r]; [auto|]. simpl. intros H.
  apply orb_true_iff in H. destruct H as [H|H].
  - apply orb_true_iff in H.
    destruct H as [H|H]; apply char_eqb_eq in H; subst c; split; reflexivity.
  - apply char_eqb_eq in H; subst c; split; reflexivity.
Qed.

Lemma skip_ws_closes (rest : string) :
  closes rest = true -> skip_ws rest = rest.
Proof. intros H. now apply closes_facts. Qed.

(** *** One step of the parser on each form of text *)

Lemma parse_value_minus (fuel : nat) (s : string) :
  parse_value (S fuel) (String "-" s)
  = match parse_number (String "-" s) with
    | Some (n, r') => Some (JNum n, r')
    | None => None
    end.
Proof. reflexivity. Qed.

Lemma parse_value_digit (fuel : nat) (d : digit) (s : string) :
  parse_value (S fuel) (String (char_of_digit d) s)
  = match parse_number (String (char_of_digit d) s) with
    | Some (n, r') => Some (JNum n, r')
    | None => None
    end.
Proof. destruct d; reflexivity. Qed.

(** A text that is read as a number is read as that number where a value
    is expected. *)
Lemma parse_value_of_number (fuel : nat) (s : string) (x : number)
  (r : string) :
  parse_number s = Some (x, r) ->
  parse_value (S fuel) s = Some (JNum x, r).
Proof.
  intros H. destruct (parse_number_head s x r H) as (c & t & -> & [->|[d ->]]).
  - now rewrite parse_value_minus, H.
  - now rewrite parse_value_digit, H.
Qed.

Lemma parse_value_number (fuel : nat) (n : number) (rest : string) :
  is_double n = true ->
  number_ends rest = true ->
  parse_value (S fuel) (JSON_stringify (JNum n) ++ rest)
  = Some (after_stringify (JNum n), rest).
Proof.
  intros Hc Hr. destruct n as [|sg|sg m e]; try reflexivity.
  apply parse_value_of_number. now apply parse_print_number.
Qed.

Lemma parse_value_string (fuel : nat) (s rest : string) :
  parse_value (S fuel) (quote s ++ rest) = Some (JStr s, rest).
Proof.
  rewrite quote_unfold.
  change (parse_value (S fuel)
            (String dquote (escape_string s ++ String dquote rest)))
    with (match parse_string_body (escape_string s ++ String dquote rest) with
          | Some (str, r') => Some (JStr str, r')
          | None => None
          end).
  now rewrite parse_escape_string.
Qed.

Lemma parse_value_array (fuel : nat) (s : string) (c : char16) (r : string) :
  skip_ws s = String c r ->
  Char16.eqb c "]" = false ->
  parse_value (S fuel) (String "[" s)
  = match parse_value fuel s with
    | Some (x, r1) =>
        match parse_items fuel r1 with
        | Some (xs, r2) => Some (JArr (x :: xs), r2)
        | None => None
        end
    | None => None
    end.
Proof.
  intros Hs Hc.
  change (parse_value (S fuel) (String "[" s))
    with (match skip_ws s with
          | EmptyString => None
          | String c' r' =>
              if Char16.eqb c' "]" then Some (JArr [], r')
              else
                match parse_value fuel s with
                | Some (x, r1) =>
                    match parse_items fuel r1 with
                    | Some (xs, r2) => Some (JArr (x :: xs), r2)
                    | None => None
                    end
                | None => None
                end
          end).
  now rewrite Hs, Hc.
Qed.

Lemma parse_value_object (fuel : nat) (s : string) (c : char16) (r : string) :
  skip_ws s = String c r ->
  Char16.eqb c "}" = false ->
  parse_value (S fuel) (String "{" s)
  = match parse_key s with
    | Some (k, r1) =>
        match parse_value fuel r1 with
        | Some (x, r2) =>
            match parse_members fuel r2 with
            | Some (ms, r3) =>
                Some (JObj (fold_left obj_set ((k, x) :: ms) []), r3)
            | None => None
            end
        | None => None
        end
    | None => None
    end.
Proof.
  intros Hs Hc.
  change (parse_value (S fuel) (String "{" s))
    with (match skip_ws s with
          | EmptyString => None
          | String c' r' =>
              if Char16.eqb c' "}" then Some (JObj [], r')
              else
                match parse_key s with
                | Some (k, r1) =>
                    match parse_value fuel r1 with
                    | Some (x, r2) =>
                        match parse_members fuel r2 with
                        | Some (ms, r3) =>
                            Some (JObj (fold_left obj_set ((k, x) :: ms) []), r3)
                        | None => None
                        end
                    | None => None
                    end
                | None => None
                end
          end).
  now rewrite Hs, Hc.
Qed.

Lemma parse_items_comma (fuel : nat) (s : string) :
  parse_items (S fuel) (String "," s)
  = match parse_value fuel s with
    | Some (x, r1) =>
        match parse_items fuel r1 with
        | Some (xs, r2) => Some (x :: xs, r2)
        | None => None
        end
    | None => None
    end.
Proof. reflexivity. Qed.

Lemma parse_members_comma (fuel : nat) (s : string) :
  parse_members (S fuel) (String "," s)
  = match parse_key s with
    | Some (k, r1) =>
        match parse_value fuel r1 with
        | Some (x, r2) =>
            match parse_members fuel r2 with
            | Some (ms, r3) => Some ((k, x) :: ms, r3)
            | None => None
            end
        | None => None
        end
    | None => None
    end.
Proof. reflexivity. Qed.

Lemma parse_key_print (k tail : string) :
  parse_key (quote k ++ ":" ++ tail) = Some (k, tail).
Proof.
  rewrite quote_unfold.
  change (parse_key (String dquote (escape_string k ++ String dquote (":" ++ tail))))
    with (match parse_string_body
                  (escape_string k ++ String dquote (":" ++ tail)) with
          | Some (k', r1) =>
              match skip_ws r1 with
              | String c' r2 =>
                  if Char16.eqb c' ":" then Some (k', r2) else None
              | EmptyString => None
              end
          | None => None
          end).
  rewrite parse_escape_string. reflexivity.
Qed.

Lemma closes_more_items (r : list json) (rest : string) :
  closes (more_items r ++ rest) = true.
Proof. destruct r; reflexivity. Qed.

Lemma closes_more_members (r : list (string * json)) (rest : string) :
  closes (more_members r ++ rest) = true.
Proof. destruct r as [|[k y] r]; reflexivity. Qed.

(** *** Objects whose keys are distinct and in the order of enumeration are
    rebuilt member by member *)

Lemma distinct_middle (a b : list string) (k : string) :
  distinct (a ++ k :: b)%list = true ->
  forall x, In x a -> String.eqb x k = false.
Proof.
  induction a as [|y a IH]; simpl; intros H x Hx; [contradiction|].
  apply andb_true_iff in H. destruct H as [Hy Hd].
  destruct Hx as [->|Hx]; [|now apply IH].
  apply negb_true_iff in Hy.
  destruct (String.eqb x k) eqn:E; [|reflexivity].
  rewrite existsb_app in Hy. simpl in Hy. rewrite E in Hy.
  rewrite orb_true_r in Hy. discriminate Hy.
Qed.

Lemma in_order_middle (a b : list string) (k : string) :
  in_order (a ++ k :: b)%list = true ->
  forall x, In x a -> comes_before k x = false.
Proof.
  induction a as [|y a IH]; simpl; intros H x Hx; [contradiction|].
  apply andb_true_iff in H. destruct H as [Hy Hd].
  destruct Hx as [->|Hx]; [|now apply IH].
  rewrite forallb_app in Hy. apply andb_true_iff in Hy. destruct Hy as [_ Hy].
  simpl in Hy. apply andb_true_iff in Hy. destruct Hy as [Hy _].
  now apply negb_true_iff in Hy.
Qed.

Lemma obj_set_fresh (l : list (string * json)) (kv : string * json) :
  (forall x, In x (map fst l) -> String.eqb x (fst kv) = false) ->
  (forall x, In x (map fst l) -> comes_before (fst kv) x = false) ->
  obj_set l kv = (l ++ [kv])%list.
Proof.
  intros H1 H2. unfold obj_set.
  assert (Hk : has_key (fst kv) l = false).
  { unfold has_key. induction l as [|[k' v'] l IH]; [reflexivity|].
    simpl. rewrite (H1 k' (or_introl eq_refl)). apply IH.
    - intros x Hx. apply H1. now right.
    - intros x Hx. apply H2. now right. }
  rewrite Hk. clear Hk H1.
  induction l as [|[k' v'] l IH]; simpl; [reflexivity|].
  rewrite (H2 k' (or_introl eq_refl)). f_equal. apply IH.
  intros x Hx. apply H2. now right.
Qed.

Lemma fold_obj_set_ordered (ms acc : list (string * json)) :
  distinct (map fst (acc ++ ms)%list) = true ->
  in_order (map fst (acc ++ ms)%list) = true ->
  fold_left obj_set ms acc = (acc ++ ms)%list.
Proof.
  revert acc. induction ms as [|kv ms IH]; intros acc H O; simpl.
  - now rewrite app_nil_r.
  - rewrite obj_set_fresh.
    + rewrite IH; rewrite <- app_assoc; [reflexivity | exact H | exact O].
    + rewrite map_app in H. simpl in H.
      now apply (distinct_middle _ _ _ H).
    + rewrite map_app in O. simpl in O.
      now apply (in_order_middle _ _ _ O).
Qed.

Lemma after_stringify_keys (l : list (string * json)) :
  map fst (map (fun kv => (fst kv, after_stringify (snd kv))) l) = map fst l.
Proof. rewrite map_map. reflexivity. Qed.

(** ** [JSON.parse] reads what [JSON.stringify] prints *)

Lemma parse_print_items (r : list json) :
  Forall (fun v => wf_json v = true ->
            forall fuel rest, size v <= fuel -> closes rest = true ->
              parse_value fuel (JSON_stringify v ++ rest)
              = Some (after_stringify v, rest)) r ->
  forallb wf_json r = true ->
  forall fuel rest,
    S (list_sum (map (fun x => S (size x)) r)) <= fuel ->
    closes rest = true ->
    parse_items fuel (more_items r ++ rest)
    = Some (map after_stringify r, rest).
Proof.
  induction 1 as [|y r Hy _ IH]; intros Hwf fuel rest Hfuel Hrest;
    (destruct fuel as [|fuel]; [lia|]).
  - destruct rest; reflexivity.
  - simpl in Hwf. apply andb_true_iff in Hwf. destruct Hwf as [Hwy Hwr].
    simpl in Hfuel.
    change (more_items (y :: r) ++ rest)
      with (String "," ((JSON_stringify y ++ more_items r) ++ rest)).
    rewrite parse_items_comma, append_assoc.
    rewrite (Hy Hwy fuel _ ltac:(lia) (closes_more_items r rest)).
    rewrite (IH Hwr fuel rest ltac:(lia) Hrest). reflexivity.
Qed.

Lemma parse_print_members (r : list (string * json)) :
  Forall (fun kv => wf_json (snd kv) = true ->
            forall fuel rest, size (snd kv) <= fuel -> closes rest = true ->
              parse_value fuel (JSON_stringify (snd kv) ++ rest)
              = Some (after_stringify (snd kv), rest)) r ->
  forallb (fun kv => wf_json (snd kv)) r = true ->
  forall fuel rest,
    S (list_sum (map (fun kv => S (size (snd kv))) r)) <= fuel ->
    closes rest = true ->
    parse_members fuel (more_members r ++ rest)
    = Some (map (fun kv => (fst kv, after_stringify (snd kv))) r, rest).
Proof.
  induction 1 as [|[k y] r Hy _ IH]; intros Hwf fuel rest Hfuel Hrest;
    (destruct fuel as [|fuel]; [lia|]).
  - destruct rest; reflexivity.
  - simpl in Hwf. apply andb_true_iff in Hwf. destruct Hwf as [Hwy Hwr].
    simpl in Hfuel, Hy.
    change (more_members ((k, y) :: r) ++ rest)
      with (String ","
              ((quote k ++ ":" ++ JSON_stringify y ++ more_members r) ++ rest)).
    rewrite parse_members_comma, !append_assoc, parse_key_print.
    rewrite (Hy Hwy fuel _ ltac:(lia) (closes_more_members r rest)).
    rewrite (IH Hwr fuel rest ltac:(lia) Hrest). reflexivity.
Qed.

Lemma parse_print_value (v : json) :
  wf_json v = true ->
  forall fuel rest,
    size v <= fuel ->
    closes rest = true ->
    parse_value fuel (JSON_stringify v ++ rest)
    = Some (after_stringify v, rest).
Proof.
  induction v as [|b|n|s|l IH|l IH] using json_nested_ind;
    intros Hwf fuel rest Hfuel Hrest;
    (destruct fuel as [|fuel]; [simpl in Hfuel; lia|]).
  - reflexivity.
  - destruct b; reflexivity.
  - apply parse_value_number; [exact Hwf | now apply closes_facts].
  - apply parse_value_string.
  - destruct l as [|x r]; [reflexivity|].
    simpl in Hwf. apply andb_true_iff in Hwf. destruct Hwf as [Hwx Hwr].
    inversion IH as [|? ? Hx Hr]; subst.
    simpl in Hfuel.
    rewrite stringify_array.
    change (("[" ++ JSON_stringify x ++ more_items r) ++ rest)
      with (String "[" ((JSON_stringify x ++ more_items r) ++ rest)).
    rewrite append_assoc.
    destruct (skip_ws_stringify x (more_items r ++ rest) Hwx)
      as (c & t & Hs & Hc & _).
    rewrite (parse_value_array fuel _ c t Hs Hc).
    rewrite (Hx Hwx fuel _ ltac:(lia) (closes_more_items r rest)).
    rewrite (parse_print_items r Hr Hwr fuel rest ltac:(lia) Hrest).
    reflexivity.
  - destruct l as [|[k x] r]; [reflexivity|].
    simpl in Hwf. apply andb_true_iff in Hwf. destruct Hwf as [Hd Hwf].
    apply andb_true_iff in Hd. destruct Hd as [Hd Ho].
    apply andb_true_iff in Hwf. destruct Hwf as [Hwx Hwr].
    inversion IH as [|? ? Hx Hr]; subst. simpl in Hx.
    simpl in Hfuel.
    rewrite stringify_object.
    change (("{" ++ quote k ++ ":" ++ JSON_stringify x ++ more_members r) ++ rest)
      with (String "{"
              ((quote k ++ ":" ++ JSON_stringify x ++ more_members r) ++ rest)).
    rewrite !append_assoc.
    assert (Hs : skip_ws (quote k ++ ":" ++ JSON_stringify x
                            ++ more_members r ++ rest)
                 = String dquote (escape_string k ++ String dquote
                     (":" ++ JSON_stringify x ++ more_members r ++ rest))).
    { rewrite quote_unfold. reflexivity. }
    rewrite (parse_value_object fuel _ _ _ Hs eq_refl).
    rewrite parse_key_print.
    rewrite (Hx Hwx fuel _ ltac:(lia) (closes_more_members r rest)).
    rewrite (parse_print_members r Hr Hwr fuel rest ltac:(lia) Hrest).
    rewrite (fold_obj_set_ordered
               ((k, after_stringify x)
                :: map (fun kv => (fst kv, after_stringify (snd kv))) r) []);
      [reflexivity| |].
    + cbn [app map fst]. rewrite after_stringify_keys. exact Hd.
    + cbn [app map fst]. rewrite after_stringify_keys. exact Ho.
Qed.

Lemma more_items_length (r : list json) :
  Forall (fun v => wf_json v = true ->
                   size v <= String.length (JSON_stringify v)) r ->
  forallb wf_json r = true ->
  S (list_sum (map (fun x => S (size x)) r)) <= String.length (more_items r).
Proof.
  induction 1 as [|y r Hy _ IH]; intros Hwf; simpl; [lia|].
  simpl in Hwf. apply andb_true_iff in Hwf. destruct Hwf as [Hwy Hwr].
  rewrite length_append. specialize (Hy Hwy). specialize (IH Hwr). lia.
Qed.

Lemma more_members_length (r : list (string * json)) :
  Forall (fun kv => wf_json (snd kv) = true ->
                    size (snd kv) <= String.length (JSON_stringify (snd kv))) r ->
  forallb (fun kv => wf_json (snd kv)) r = true ->
  S (list_sum (map (fun kv => S (size (snd kv))) r))
  <= String.length (more_members r).
Proof.
  induction 1 as [|[k y] r Hy _ IH]; intros Hwf; simpl; [lia|].
  simpl in Hwf, Hy. apply andb_true_iff in Hwf. destruct Hwf as [Hwy Hwr].
  rewrite !length_append. specialize (Hy Hwy). specialize (IH Hwr).
  simpl. rewrite !length_append. lia.
Qed.

(** The fuel [JSON_parse] supplies is enough for any printed value. *)
Lemma size_le_length (v : json) :
  wf_json v = true -> size v <= String.length (JSON_stringify v).
Proof.
  induction v as [|b|n|s|l IH|l IH] using json_nested_ind; intros Hwf.
  - simpl. lia.
  - destruct b; simpl; lia.
  - destruct (stringify_head (JNum n) Hwf) as (c & r & -> & _). simpl. lia.
  - simpl. lia.
  - destruct l as [|x r]; [simpl; lia|].
    simpl in Hwf. apply andb_true_iff in Hwf. destruct Hwf as [Hwx Hwr].
    inversion IH as [|? ? Hx Hr]; subst.
    rewrite stringify_array. simpl size. simpl String.length.
    rewrite length_append.
    pose proof (more_items_length r Hr Hwr). specialize (Hx Hwx). lia.
  - destruct l as [|[k x] r]; [simpl; lia|].
    simpl in Hwf. apply andb_true_iff in Hwf. destruct Hwf as [Hd Hwf].
    apply andb_true_iff in Hwf. destruct Hwf as [Hwx Hwr].
    inversion IH as [|? ? Hx Hr]; subst. simpl in Hx.
    rewrite stringify_object. simpl size. simpl String.length.
    rewrite !length_append.
    pose proof (more_members_length r Hr Hwr). specialize (Hx Hwx).
    simpl. rewrite ?length_append. lia.
Qed.

(** [JSON.parse(JSON.stringify(v))] is [v], but for the sign of zero and
    the numbers that are not finite. *)
Lemma JSON_parse_stringify (v : json) :
  wf_json v = true -> JSON_parse (JSON_stringify v) = Some (after_stringify v).
Proof.
  intros Hwf. unfold JSON_parse.
  rewrite <- (append_empty_r (JSON_stringify v)) at 2.
  rewrite (parse_print_value v Hwf _ EmptyString); [reflexivity| |reflexivity].
  pose proof (size_le_length v Hwf). lia.
Qed.

(** *** White space *)

Lemma is_ws_cases (c : char16) :
  is_ws c = true ->
  c = " "%char16 \/ c = "009"%char16 \/ c = "010"%char16 \/ c = "013"%char16.
Proof.
  unfold is_ws. intros H.
  destruct (Char16.eqb c " ") eqn:E1; [left; now apply char_eqb_eq|].
  destruct (Char16.eqb c "009") eqn:E2;
    [right; left; now apply char_eqb_eq|].
  destruct (Char16.eqb c "010") eqn:E3;
    [right; right; left; now apply char_eqb_eq|].
  destruct (Char16.eqb c "013") eqn:E4;
    [right; right; right; now apply char_eqb_eq|].
  discriminate H.
Qed.

Lemma follows_value_number_ends (rest : string) :
  follows_value rest = true -> number_ends rest = true.
Proof.
  destruct rest as [|c r]; [reflexivity|]. simpl. intros H.
  apply orb_true_iff in H. destruct H as [H|H];
    [|apply char_eqb_eq in H; subst c; reflexivity].
  apply orb_true_iff in H. destruct H as [H|H];
    [|apply char_eqb_eq in H; subst c; reflexivity].
  apply orb_true_iff in H. destruct H as [H|H];
    [|apply char_eqb_eq in H; subst c; reflexivity].
  destruct (is_ws_cases c H) as [-> | [-> | [-> | ->]]]; reflexivity.
Qed.

Lemma parse_value_ws (fuel : nat) (c : char16) (r : string) :
  is_ws c = true -> parse_value fuel (String c r) = parse_value fuel r.
Proof.
  destruct fuel as [|fuel]; [reflexivity|].
  intros H. destruct (is_ws_cases c H) as [-> | [-> | [-> | ->]]]; reflexivity.
Qed.

Lemma parse_items_ws (fuel : nat) (c : char16) (r : string) :
  is_ws c = true -> parse_items fuel (String c r) = parse_items fuel r.
Proof.
  destruct fuel as [|fuel]; [reflexivity|].
  intros H. destruct (is_ws_cases c H) as [-> | [-> | [-> | ->]]]; reflexivity.
Qed.

Lemma parse_members_ws (fuel : nat) (c : char16) (r : string) :
  is_ws c = true -> parse_members fuel (String c r) = parse_members fuel r.
Proof.
  destruct fuel as [|fuel]; [reflexivity|].
  intros H. destruct (is_ws_cases c H) as [-> | [-> | [-> | ->]]]; reflexivity.
Qed.

Lemma parse_key_ws (c : char16) (r : string) :
  is_ws c = true -> parse_key (String c r) = parse_key r.
Proof.
  intros H. destruct (is_ws_cases c H) as [-> | [-> | [-> | ->]]]; reflexivity.
Qed.

Lemma skip_ws_ws (c : char16) (r : string) :
  is_ws c = true -> skip_ws (String c r) = skip_ws r.
Proof. intros H. simpl. now rewrite H. Qed.

Lemma all_ws_app (a b : string) :
  all_ws a = true -> all_ws b = true -> all_ws (a ++ b) = true.
Proof.
  induction a as [|c a IH]; simpl; intros Ha Hb; [exact Hb|].
  apply andb_true_iff in Ha. destruct Ha as [-> Ha]. now apply IH.
Qed.

Lemma all_ws_line (indent : string) :
  all_ws indent = true -> all_ws (line indent) = true.
Proof. intros H. unfold line. simpl. exact H. Qed.

Lemma all_ws_deeper (indent : string) :
  all_ws indent = true -> all_ws (indent ++ gap) = true.
Proof. intros H. now apply all_ws_app. Qed.

Lemma parse_value_all_ws (fuel : nat) (w s : string) :
  all_ws w = true -> parse_value fuel (w ++ s) = parse_value fuel s.
Proof.
  induction w as [|c w IH]; simpl; intros H; [reflexivity|].
  apply andb_true_iff in H. destruct H as [Hc Hw].
  now rewrite (parse_value_ws fuel c _ Hc), IH.
Qed.

Lemma parse_items_all_ws (fuel : nat) (w s : string) :
  all_ws w = true -> parse_items fuel (w ++ s) = parse_items fuel s.
Proof.
  induction w as [|c w IH]; simpl; intros H; [reflexivity|].
  apply andb_true_iff in H. destruct H as [Hc Hw].
  now rewrite (parse_items_ws fuel c _ Hc), IH.
Qed.

Lemma parse_members_all_ws (fuel : nat) (w s : string) :
  all_ws w = true -> parse_members fuel (w ++ s) = parse_members fuel s.
Proof.
  induction w as [|c w IH]; simpl; intros H; [reflexivity|].
  apply andb_true_iff in H. destruct H as [Hc Hw].
  now rewrite (parse_members_ws fuel c _ Hc), IH.
Qed.

Lemma parse_key_all_ws (w s : string) :
  all_ws w = true -> parse_key (w ++ s) = parse_key s.
Proof.
  induction w as [|c w IH]; simpl; intros H; [reflexivity|].
  apply andb_true_iff in H. destruct H as [Hc Hw].
  now rewrite (parse_key_ws c _ Hc), IH.
Qed.

Lemma skip_ws_all_ws (w s : string) :
  all_ws w = true -> skip_ws (w ++ s) = skip_ws s.
Proof.
  induction w as [|c w IH]; intros H; [reflexivity|].
  simpl in H. apply andb_true_iff in H. destruct H as [Hc Hw].
  change (String c w ++ s) with (String c (w ++ s)).
  now rewrite (skip_ws_ws c _ Hc), IH.
Qed.

(** ** [JSON.parse] builds JavaScript values *)

Lemma round_half_even_bounds (x : Q) :
  (Qfloor x <= round_half_even x <= Qfloor x + 1)%Z.
Proof.
  unfold round_half_even.
  destruct (Qcompare (x - inject_Z (Qfloor x)) (1 # 2));
    [destruct (Z.even (Qfloor x))| |]; lia.
Qed.

Lemma Qfloor_lt_Z (x : Q) (b : Z) : (x < inject_Z b)%Q -> (Qfloor x < b)%Z.
Proof.
  intros H. rewrite Zlt_Qlt.
  eapply Qle_lt_trans; [apply Qfloor_le | exact H].
Qed.

Lemma Qfloor_ge_Z (x : Q) (b : Z) : (inject_Z b <= x)%Q -> (b <= Qfloor x)%Z.
Proof.
  intros H. rewrite <- (Qfloor_Z b). now apply Qfloor_resp_le.
Qed.

(** Rounding gives a double or an infinity. *)
Lemma round_double_is_double (s : bool) (x : Q) :
  is_double (round_double s x) = true.
Proof.
  unfold round_double. set (y := Qred x).
  destruct (Qle_bool y 0) eqn:Z0; [reflexivity|].
  assert (Yp : (0 < y)%Q).
  { apply Qnot_le_lt. intros H. apply Qle_bool_iff in H. congruence. }
  destruct (floor_log2_spec y Yp) as [S1 S2].
  set (fl := floor_log2 y) in *.
  set (e := Z.max emin (fl - 52)).
  set (q := (y / (2 # 1) ^ e)%Q).
  assert (Pe : (0 < (2 # 1) ^ e)%Q) by (apply Qpower_0_lt; reflexivity).
  assert (Q1 : (q < inject_Z (2 ^ 53))%Q).
  { rewrite (pow2_Z 53) by lia.
    apply Qlt_le_trans with ((2 # 1) ^ (fl + 1 - e))%Q.
    - unfold q. rewrite (Qpower_minus (2 # 1) (fl + 1) e two_nz).
      unfold Qdiv. apply Qmult_lt_compat_r; [|exact S2].
      now apply Qinv_lt_0_compat.
    - apply Qpower_le_compat_l; [lia | discriminate]. }
  assert (Q0 : (inject_Z 0 <= q)%Q).
  { unfold q. apply Qlt_le_weak. unfold Qdiv. apply Qmult_lt_0_compat;
      [exact Yp | now apply Qinv_lt_0_compat]. }
  assert (Q2 : e <> emin -> (inject_Z (2 ^ 52) <= q)%Q).
  { intros Ne. assert (E : e = (fl - 52)%Z) by lia.
    rewrite (pow2_Z 52) by lia.
    assert (D : ((2 # 1) ^ 52 == (2 # 1) ^ fl / (2 # 1) ^ e)%Q).
    { rewrite <- (Qpower_minus (2 # 1) fl e two_nz).
      replace (fl - e)%Z with 52%Z by lia. reflexivity. }
    rewrite D. unfold q, Qdiv. apply Qmult_le_compat_r; [exact S1|].
    apply Qlt_le_weak. now apply Qinv_lt_0_compat. }
  pose proof (round_half_even_bounds q) as [B1 B2].
  pose proof (Qfloor_lt_Z q _ Q1) as F1.
  pose proof (Qfloor_ge_Z q _ Q0) as F0.
  set (m := round_half_even q) in *.
  assert (He : (emin <= e)%Z) by lia.
  destruct (m =? 2 ^ 53)%Z eqn:M.
  - destruct (e + 1 <=? emax)%Z eqn:X; [|reflexivity].
    apply Z.leb_le in X. unfold is_double.
    repeat (apply andb_true_intro; split); try reflexivity.
    + apply Z.leb_le. lia.
    + exact (proj2 (Z.leb_le _ _) X).
  - apply Z.eqb_neq in M.
    destruct (e <=? emax)%Z eqn:X; [|reflexivity].
    unfold is_double.
    repeat (apply andb_true_intro; split).
    + apply Z.leb_le. lia.
    + apply Z.ltb_lt. lia.
    + apply Z.leb_le. exact He.
    + exact X.
    + destruct (Z.eq_dec e emin) as [Ee|Ne].
      * apply orb_true_iff. right. now apply Z.eqb_eq.
      * apply orb_true_iff. left. apply Z.leb_le.
        pose proof (Qfloor_ge_Z q _ (Q2 Ne)). lia.
Qed.

Lemma parse_number_is_double (s : string) (x : number) (r : string) :
  parse_number s = Some (x, r) -> is_double x = true.
Proof.
  unfold parse_number. destruct (parse_sign s) as [sg s1].
  destruct (parse_int s1) as [[ip s2]|]; [|discriminate].
  destruct (parse_frac s2) as [[fp s3]|]; [|discriminate].
  destruct (parse_exp s3) as [[e s4]|]; [|discriminate].
  intros H. injection H as <- _. apply round_double_is_double.
Qed.

(** *** The order of the keys *)

Lemma comes_before_asym (a b : string) :
  comes_before a b = true -> comes_before b a = false.
Proof.
  unfold comes_before.
  destruct (array_index a) as [i|], (array_index b) as [j|];
    try discriminate; try reflexivity.
  intros H. apply Z.ltb_lt in H. apply Z.ltb_ge. lia.
Qed.

Lemma comes_before_left (x a b : string) :
  comes_before a b = true -> comes_before x b = false ->
  comes_before x a = false.
Proof.
  unfold comes_before.
  destruct (array_index a) as [i|], (array_index b) as [j|],
    (array_index x) as [k|]; try discriminate; try reflexivity.
  intros H1 H2. apply Z.ltb_lt in H1. apply Z.ltb_ge in H2.
  apply Z.ltb_ge. lia.
Qed.

Lemma replace_member_keys (l : list (string * json)) (kv : string * json) :
  map fst (replace_member l kv) = map fst l.
Proof.
  induction l as [|[k' v'] l IH]; [reflexivity|]. simpl.
  destruct (String.eqb k' (fst kv)); simpl; [reflexivity | now rewrite IH].
Qed.

Lemma replace_member_values (P : json -> bool) (l : list (string * json))
  (kv : string * json) :
  P (snd kv) = true ->
  forallb (fun m => P (snd m)) l = true ->
  forallb (fun m => P (snd m)) (replace_member l kv) = true.
Proof.
  intros Hv. induction l as [|[k' v'] l IH]; [reflexivity|]. simpl.
  intros H. apply andb_true_iff in H. destruct H as [H1 H2].
  destruct (String.eqb k' (fst kv)); simpl.
  - now rewrite Hv, H2.
  - now rewrite H1, IH.
Qed.

Lemma add_member_forallb (f : string * json -> bool)
  (l : list (string * json)) (kv : string * json) :
  forallb f (add_member l kv) = f kv && forallb f l.
Proof.
  induction l as [|[k' v'] l IH]; simpl; [reflexivity|].
  destruct (comes_before (fst kv) k'); simpl; [reflexivity|].
  rewrite IH. destruct (f kv), (f (k', v')); reflexivity.
Qed.

Lemma add_member_keys_forallb (f : string -> bool)
  (l : list (string * json)) (kv : string * json) :
  forallb f (map fst (add_member l kv)) = f (fst kv) && forallb f (map fst l).
Proof.
  induction l as [|[k' v'] l IH]; simpl; [reflexivity|].
  destruct (comes_before (fst kv) k'); simpl; [reflexivity|].
  rewrite IH. destruct (f (fst kv)), (f k'); reflexivity.
Qed.

Lemma add_member_keys_existsb (f : string -> bool)
  (l : list (string * json)) (kv : string * json) :
  existsb f (map fst (add_member l kv)) = f (fst kv) || existsb f (map fst l).
Proof.
  induction l as [|[k' v'] l IH]; simpl; [reflexivity|].
  destruct (comes_before (fst kv) k'); simpl; [reflexivity|].
  rewrite IH. destruct (f (fst kv)), (f k'); reflexivity.
Qed.

Lemma has_key_existsb (k : string) (l : list (string * json)) :
  has_key k l = existsb (String.eqb k) (map fst l).
Proof.
  unfold has_key. induction l as [|[k' v'] l IH]; [reflexivity|].
  simpl. now rewrite IH, (string_eqb_sym k' k).
Qed.

Lemma add_member_distinct (l : list (string * json)) (kv : string * json) :
  has_key (fst kv) l = false ->
  distinct (map fst l) = true ->
  distinct (map fst (add_member l kv)) = true.
Proof.
  rewrite has_key_existsb.
  induction l as [|[k' v'] l IH]; simpl; intros Hk Hd; [reflexivity|].
  apply orb_false_iff in Hk. destruct Hk as [Hk1 Hk2].
  apply andb_true_iff in Hd. destruct Hd as [Hd1 Hd2].
  destruct (comes_before (fst kv) k'); simpl.
  - now rewrite Hk1, Hk2, Hd1, Hd2.
  - rewrite add_member_keys_existsb, (string_eqb_sym k' (fst kv)), Hk1.
    simpl. rewrite Hd1. simpl. now apply IH.
Qed.

Lemma add_member_in_order (l : list (string * json)) (kv : string * json) :
  in_order (map fst l) = true ->
  in_order (map fst (add_member l kv)) = true.
Proof.
  induction l as [|[k' v'] l IH]; simpl; intros Ho; [reflexivity|].
  apply andb_true_iff in Ho. destruct Ho as [Ho1 Ho2].
  destruct (comes_before (fst kv) k') eqn:C; simpl.
  - rewrite (comes_before_asym _ _ C). simpl.
    rewrite Ho1, Ho2, andb_true_r. simpl.
    apply forallb_forall. intros x Hx. apply negb_true_iff.
    apply (comes_before_left x (fst kv) k' C).
    apply negb_true_iff.
    revert x Hx. now apply forallb_forall.
  - rewrite add_member_keys_forallb, C. simpl.
    rewrite Ho1. simpl. now apply IH.
Qed.

(** Defining a property keeps the keys distinct and in the order of
    enumeration. *)
Lemma obj_set_wf (l : list (string * json)) (kv : string * json) :
  wf_json (JObj l) = true -> wf_json (snd kv) = true ->
  wf_json (JObj (obj_set l kv)) = true.
Proof.
  cbn [wf_json]. intros H Hv.
  apply andb_true_iff in H. destruct H as [H Hw].
  apply andb_true_iff in H. destruct H as [Hd Ho].
  unfold obj_set. destruct (has_key (fst kv) l) eqn:K.
  - rewrite replace_member_keys, Hd, Ho. simpl.
    now apply (replace_member_values wf_json).
  - rewrite (add_member_distinct l kv K Hd), (add_member_in_order l kv Ho).
    simpl. rewrite add_member_forallb. now rewrite Hv, Hw.
Qed.

Lemma fold_obj_set_wf (ms acc : list (string * json)) :
  wf_json (JObj acc) = true ->
  forallb (fun kv => wf_json (snd kv)) ms = true ->
  wf_json (JObj (fold_left obj_set ms acc)) = true.
Proof.
  revert acc. induction ms as [|kv ms IH]; intros acc Ha Hm; [exact Ha|].
  simpl in Hm. apply andb_true_iff in Hm. destruct Hm as [Hv Hm].
  simpl. apply IH; [now apply obj_set_wf | exact Hm].
Qed.

(** *** Every value that is read is a JavaScript value *)

Lemma parse_value_wf (fuel : nat) :
  (forall s v r, parse_value fuel s = Some (v, r) -> wf_json v = true)
  /\ (forall s vs r,
        parse_items fuel s = Some (vs, r) -> forallb wf_json vs = true)
  /\ (forall s ms r,
        parse_members fuel s = Some (ms, r) ->
        forallb (fun kv => wf_json (snd kv)) ms = true).
Proof.
  induction fuel as [|fuel (IHv & IHi & IHm)];
    [repeat split; intros; discriminate|].
  split; [|split].
  - intros s v r H. cbn [parse_value] in H.
    destruct (skip_ws s) as [|c t]; [discriminate H|].
    destruct (Char16.eqb c "n").
    { unfold with_value in H. split_match H. now injection H as <- _. }
    destruct (Char16.eqb c "t").
    { unfold with_value in H. split_match H. now injection H as <- _. }
    destruct (Char16.eqb c "f").
    { unfold with_value in H. split_match H. now injection H as <- _. }
    destruct (Char16.eqb c dquote).
    { split_match H. now injection H as <- _. }
    destruct (Char16.eqb c "[").
    { destruct (skip_ws t) as [|c' t']; [discriminate H|].
      destruct (Char16.eqb c' "]"); [now injection H as <- _|].
      destruct (parse_value fuel t) as [[x r1]|] eqn:E1; [|discriminate H].
      destruct (parse_items fuel r1) as [[xs r2]|] eqn:E2; [|discriminate H].
      injection H as <- _. cbn [wf_json forallb].
      now rewrite (IHv _ _ _ E1), (IHi _ _ _ E2). }
    destruct (Char16.eqb c "{").
    { destruct (skip_ws t) as [|c' t']; [discriminate H|].
      destruct (Char16.eqb c' "}"); [now injection H as <- _|].
      destruct (parse_key t) as [[k r1]|]; [|discriminate H].
      destruct (parse_value fuel r1) as [[x r2]|] eqn:E1; [|discriminate H].
      destruct (parse_members fuel r2) as [[ms r3]|] eqn:E2;
        [|discriminate H].
      injection H as <- _.
      apply (fold_obj_set_wf ((k, x) :: ms) []); [reflexivity|].
      cbn [forallb snd]. now rewrite (IHv _ _ _ E1), (IHm _ _ _ E2). }
    destruct (parse_number (String c t)) as [[x r']|] eqn:E; [|discriminate H].
    injection H as <- _. exact (parse_number_is_double _ _ _ E).
  - intros s vs r H. cbn [parse_items] in H.
    destruct (skip_ws s) as [|c t]; [discriminate H|].
    destruct (Char16.eqb c "]"); [now injection H as <- _|].
    destruct (Char16.eqb c ","); [|discriminate H].
    destruct (parse_value fuel t) as [[x r1]|] eqn:E1; [|discriminate H].
    destruct (parse_items fuel r1) as [[xs r2]|] eqn:E2; [|discriminate H].
    injection H as <- _. cbn [forallb].
    now rewrite (IHv _ _ _ E1), (IHi _ _ _ E2).
  - intros s ms r H. cbn [parse_members] in H.
    destruct (skip_ws s) as [|c t]; [discriminate H|].
    destruct (Char16.eqb c "}"); [now injection H as <- _|].
    destruct (Char16.eqb c ","); [|discriminate H].
    destruct (parse_key t) as [[k r1]|]; [|discriminate H].
    destruct (parse_value fuel r1) as [[x r2]|] eqn:E1; [|discriminate H].
    destruct (parse_members fuel r2) as [[ms' r3]|] eqn:E2; [|discriminate H].
    injection H as <- _. cbn [forallb snd].
    now rewrite (IHv _ _ _ E1), (IHm _ _ _ E2).
Qed.

Lemma JSON_parse_wf (text : string) (v : json) :
  JSON_parse text = Some v -> wf_json v = true.
Proof.
  unfold JSON_parse.
  destruct (parse_value (S (String.length text)) text) as [[x r]|] eqn:E;
    [|discriminate].
  destruct (skip_ws r); [|discriminate].
  intros H. injection H as <-.
  exact (proj1 (parse_value_wf _) _ _ _ E).
Qed.

Lemma wf_lookup (key : string) (ms : list (string * json)) (x : json) :
  forallb (fun kv => wf_json (snd kv)) ms = true ->
  lookup key ms = Some x -> wf_json x = true.
Proof.
  induction ms as [|[k v] ms IH]; simpl; intros H L; [discriminate L|].
  apply andb_true_iff in H. destruct H as [Hv Hr].
  destruct (String.eqb k key); [now injection L as <- | now apply IH].
Qed.

Lemma wf_field (key : string) (v : json) :
  wf_json v = true -> wf_js (field key v) = true.
Proof.
  destruct v as [|b|n|s|l|ms]; intros H; try reflexivity.
  simpl in H. apply andb_true_iff in H. destruct H as [_ H].
  unfold field. destruct (lookup key ms) as [x|] eqn:L; [|reflexivity].
  exact (wf_lookup key ms x H L).
Qed.

Lemma wf_optional_field (key : string) (x : jsval) :
  wf_js x = true -> wf_js (optional_field key x) = true.
Proof.
  destruct x as [|v]; intros H; [reflexivity|].
  destruct v; try reflexivity; now apply (wf_field key).
Qed.

(** Decoding a JavaScript value gives a JavaScript value. *)
Lemma decode_wf (rt : runtime) (d x : jsval) :
  wf_js d = true -> decode rt d = Return x -> wf_js x = true.
Proof.
  intros Hd H. destruct d as [|v]; [now injection H as <-|].
  destruct v; try (now injection H as <-).
  simpl in H. destruct (JSON_parse s) as [v|] eqn:E; [|discriminate H].
  injection H as <-. exact (JSON_parse_wf s v E).
Qed.

(** The payload of a body that has been read by [JSON.parse]. *)
Lemma payload_wf (body : string) (data : json) (key : string) :
  JSON_parse body = Some data -> wf_js (field key data) = true.
Proof. intros H. apply wf_field. exact (JSON_parse_wf body data H). Qed.

(** ** [JSON.parse] reads every JSON text *)

(** *** String literals *)

Lemma hex_value_char (h : hex) :
  (hex_val h <? 16)%N = true -> hex_value (hex_char h) = Some (hex_val h).
Proof.
  destruct h as [v u]. simpl. intros H. apply N.ltb_lt in H.
  destruct v as [|p]; [reflexivity|].
  do 4 (try destruct p as [p|p|]); try lia; destruct u; reflexivity.
Qed.

Lemma parse_strchar (x : strchar) (r : string) :
  wf_strchar x = true ->
  parse_string_body (strchar_text x ++ r)
  = cons_char (strchar_unit x) (parse_string_body r).
Proof.
  destruct x as [c|e|h1 h2 h3 h4]; simpl wf_strchar; intros H.
  - now apply parse_copied.
  - destruct e; reflexivity.
  - apply andb_true_iff in H. destruct H as [H H4].
    apply andb_true_iff in H. destruct H as [H H3].
    apply andb_true_iff in H. destruct H as [H1 H2].
    change (parse_string_body (strchar_text (Unicode h1 h2 h3 h4) ++ r))
      with (match unicode_escape (hex_char h1) (hex_char h2)
                    (hex_char h3) (hex_char h4) with
            | Some x => cons_char x (parse_string_body r)
            | None => None
            end).
    unfold unicode_escape, byte_of_hex.
    now rewrite !hex_value_char by assumption.
Qed.

Lemma parse_chars (cs : list strchar) (rest : string) :
  forallb wf_strchar cs = true ->
  parse_string_body (chars_text cs ++ String dquote rest)
  = Some (chars_value cs, rest).
Proof.
  induction cs as [|x cs IH]; simpl; intros H.
  - reflexivity.
  - apply andb_true_iff in H. destruct H as [Hx Hc].
    rewrite append_assoc, (parse_strchar x _ Hx), (IH Hc). reflexivity.
Qed.

Lemma string_text_unfold (cs : list strchar) (rest : string) :
  string_text cs ++ rest = String dquote (chars_text cs ++ String dquote rest).
Proof.
  unfold string_text. simpl. rewrite append_assoc. reflexivity.
Qed.

Lemma parse_value_string_text (fuel : nat) (cs : list strchar)
  (rest : string) :
  forallb wf_strchar cs = true ->
  parse_value (S fuel) (string_text cs ++ rest)
  = Some (JStr (chars_value cs), rest).
Proof.
  intros H. rewrite string_text_unfold.
  change (parse_value (S fuel)
            (String dquote (chars_text cs ++ String dquote rest)))
    with (match parse_string_body (chars_text cs ++ String dquote rest) with
          | Some (str, r') => Some (JStr str, r')
          | None => None
          end).
  now rewrite (parse_chars cs rest H).
Qed.

Lemma parse_key_text (k : string * list strchar * string) (tail : string) :
  wf_key k = true ->
  parse_key (key_text k ++ ":" ++ tail)
  = Some (chars_value (snd (fst k)), tail).
Proof.
  destruct k as [[a cs] b]. unfold wf_key, key_text. simpl fst. simpl snd.
  intros H. apply andb_true_iff in H. destruct H as [H Hb].
  apply andb_true_iff in H. destruct H as [Ha Hc].
  rewrite !append_assoc, (parse_key_all_ws a _ Ha), string_text_unfold.
  change (parse_key
            (String dquote
               (chars_text cs ++ String dquote (b ++ ":" ++ tail))))
    with (match parse_string_body
                  (chars_text cs ++ String dquote (b ++ ":" ++ tail)) with
          | Some (k', r1) =>
              match skip_ws r1 with
              | String c' r2 =>
                  if Char16.eqb c' ":" then Some (k', r2) else None
              | EmptyString => None
              end
          | None => None
          end).
  rewrite (parse_chars cs _ Hc), (skip_ws_all_ws b _ Hb). reflexivity.
Qed.

(** *** Number literals *)

Lemma parse_exp_spelling (x : option exponent) (rest : string) :
  match x with
  | Some x => exp_digits x <> []
  | None => True
  end ->
  number_ends rest = true ->
  parse_exp (exponent_spelling x ++ rest) = Some (exponent_value x, rest).
Proof.
  intros Hx Hr. destruct (number_ends_facts rest Hr) as [Hd Hc].
  destruct x as [[cap sg ds]|].
  - simpl in Hx. unfold exponent_spelling, exponent_value. simpl.
    assert (S : span_digits (string_of_digits ds ++ rest) = (ds, rest))
      by exact (span_digits_text ds rest Hd).
    destruct ds as [|d ds]; [contradiction|].
    destruct sg as [[|]|].
    + destruct cap;
        rewrite !append_assoc;
        [change (parse_exp ("E" ++ "-" ++ string_of_digits (d :: ds) ++ rest))
           with (match span_digits (string_of_digits (d :: ds) ++ rest) with
                 | ([], _) => None
                 | (ds', r2) => Some ((- Z_of_digits ds')%Z, r2)
                 end)
        |change (parse_exp ("e" ++ "-" ++ string_of_digits (d :: ds) ++ rest))
           with (match span_digits (string_of_digits (d :: ds) ++ rest) with
                 | ([], _) => None
                 | (ds', r2) => Some ((- Z_of_digits ds')%Z, r2)
                 end)];
        now rewrite S.
    + destruct cap;
        rewrite !append_assoc;
        [change (parse_exp ("E" ++ "+" ++ string_of_digits (d :: ds) ++ rest))
           with (match span_digits (string_of_digits (d :: ds) ++ rest) with
                 | ([], _) => None
                 | (ds', r2) => Some (Z_of_digits ds', r2)
                 end)
        |change (parse_exp ("e" ++ "+" ++ string_of_digits (d :: ds) ++ rest))
           with (match span_digits (string_of_digits (d :: ds) ++ rest) with
                 | ([], _) => None
                 | (ds', r2) => Some (Z_of_digits ds', r2)
                 end)];
        now rewrite S.
    + assert (P : forall e : char16,
                (Char16.eqb e "e" || Char16.eqb e "E") = true ->
                parse_exp (String e (string_of_digits (d :: ds) ++ rest))
                = match span_digits (string_of_digits (d :: ds) ++ rest) with
                  | ([], _) => None
                  | (ds', r2) => Some (Z_of_digits ds', r2)
                  end).
      { intros e He. unfold parse_exp. rewrite He.
        change (string_of_digits (d :: ds) ++ rest)
          with (String (char_of_digit d) (string_of_digits ds ++ rest)).
        destruct d; reflexivity. }
      destruct cap; rewrite !append_assoc;
        [change ("E" ++ EmptyString ++ string_of_digits (d :: ds) ++ rest)
           with (String "E" (string_of_digits (d :: ds) ++ rest))
        |change ("e" ++ EmptyString ++ string_of_digits (d :: ds) ++ rest)
           with (String "e" (string_of_digits (d :: ds) ++ rest))];
        rewrite P by reflexivity; now rewrite S.
  - simpl. destruct rest as [|c r]; [reflexivity|].
    destruct Hc as (_ & He & HE). simpl. now rewrite He, HE.
Qed.

Lemma exponent_spelling_head (x : option exponent) (rest : string) :
  number_ends rest = true ->
  digit_head (exponent_spelling x ++ rest) = false
  /\ match exponent_spelling x ++ rest with
     | EmptyString => True
     | String c _ => Char16.eqb c "." = false
     end.
Proof.
  intros Hr. destruct x as [[cap sg ds]|].
  - destruct cap; split; reflexivity.
  - simpl. destruct (number_ends_facts rest Hr) as [H1 H2].
    split; [exact H1|]. destruct rest; [exact I | apply H2].
Qed.

(** A number literal is read as the number it denotes. *)
Lemma parse_literal (l : literal) (rest : string) :
  wf_literal l = true ->
  number_ends rest = true ->
  parse_number (literal_text l ++ rest) = Some (literal_value l, rest).
Proof.
  destruct l as [sg ip fp ex]. unfold wf_literal, literal_text, literal_value.
  simpl. intros H Hr. apply andb_true_iff in H. destruct H as [Hi Hx].
  rewrite !append_assoc.
  destruct (exponent_spelling_head ex rest Hr) as [Hd Hp].
  apply parse_number_parts; try assumption.
  apply parse_exp_spelling; [|exact Hr].
  destruct ex as [[cap s ds]|]; [|exact I].
  simpl in *. destruct ds; [discriminate Hx | discriminate].
Qed.

(** *** Values *)

Lemma follows_all_ws (w rest : string) :
  all_ws w = true -> follows_value rest = true ->
  follows_value (w ++ rest) = true.
Proof.
  destruct w as [|c w]; [auto|]. simpl. intros H _.
  apply andb_true_iff in H. destruct H as [-> _]. reflexivity.
Qed.

Lemma follows_more_elements (r : list (string * tree * string))
  (rest : string) :
  follows_value (more_elements r ++ rest) = true.
Proof. destruct r; reflexivity. Qed.

Lemma follows_more_pairs
  (r : list ((string * list strchar * string) * (string * tree * string)))
  (rest : string) :
  follows_value (more_pairs r ++ rest) = true.
Proof. destruct r; reflexivity. Qed.

Lemma render_array (w : string) (e : string * tree * string)
  (r : list (string * tree * string)) :
  render (TArr w (e :: r))
  = String "[" (fst (fst e) ++ render (snd (fst e)) ++ snd e
                ++ more_elements r).
Proof. reflexivity. Qed.

Lemma render_object (w : string)
  (m : (string * list strchar * string) * (string * tree * string))
  (r : list ((string * list strchar * string) * (string * tree * string))) :
  render (TObj w (m :: r))
  = String "{" (key_text (fst m) ++ ":"
                ++ fst (fst (snd m)) ++ render (snd (fst (snd m)))
                ++ snd (snd m) ++ more_pairs r).
Proof. reflexivity. Qed.

Lemma literal_text_head (l : literal) :
  wf_literal l = true ->
  exists c r, literal_text l = String c r /\ starts_value c = true.
Proof.
  intros H.
  pose proof (parse_literal l EmptyString H eq_refl) as P.
  rewrite append_empty_r in P.
  destruct (parse_number_head _ _ _ P) as (c & t & -> & [->|[d ->]]);
    eexists _, _; (split; [reflexivity|]);
    [reflexivity | apply starts_value_digit].
Qed.

Lemma render_head (t : tree) :
  wf_tree t = true ->
  exists c r, render t = String c r /\ starts_value c = true.
Proof.
  destruct t as [|[|]|l|cs|w [|e r]|w [|m r]]; simpl wf_tree; intros H;
    try (eexists _, _; split; reflexivity).
  now apply literal_text_head.
Qed.

Lemma skip_ws_render (w : string) (t : tree) (tail : string) :
  all_ws w = true ->
  wf_tree t = true ->
  exists c r,
    skip_ws (w ++ render t ++ tail) = String c r
    /\ Char16.eqb c "]" = false /\ Char16.eqb c "}" = false.
Proof.
  intros Hw H. rewrite (skip_ws_all_ws w _ Hw).
  destruct (render_head t H) as (c & r & -> & Hc).
  destruct (starts_value_facts c Hc) as (Hs & Hb & Hbr & _).
  exists c, (r ++ tail). simpl. rewrite Hs. auto.
Qed.

Lemma parse_value_empty_array (fuel : nat) (w rest : string) :
  all_ws w = true ->
  parse_value (S fuel) (("[" ++ w ++ "]") ++ rest) = Some (JArr [], rest).
Proof.
  intros Hw.
  change (("[" ++ w ++ "]") ++ rest) with (String "[" ((w ++ "]") ++ rest)).
  rewrite append_assoc.
  change (parse_value (S fuel) (String "[" (w ++ "]" ++ rest)))
    with (match skip_ws (w ++ "]" ++ rest) with
          | EmptyString => None
          | String c' r' =>
              if Char16.eqb c' "]" then Some (JArr [], r')
              else
                match parse_value fuel (w ++ "]" ++ rest) with
                | Some (x, r1) =>
                    match parse_items fuel r1 with
                    | Some (xs, r2) => Some (JArr (x :: xs), r2)
                    | None => None
                    end
                | None => None
                end
          end).
  now rewrite (skip_ws_all_ws w _ Hw).
Qed.

Lemma parse_value_empty_object (fuel : nat) (w rest : string) :
  all_ws w = true ->
  parse_value (S fuel) (("{" ++ w ++ "}") ++ rest) = Some (JObj [], rest).
Proof.
  intros Hw.
  change (("{" ++ w ++ "}") ++ rest) with (String "{" ((w ++ "}") ++ rest)).
  rewrite append_assoc.
  change (parse_value (S fuel) (String "{" (w ++ "}" ++ rest)))
    with (match skip_ws (w ++ "}" ++ rest) with
          | EmptyString => None
          | String c' r' =>
              if Char16.eqb c' "}" then Some (JObj [], r')
              else
                match parse_key (w ++ "}" ++ rest) with
                | Some (k, r1) =>
                    match parse_value fuel r1 with
                    | Some (x, r2) =>
                        match parse_members fuel r2 with
                        | Some (ms, r3) =>
                            Some (JObj (fold_left obj_set ((k, x) :: ms) []), r3)
                        | None => None
                        end
                    | None => None
                    end
                | None => None
                end
          end).
  now rewrite (skip_ws_all_ws w _ Hw).
Qed.

Lemma parse_tree_items (r : list (string * tree * string)) :
  Forall (fun e => wf_tree (snd (fst e)) = true ->
            forall fuel rest,
              tree_size (snd (fst e)) <= fuel ->
              follows_value rest = true ->
              parse_value fuel (render (snd (fst e)) ++ rest)
              = Some (value (snd (fst e)), rest)) r ->
  forallb (fun e => all_ws (fst (fst e)) && wf_tree (snd (fst e))
                    && all_ws (snd e)) r = true ->
  forall fuel rest,
    S (list_sum (map (fun e => S (tree_size (snd (fst e)))) r)) <= fuel ->
    parse_items fuel (more_elements r ++ rest)
    = Some (map (fun e => value (snd (fst e))) r, rest).
Proof.
  induction 1 as [|[[a t] b] r Hy _ IH]; intros Hwf fuel rest Hfuel;
    (destruct fuel as [|fuel]; [lia|]).
  - reflexivity.
  - simpl in Hwf. apply andb_true_iff in Hwf. destruct Hwf as [Hwy Hwr].
    apply andb_true_iff in Hwy. destruct Hwy as [Hwy Hb].
    apply andb_true_iff in Hwy. destruct Hwy as [Ha Ht].
    simpl in Hfuel, Hy.
    change (more_elements ((a, t, b) :: r) ++ rest)
      with (String "," ((a ++ render t ++ b ++ more_elements r) ++ rest)).
    rewrite parse_items_comma, !append_assoc.
    rewrite (parse_value_all_ws fuel a _ Ha).
    rewrite (Hy Ht fuel _ ltac:(lia)
               (follows_all_ws b _ Hb (follows_more_elements r rest))).
    rewrite (parse_items_all_ws fuel b _ Hb).
    rewrite (IH Hwr fuel rest ltac:(lia)). reflexivity.
Qed.

Lemma parse_tree_members
  (r : list ((string * list strchar * string) * (string * tree * string))) :
  Forall (fun m => wf_tree (snd (fst (snd m))) = true ->
            forall fuel rest,
              tree_size (snd (fst (snd m))) <= fuel ->
              follows_value rest = true ->
              parse_value fuel (render (snd (fst (snd m))) ++ rest)
              = Some (value (snd (fst (snd m))), rest)) r ->
  forallb (fun m => wf_key (fst m)
                    && (all_ws (fst (fst (snd m)))
                        && wf_tree (snd (fst (snd m)))
                        && all_ws (snd (snd m)))) r = true ->
  forall fuel rest,
    S (list_sum (map (fun m => S (tree_size (snd (fst (snd m))))) r)) <= fuel ->
    parse_members fuel (more_pairs r ++ rest)
    = Some (map (fun m => (chars_value (snd (fst (fst m))),
                           value (snd (fst (snd m))))) r, rest).
Proof.
  induction 1 as [|[k [[a t] b]] r Hy _ IH]; intros Hwf fuel rest Hfuel;
    (destruct fuel as [|fuel]; [lia|]).
  - reflexivity.
  - simpl in Hwf. apply andb_true_iff in Hwf. destruct Hwf as [Hwy Hwr].
    apply andb_true_iff in Hwy. destruct Hwy as [Hk Hwy].
    apply andb_true_iff in Hwy. destruct Hwy as [Hwy Hb].
    apply andb_true_iff in Hwy. destruct Hwy as [Ha Ht].
    simpl in Hfuel, Hy.
    change (more_pairs ((k, (a, t, b)) :: r) ++ rest)
      with (String ","
              ((key_text k ++ ":" ++ a ++ render t ++ b ++ more_pairs r)
               ++ rest)).
    rewrite parse_members_comma, !append_assoc.
    rewrite (parse_key_text k _ Hk).
    rewrite (parse_value_all_ws fuel a _ Ha).
    rewrite (Hy Ht fuel _ ltac:(lia)
               (follows_all_ws b _ Hb (follows_more_pairs r rest))).
    rewrite (parse_members_all_ws fuel b _ Hb).
    rewrite (IH Hwr fuel rest ltac:(lia)). reflexivity.
Qed.

Lemma parse_tree_value (t : tree) :
  wf_tree t = true ->
  forall fuel rest,
    tree_size t <= fuel ->
    follows_value rest = true ->
    parse_value fuel (render t ++ rest) = Some (value t, rest).
Proof.
  induction t as [|b|l|cs|w l IH|w l IH] using tree_nested_ind;
    intros Hwf fuel rest Hfuel Hrest;
    (destruct fuel as [|fuel]; [simpl in Hfuel; lia|]).
  - reflexivity.
  - destruct b; reflexivity.
  - apply parse_value_of_number. apply parse_literal; [exact Hwf|].
    now apply follows_value_number_ends.
  - now apply parse_value_string_text.
  - simpl in Hwf. apply andb_true_iff in Hwf. destruct Hwf as [Hw Hwf].
    destruct l as [|[[a t] b] r]; [now apply parse_value_empty_array|].
    simpl in Hwf. apply andb_true_iff in Hwf. destruct Hwf as [Hwx Hwr].
    apply andb_true_iff in Hwx. destruct Hwx as [Hwx Hb].
    apply andb_true_iff in Hwx. destruct Hwx as [Ha Ht].
    inversion IH as [|? ? Hx Hr]; subst. simpl in Hx.
    simpl in Hfuel.
    rewrite render_array. cbn [fst snd].
    change (String "[" ?x ++ rest) with (String "[" (x ++ rest)).
    rewrite !append_assoc.
    destruct (skip_ws_render a t (b ++ more_elements r ++ rest) Ha Ht)
      as (c & s & Hs & Hc & _).
    rewrite (parse_value_array fuel _ c s Hs Hc).
    rewrite (parse_value_all_ws fuel a _ Ha).
    rewrite (Hx Ht fuel _ ltac:(lia)
               (follows_all_ws b _ Hb (follows_more_elements r rest))).
    rewrite (parse_items_all_ws fuel b _ Hb).
    rewrite (parse_tree_items r Hr Hwr fuel rest ltac:(lia)).
    reflexivity.
  - simpl in Hwf. apply andb_true_iff in Hwf. destruct Hwf as [Hw Hwf].
    destruct l as [|[k [[a t] b]] r]; [now apply parse_value_empty_object|].
    simpl in Hwf. apply andb_true_iff in Hwf. destruct Hwf as [Hwx Hwr].
    apply andb_true_iff in Hwx. destruct Hwx as [Hk Hwx].
    apply andb_true_iff in Hwx. destruct Hwx as [Hwx Hb].
    apply andb_true_iff in Hwx. destruct Hwx as [Ha Ht].
    inversion IH as [|? ? Hx Hr]; subst. simpl in Hx.
    simpl in Hfuel.
    rewrite render_object. cbn [fst snd].
    change (String "{" ?x ++ rest) with (String "{" (x ++ rest)).
    rewrite !append_assoc.
    assert (Hs : exists s,
      skip_ws (key_text k ++ ":" ++ a ++ render t ++ b
               ++ more_pairs r ++ rest) = String dquote s).
    { destruct k as [[ka cs] kb]. unfold wf_key in Hk. simpl in Hk.
      apply andb_true_iff in Hk. destruct Hk as [Hk _].
      apply andb_true_iff in Hk. destruct Hk as [Hka _].
      unfold key_text. simpl fst. simpl snd.
      rewrite !append_assoc, (skip_ws_all_ws ka _ Hka), string_text_unfold.
      eexists. reflexivity. }
    destruct Hs as [s Hs].
    rewrite (parse_value_object fuel _ _ _ Hs eq_refl).
    rewrite (parse_key_text k _ Hk).
    rewrite (parse_value_all_ws fuel a _ Ha).
    rewrite (Hx Ht fuel _ ltac:(lia)
               (follows_all_ws b _ Hb (follows_more_pairs r rest))).
    rewrite (parse_members_all_ws fuel b _ Hb).
    rewrite (parse_tree_members r Hr Hwr fuel rest ltac:(lia)).
    reflexivity.
Qed.

Lemma more_elements_length (r : list (string * tree * string)) :
  Forall (fun e => wf_tree (snd (fst e)) = true ->
                   tree_size (snd (fst e))
                   <= String.length (render (snd (fst e)))) r ->
  forallb (fun e => all_ws (fst (fst e)) && wf_tree (snd (fst e))
                    && all_ws (snd e)) r = true ->
  S (list_sum (map (fun e => S (tree_size (snd (fst e)))) r))
  <= String.length (more_elements r).
Proof.
  induction 1 as [|[[a t] b] r Hy _ IH]; intros Hwf; simpl; [lia|].
  simpl in Hwf, Hy. apply andb_true_iff in Hwf. destruct Hwf as [Hwy Hwr].
  apply andb_true_iff in Hwy. destruct Hwy as [Hwy _].
  apply andb_true_iff in Hwy. destruct Hwy as [_ Ht].
  rewrite !length_append. specialize (Hy Ht). specialize (IH Hwr). lia.
Qed.

Lemma more_pairs_length
  (r : list ((string * list strchar * string) * (string * tree * string))) :
  Forall (fun m => wf_tree (snd (fst (snd m))) = true ->
                   tree_size (snd (fst (snd m)))
                   <= String.length (render (snd (fst (snd m))))) r ->
  forallb (fun m => wf_key (fst m)
                    && (all_ws (fst (fst (snd m)))
                        && wf_tree (snd (fst (snd m)))
                        && all_ws (snd (snd m)))) r = true ->
  S (list_sum (map (fun m => S (tree_size (snd (fst (snd m))))) r))
  <= String.length (more_pairs r).
Proof.
  induction 1 as [|[k [[a t] b]] r Hy _ IH]; intros Hwf; simpl; [lia|].
  simpl in Hwf, Hy. apply andb_true_iff in Hwf. destruct Hwf as [Hwy Hwr].
  apply andb_true_iff in Hwy. destruct Hwy as [_ Hwy].
  apply andb_true_iff in Hwy. destruct Hwy as [Hwy _].
  apply andb_true_iff in Hwy. destruct Hwy as [_ Ht].
  rewrite !length_append. specialize (Hy Ht). specialize (IH Hwr).
  simpl. rewrite !length_append. lia.
Qed.

Lemma tree_size_le_length (t : tree) :
  wf_tree t = true -> tree_size t <= String.length (render t).
Proof.
  induction t as [|b|l|cs|w l IH|w l IH] using tree_nested_ind; intros Hwf.
  - simpl. lia.
  - destruct b; simpl; lia.
  - destruct (render_head (TNum l) Hwf) as (c & r & -> & _). simpl. lia.
  - simpl. lia.
  - simpl in Hwf. apply andb_true_iff in Hwf. destruct Hwf as [_ Hwf].
    destruct l as [|[[a t] b] r]; [simpl; lia|].
    simpl in Hwf. apply andb_true_iff in Hwf. destruct Hwf as [Hwx Hwr].
    apply andb_true_iff in Hwx. destruct Hwx as [Hwx _].
    apply andb_true_iff in Hwx. destruct Hwx as [_ Ht].
    inversion IH as [|? ? Hx Hr]; subst. simpl in Hx.
    rewrite render_array. cbn [fst snd]. simpl tree_size.
    simpl String.length. rewrite !length_append.
    pose proof (more_elements_length r Hr Hwr). specialize (Hx Ht). lia.
  - simpl in Hwf. apply andb_true_iff in Hwf. destruct Hwf as [_ Hwf].
    destruct l as [|[k [[a t] b]] r]; [simpl; lia|].
    simpl in Hwf. apply andb_true_iff in Hwf. destruct Hwf as [Hwx Hwr].
    apply andb_true_iff in Hwx. destruct Hwx as [_ Hwx].
    apply andb_true_iff in Hwx. destruct Hwx as [Hwx _].
    apply andb_true_iff in Hwx. destruct Hwx as [_ Ht].
    inversion IH as [|? ? Hx Hr]; subst. simpl in Hx.
    rewrite render_object. cbn [fst snd]. simpl tree_size.
    simpl String.length. rewrite !length_append.
    pose proof (more_pairs_length r Hr Hwr). specialize (Hx Ht).
    simpl. rewrite ?length_append. lia.
Qed.

Lemma skip_ws_only (w : string) : all_ws w = true -> skip_ws w = EmptyString.
Proof.
  intros H. rewrite <- (append_empty_r w). now rewrite (skip_ws_all_ws w _ H).
Qed.

(** [JSON.parse] accepts every JSON text, and reads it as the value it
    denotes. *)
Lemma JSON_parse_render (a : string) (t : tree) (b : string) :
  all_ws a = true -> wf_tree t = true -> all_ws b = true ->
  JSON_parse (a ++ render t ++ b) = Some (value t).
Proof.
  intros Ha Ht Hb. unfold JSON_parse.
  rewrite (parse_value_all_ws _ a _ Ha).
  rewrite (parse_tree_value t Ht _ b).
  - now rewrite (skip_ws_only b Hb).
  - pose proof (tree_size_le_length t Ht). rewrite !length_append. lia.
  - rewrite <- (append_empty_r b). now apply follows_all_ws.
Qed.





(** ** [JSON.parse] reads JSON texts only *)

Lemma skip_ws_split (s : string) :
  exists w, all_ws w = true /\ s = w ++ skip_ws s.
Proof.
  induction s as [|c s (w & Hw & E)]; [exists EmptyString; auto|].
  simpl. destruct (is_ws c) eqn:C.
  - exists (String c w). simpl. rewrite C, Hw. split; [reflexivity|].
    now rewrite <- E.
  - exists EmptyString. auto.
Qed.

Lemma expect_inv (lit s r : string) : expect lit s = Some r -> s = lit ++ r.
Proof.
  revert s. induction lit as [|a lit IH]; intros s H.
  - simpl in H. now injection H as ->.
  - destruct s as [|b s]; [discriminate H|]. simpl in H.
    destruct (Char16.eqb a b) eqn:E; [|discriminate H].
    apply char_eqb_eq in E. subst b. simpl. f_equal. now apply IH.
Qed.

Lemma span_digits_inv (s : string) (ds : list digit) (r : string) :
  span_digits s = (ds, r) -> s = string_of_digits ds ++ r.
Proof.
  revert ds. induction s as [|c s IH]; intros ds H.
  - simpl in H. now injection H as <- <-.
  - simpl in H. destruct (digit_of_char c) as [d|] eqn:D.
    + destruct (span_digits s) as [ds' r'] eqn:E.
      injection H as <- <-. apply digit_of_char_some in D. subst c.
      simpl. f_equal. now apply IH.
    + now injection H as <- <-.
Qed.

(** *** String literals *)

Lemma short_escape_inv (e x : char16) :
  short_escape e = Some x ->
  exists esc, e = escape_letter esc /\ x = escape_unit esc.
Proof.
  unfold short_escape. intros H.
  destruct (Char16.eqb e dquote) eqn:E1;
    [apply char_eqb_eq in E1; injection H as <-; now exists EQuote|].
  destruct (Char16.eqb e backslash) eqn:E2;
    [apply char_eqb_eq in E2; injection H as <-; now exists EBackslash|].
  destruct (Char16.eqb e "/") eqn:E3;
    [apply char_eqb_eq in E3; injection H as <-; now exists ESlash|].
  destruct (Char16.eqb e "b") eqn:E4;
    [apply char_eqb_eq in E4; injection H as <-; now exists Eb|].
  destruct (Char16.eqb e "f") eqn:E5;
    [apply char_eqb_eq in E5; injection H as <-; now exists Ef|].
  destruct (Char16.eqb e "n") eqn:E6;
    [apply char_eqb_eq in E6; injection H as <-; now exists En|].
  destruct (Char16.eqb e "r") eqn:E7;
    [apply char_eqb_eq in E7; injection H as <-; now exists Er|].
  destruct (Char16.eqb e "t") eqn:E8;
    [apply char_eqb_eq in E8; injection H as <-; now exists Et|].
  discriminate H.
Qed.

Lemma hex_value_inv (c : char16) (v : N) :
  hex_value c = Some v ->
  exists h, c = hex_char h /\ hex_val h = v /\ (v <? 16)%N = true.
Proof.
  destruct c as [hi lo]. unfold hex_value. simpl high. simpl low.
  destruct (Ascii.eqb hi zero) eqn:Z; [|discriminate].
  apply Ascii.eqb_eq in Z. subst hi.
  pose proof (ascii_N_embedding lo) as A.
  set (k := N_of_ascii lo) in *.
  destruct ((48 <=? k)%N && (k <=? 57)%N) eqn:D.
  { apply andb_true_iff in D. destruct D as [D1 D2].
    apply N.leb_le in D1, D2. intros H. injection H as <-.
    exists (Hex (k - 48) false). unfold hex_char. cbn [hex_val hex_upper].
    assert (L : (k - 48 <? 10)%N = true) by (apply N.ltb_lt; lia).
    rewrite L. replace (48 + (k - 48))%N with k by lia. rewrite A.
    repeat split. apply N.ltb_lt. lia. }
  destruct ((97 <=? k)%N && (k <=? 102)%N) eqn:L.
  { apply andb_true_iff in L. destruct L as [L1 L2].
    apply N.leb_le in L1, L2. intros H. injection H as <-.
    exists (Hex (k - 87) false). unfold hex_char. cbn [hex_val hex_upper].
    assert (G : (k - 87 <? 10)%N = false) by (apply N.ltb_ge; lia).
    rewrite G. replace (87 + (k - 87))%N with k by lia. rewrite A.
    repeat split. apply N.ltb_lt. lia. }
  destruct ((65 <=? k)%N && (k <=? 70)%N) eqn:U; [|discriminate].
  apply andb_true_iff in U. destruct U as [U1 U2].
  apply N.leb_le in U1, U2. intros H. injection H as <-.
  exists (Hex (k - 55) true). unfold hex_char. cbn [hex_val hex_upper].
  assert (G : (k - 55 <? 10)%N = false) by (apply N.ltb_ge; lia).
  rewrite G. replace (55 + (k - 55))%N with k by lia. rewrite A.
  repeat split. apply N.ltb_lt. lia.
Qed.

Lemma unicode_escape_inv (c1 c2 c3 c4 x : char16) :
  unicode_escape c1 c2 c3 c4 = Some x ->
  exists h1 h2 h3 h4,
    wf_strchar (Unicode h1 h2 h3 h4) = true
    /\ c1 = hex_char h1 /\ c2 = hex_char h2
    /\ c3 = hex_char h3 /\ c4 = hex_char h4
    /\ x = strchar_unit (Unicode h1 h2 h3 h4).
Proof.
  unfold unicode_escape, byte_of_hex.
  destruct (hex_value c1) as [v1|] eqn:E1; [|discriminate].
  destruct (hex_value c2) as [v2|] eqn:E2; [|discriminate].
  destruct (hex_value c3) as [v3|] eqn:E3; [|discriminate].
  destruct (hex_value c4) as [v4|] eqn:E4; [|discriminate].
  intros H. injection H as <-.
  destruct (hex_value_inv c1 v1 E1) as (h1 & -> & <- & B1).
  destruct (hex_value_inv c2 v2 E2) as (h2 & -> & <- & B2).
  destruct (hex_value_inv c3 v3 E3) as (h3 & -> & <- & B3).
  destruct (hex_value_inv c4 v4 E4) as (h4 & -> & <- & B4).
  exists h1, h2, h3, h4. simpl. rewrite B1, B2, B3, B4. repeat split.
Qed.

Lemma cons_char_inv (c : char16) (o : option (string * string))
  (str r : string) :
  cons_char c o = Some (str, r) ->
  exists str', o = Some (str', r) /\ str = String c str'.
Proof.
  destruct o as [[str' r']|]; [|discriminate]. simpl.
  intros H. injection H as <- <-. now exists str'.
Qed.

Lemma parse_string_body_inv (n : nat) :
  forall s str r,
    String.length s <= n ->
    parse_string_body s = Some (str, r) ->
    exists cs,
      forallb wf_strchar cs = true
      /\ s = chars_text cs ++ String dquote r
      /\ str = chars_value cs.
Proof.
  induction n as [|n IH]; intros s str r Hn H.
  { destruct s; [discriminate H | simpl in Hn; lia]. }
  destruct s as [|c s]; [discriminate H|].
  simpl in Hn. cbn [parse_string_body] in H.
  destruct (Char16.eqb c dquote) eqn:Q.
  { apply char_eqb_eq in Q. subst c. injection H as <- <-.
    exists []. auto. }
  destruct (Char16.eqb c backslash) eqn:B.
  { apply char_eqb_eq in B. subst c.
    destruct s as [|e s]; [discriminate H|].
    destruct (short_escape e) as [x|] eqn:E.
    - destruct (cons_char_inv _ _ _ _ H) as (str' & H' & ->).
      destruct (short_escape_inv e x E) as (esc & -> & ->).
      destruct (IH s str' r ltac:(simpl in Hn; lia) H')
        as (cs & Hw & -> & ->).
      exists (Escaped esc :: cs). simpl. rewrite Hw. auto.
    - destruct (Char16.eqb e "u") eqn:U; [|discriminate H].
      apply char_eqb_eq in U. subst e.
      destruct s as [|c1 [|c2 [|c3 [|c4 s]]]]; try discriminate H.
      destruct (unicode_escape c1 c2 c3 c4) as [x|] eqn:X; [|discriminate H].
      destruct (cons_char_inv _ _ _ _ H) as (str' & H' & ->).
      destruct (unicode_escape_inv _ _ _ _ _ X)
        as (h1 & h2 & h3 & h4 & Hw1 & -> & -> & -> & -> & ->).
      destruct (IH s str' r ltac:(simpl in Hn; lia) H')
        as (cs & Hw & -> & ->).
      exists (Unicode h1 h2 h3 h4 :: cs).
      cbn [forallb]. rewrite Hw1, Hw. auto. }
  destruct (Char16.is_control c) eqn:C; [discriminate H|].
  destruct (cons_char_inv _ _ _ _ H) as (str' & H' & ->).
  destruct (IH s str' r ltac:(lia) H') as (cs & Hw & -> & ->).
  exists (Plain c :: cs). cbn [forallb wf_strchar]. unfold copied.
  rewrite Q, B, C, Hw. auto.
Qed.

Lemma parse_key_inv (s k r : string) :
  parse_key s = Some (k, r) ->
  exists key,
    wf_key key = true /\ s = key_text key ++ ":" ++ r
    /\ k = chars_value (snd (fst key)).
Proof.
  unfold parse_key. destruct (skip_ws_split s) as (a & Ha & Es).
  destruct (skip_ws s) as [|c t]; [discriminate|].
  destruct (Char16.eqb c dquote) eqn:Q; [|discriminate].
  apply char_eqb_eq in Q. subst c.
  destruct (parse_string_body t) as [[k' r1]|] eqn:P; [|discriminate].
  destruct (parse_string_body_inv _ t k' r1 (le_n _) P) as (cs & Hc & -> & ->).
  destruct (skip_ws_split r1) as (b & Hb & Er).
  destruct (skip_ws r1) as [|c' r2]; [discriminate|].
  destruct (Char16.eqb c' ":") eqn:C; [|discriminate].
  apply char_eqb_eq in C. subst c'. intros H. injection H as <- <-.
  exists (a, cs, b). unfold wf_key, key_text. simpl fst. simpl snd.
  rewrite Ha, Hc, Hb. split; [reflexivity|]. split; [|reflexivity].
  rewrite Es, Er, !append_assoc, string_text_unfold.
  reflexivity.
Qed.

(** *** Number literals *)

Lemma parse_int_inv (s : string) (ip : list digit) (r : string) :
  parse_int s = Some (ip, r) ->
  int_digits ip = true /\ s = string_of_digits ip ++ r.
Proof.
  unfold parse_int. destruct (span_digits s) as [ds r'] eqn:E.
  apply span_digits_inv in E. subst s.
  destruct ds as [|d [|x ds]]; [discriminate| |].
  - destruct d; intros H; injection H as <- <-; split; reflexivity.
  - destruct d; try discriminate;
      intros H; injection H as <- <-; split; reflexivity.
Qed.

Lemma parse_frac_inv (s : string) (fp : list digit) (r : string) :
  parse_frac s = Some (fp, r) -> s = fraction_text fp ++ r.
Proof.
  unfold parse_frac. destruct s as [|c s]; [intros H; now injection H as <- <-|].
  destruct (Char16.eqb c ".") eqn:E.
  - apply char_eqb_eq in E. subst c.
    destruct (span_digits s) as [ds r'] eqn:S.
    apply span_digits_inv in S. subst s.
    destruct ds as [|d ds]; [discriminate|].
    intros H. injection H as <- <-. reflexivity.
  - intros H. now injection H as <- <-.
Qed.

Lemma parse_exp_inv (s : string) (e : Z) (r : string) :
  parse_exp s = Some (e, r) ->
  exists x,
    match x with
    | Some x => exp_digits x <> nil
    | None => True
    end
    /\ s = exponent_spelling x ++ r /\ e = exponent_value x.
Proof.
  unfold parse_exp. destruct s as [|c s];
    [intros H; injection H as <- <-; now exists None|].
  destruct (Char16.eqb c "e" || Char16.eqb c "E") eqn:E;
    [|intros H; injection H as <- <-; now exists None].
  assert (Hc : exists cap : bool, c = if cap then "E"%char16 else "e"%char16).
  { apply orb_true_iff in E. destruct E as [E|E]; apply char_eqb_eq in E;
      [now exists false | now exists true]. }
  destruct Hc as [cap ->]. clear E.
  assert (G : forall (sg : bool) (r1 : string),
    match span_digits r1 with
    | ([], _) => None
    | (ds, r2) =>
        Some (if sg then (- Z_of_digits ds)%Z else Z_of_digits ds, r2)
    end = Some (e, r) ->
    exists ds,
      ds <> nil /\ r1 = string_of_digits ds ++ r
      /\ e = if sg then (- Z_of_digits ds)%Z else Z_of_digits ds).
  { intros sg r1. destruct (span_digits r1) as [ds r2] eqn:S.
    apply span_digits_inv in S. subst r1.
    destruct ds as [|d ds]; [discriminate|].
    intros H. injection H as <- <-. exists (d :: ds).
    split; [discriminate | auto]. }
  destruct s as [|c' s'].
  { simpl. discriminate. }
  destruct (Char16.eqb c' "-") eqn:M.
  { apply char_eqb_eq in M. subst c'. intros H.
    destruct (G true s' H) as (ds & Hne & -> & ->).
    exists (Some {| capital := cap; exp_sign := Some true;
                    exp_digits := ds |}).
    split; [exact Hne|]. split; [|reflexivity].
    destruct cap; reflexivity. }
  destruct (Char16.eqb c' "+") eqn:P.
  { apply char_eqb_eq in P. subst c'. intros H.
    destruct (G false s' H) as (ds & Hne & -> & ->).
    exists (Some {| capital := cap; exp_sign := Some false;
                    exp_digits := ds |}).
    split; [exact Hne|]. split; [|reflexivity].
    destruct cap; reflexivity. }
  intros H.
  destruct (G false (String c' s') H) as (ds & Hne & Es & ->).
  exists (Some {| capital := cap; exp_sign := None; exp_digits := ds |}).
  split; [exact Hne|]. split; [|reflexivity].
  unfold exponent_spelling. simpl. rewrite Es.
  destruct cap; reflexivity.
Qed.

Lemma parse_number_inv (s : string) (x : number) (r : string) :
  parse_number s = Some (x, r) ->
  exists l,
    wf_literal l = true /\ s = literal_text l ++ r /\ x = literal_value l.
Proof.
  unfold parse_number.
  assert (Hs : exists sg s1,
    parse_sign s = (sg, s1)
    /\ s = (if sg then "-" else EmptyString) ++ s1).
  { unfold parse_sign. destruct s as [|c s]; [now exists false, EmptyString|].
    destruct (Char16.eqb c "-") eqn:E.
    - apply char_eqb_eq in E. subst c. now exists true, s.
    - now exists false, (String c s). }
  destruct Hs as (sg & s1 & -> & ->).
  destruct (parse_int s1) as [[ip s2]|] eqn:I; [|discriminate].
  destruct (parse_int_inv _ _ _ I) as [Hi ->].
  destruct (parse_frac s2) as [[fp s3]|] eqn:F; [|discriminate].
  apply parse_frac_inv in F. subst s2.
  destruct (parse_exp s3) as [[e s4]|] eqn:X; [|discriminate].
  destruct (parse_exp_inv _ _ _ X) as (ex & Hx & -> & ->).
  intros H. injection H as <- <-.
  exists {| minus := sg; int_part := ip; frac_part := fp; exp_part := ex |}.
  unfold wf_literal, literal_text, literal_value. simpl.
  rewrite Hi. split; [|split; [|reflexivity]].
  - destruct ex as [[cap s ds]|]; [|reflexivity].
    simpl in *. destruct ds; [contradiction | reflexivity].
  - now rewrite !append_assoc.
Qed.

(** *** Values *)

Lemma parse_value_sound (fuel : nat) :
  (forall s v r,
     parse_value fuel s = Some (v, r) ->
     exists a t,
       all_ws a = true /\ wf_tree t = true
       /\ s = a ++ render t ++ r /\ v = value t)
  /\ (forall s vs r,
        parse_items fuel s = Some (vs, r) ->
        exists b els,
          all_ws b = true
          /\ forallb (fun e => all_ws (fst (fst e)) && wf_tree (snd (fst e))
                               && all_ws (snd e)) els = true
          /\ s = b ++ more_elements els ++ r
          /\ vs = map (fun e => value (snd (fst e))) els)
  /\ (forall s ms r,
        parse_members fuel s = Some (ms, r) ->
        exists b prs,
          all_ws b = true
          /\ forallb (fun m => wf_key (fst m)
                               && (all_ws (fst (fst (snd m)))
                                   && wf_tree (snd (fst (snd m)))
                                   && all_ws (snd (snd m)))) prs = true
          /\ s = b ++ more_pairs prs ++ r
          /\ ms = map (fun m => (chars_value (snd (fst (fst m))),
                                 value (snd (fst (snd m))))) prs).
Proof.
  induction fuel as [|fuel (IHv & IHi & IHm)];
    [repeat split; intros; discriminate|].
  split; [|split].
  - intros s v r H. cbn [parse_value] in H.
    destruct (skip_ws_split s) as (a & Ha & Es).
    destruct (skip_ws s) as [|c t]; [discriminate H|].
    exists a. rewrite Es. clear Es.
    destruct (Char16.eqb c "n") eqn:C1.
    { apply char_eqb_eq in C1. subst c. unfold with_value in H.
      destruct (expect "ull" t) as [r'|] eqn:X; [|discriminate H].
      apply expect_inv in X. subst t. injection H as <- <-.
      exists TNull. auto. }
    destruct (Char16.eqb c "t") eqn:C2.
    { apply char_eqb_eq in C2. subst c. unfold with_value in H.
      destruct (expect "rue" t) as [r'|] eqn:X; [|discriminate H].
      apply expect_inv in X. subst t. injection H as <- <-.
      exists (TBool true). auto. }
    destruct (Char16.eqb c "f") eqn:C3.
    { apply char_eqb_eq in C3. subst c. unfold with_value in H.
      destruct (expect "alse" t) as [r'|] eqn:X; [|discriminate H].
      apply expect_inv in X. subst t. injection H as <- <-.
      exists (TBool false). auto. }
    destruct (Char16.eqb c dquote) eqn:C4.
    { apply char_eqb_eq in C4. subst c.
      destruct (parse_string_body t) as [[str r']|] eqn:P; [|discriminate H].
      destruct (parse_string_body_inv _ t str r' (le_n _) P)
        as (cs & Hc & -> & ->).
      injection H as <- <-. exists (TStr cs).
      rewrite Ha. repeat split; [exact Hc|].
      simpl render. now rewrite string_text_unfold. }
    destruct (Char16.eqb c "[") eqn:C5.
    { apply char_eqb_eq in C5. subst c.
      destruct (skip_ws_split t) as (w & Hw & Et).
      destruct (skip_ws t) as [|c' t'] eqn:St; [discriminate H|].
      destruct (Char16.eqb c' "]") eqn:B.
      - apply char_eqb_eq in B. subst c'. injection H as <- <-.
        exists (TArr w []). simpl wf_tree. rewrite Ha, Hw.
        repeat split. rewrite Et. simpl. now rewrite !append_assoc.
      - destruct (parse_value fuel t) as [[x r1]|] eqn:E1; [|discriminate H].
        destruct (parse_items fuel r1) as [[xs r2]|] eqn:E2; [|discriminate H].
        injection H as <- <-.
        destruct (IHv _ _ _ E1) as (a1 & t1 & Ha1 & Ht1 & -> & ->).
        destruct (IHi _ _ _ E2) as (b1 & els & Hb1 & Hels & -> & ->).
        exists (TArr EmptyString ((a1, t1, b1) :: els)).
        cbn [wf_tree forallb fst snd all_ws].
        rewrite Ha, Ha1, Ht1, Hb1, Hels. repeat split.
        rewrite render_array. cbn [fst snd]. simpl.
        now rewrite !append_assoc. }
    destruct (Char16.eqb c "{") eqn:C6.
    { apply char_eqb_eq in C6. subst c.
      destruct (skip_ws_split t) as (w & Hw & Et).
      destruct (skip_ws t) as [|c' t'] eqn:St; [discriminate H|].
      destruct (Char16.eqb c' "}") eqn:B.
      - apply char_eqb_eq in B. subst c'. injection H as <- <-.
        exists (TObj w []). simpl wf_tree. rewrite Ha, Hw.
        repeat split. rewrite Et. simpl. now rewrite !append_assoc.
      - destruct (parse_key t) as [[k r1]|] eqn:K; [|discriminate H].
        destruct (parse_value fuel r1) as [[x r2]|] eqn:E1; [|discriminate H].
        destruct (parse_members fuel r2) as [[ms r3]|] eqn:E2;
          [|discriminate H].
        injection H as <- <-.
        destruct (parse_key_inv _ _ _ K) as (key & Hk & -> & ->).
        destruct (IHv _ _ _ E1) as (a1 & t1 & Ha1 & Ht1 & -> & ->).
        destruct (IHm _ _ _ E2) as (b1 & prs & Hb1 & Hprs & -> & ->).
        exists (TObj EmptyString ((key, (a1, t1, b1)) :: prs)).
        cbn [wf_tree forallb fst snd all_ws].
        rewrite Ha, Hk, Ha1, Ht1, Hb1, Hprs. repeat split.
        rewrite render_object. cbn [fst snd].
        simpl. rewrite ?append_assoc. simpl. now rewrite ?append_assoc. }
    destruct (parse_number (String c t)) as [[x r']|] eqn:E; [|discriminate H].
    injection H as <- <-.
    destruct (parse_number_inv _ _ _ E) as (l & Hl & -> & ->).
    exists (TNum l). rewrite Ha. auto.
  - intros s vs r H. cbn [parse_items] in H.
    destruct (skip_ws_split s) as (b & Hb & Es).
    destruct (skip_ws s) as [|c t]; [discriminate H|].
    exists b. rewrite Es. clear Es.
    destruct (Char16.eqb c "]") eqn:C1.
    { apply char_eqb_eq in C1. subst c. injection H as <- <-.
      exists []. auto. }
    destruct (Char16.eqb c ",") eqn:C2; [|discriminate H].
    apply char_eqb_eq in C2. subst c.
    destruct (parse_value fuel t) as [[x r1]|] eqn:E1; [|discriminate H].
    destruct (parse_items fuel r1) as [[xs r2]|] eqn:E2; [|discriminate H].
    injection H as <- <-.
    destruct (IHv _ _ _ E1) as (a1 & t1 & Ha1 & Ht1 & -> & ->).
    destruct (IHi _ _ _ E2) as (b1 & els & Hb1 & Hels & -> & ->).
    exists ((a1, t1, b1) :: els).
    cbn [forallb fst snd]. rewrite Hb, Ha1, Ht1, Hb1, Hels. repeat split.
    simpl. now rewrite !append_assoc.
  - intros s ms r H. cbn [parse_members] in H.
    destruct (skip_ws_split s) as (b & Hb & Es).
    destruct (skip_ws s) as [|c t]; [discriminate H|].
    exists b. rewrite Es. clear Es.
    destruct (Char16.eqb c "}") eqn:C1.
    { apply char_eqb_eq in C1. subst c. injection H as <- <-.
      exists []. auto. }
    destruct (Char16.eqb c ",") eqn:C2; [|discriminate H].
    apply char_eqb_eq in C2. subst c.
    destruct (parse_key t) as [[k r1]|] eqn:K; [|discriminate H].
    destruct (parse_value fuel r1) as [[x r2]|] eqn:E1; [|discriminate H].
    destruct (parse_members fuel r2) as [[ms' r3]|] eqn:E2; [|discriminate H].
    injection H as <- <-.
    destruct (parse_key_inv _ _ _ K) as (key & Hk & -> & ->).
    destruct (IHv _ _ _ E1) as (a1 & t1 & Ha1 & Ht1 & -> & ->).
    destruct (IHm _ _ _ E2) as (b1 & prs & Hb1 & Hprs & -> & ->).
    exists ((key, (a1, t1, b1)) :: prs).
    cbn [forallb fst snd]. rewrite Hb, Hk, Ha1, Ht1, Hb1, Hprs.
    repeat split. cbn [more_pairs fst snd].
    simpl. rewrite ?append_assoc. simpl. now rewrite ?append_assoc.
Qed.

Lemma all_ws_skip (s : string) :
  skip_ws s = EmptyString -> all_ws s = true.
Proof.
  intros H. destruct (skip_ws_split s) as (w & Hw & E).
  rewrite H, append_empty_r in E. now subst.
Qed.

(** Whatever [JSON.parse] accepts is a JSON text, and is read as the value
    it denotes. *)
Lemma JSON_parse_sound (text : string) (v : json) :
  JSON_parse text = Some v ->
  exists a t b,
    all_ws a = true /\ wf_tree t = true /\ all_ws b = true
    /\ text = a ++ render t ++ b /\ v = value t.
Proof.
  unfold JSON_parse.
  destruct (parse_value (S (String.length text)) text) as [[x r]|] eqn:E;
    [|discriminate].
  destruct (skip_ws r) eqn:S; [|discriminate].
  intros H. injection H as <-.
  destruct (proj1 (parse_value_sound _) _ _ _ E)
    as (a & t & Ha & Ht & -> & ->).
  exists a, t, r. repeat split; try assumption. now apply all_ws_skip.
Qed.

(** [JSON.parse] throws exactly on the strings that are not JSON texts. *)
Lemma JSON_parse_json_text (text : string) :
  JSON_parse text = None <-> ~ json_text text.
Proof.
  split.
  - intros H (a & t & b & Ha & Ht & Hb & E). subst text.
    rewrite (JSON_parse_render a t b Ha Ht Hb) in H. discriminate H.
  - intros H. destruct (JSON_parse text) as [v|] eqn:E; [|reflexivity].
    exfalso. apply H.
    destruct (JSON_parse_sound text v E) as (a & t & b & Ha & Ht & Hb & Et & _).
    now exists a, t, b.
Qed.

(** * Properties of the handlers *)

Section HandlerFacts.

Variable rt : runtime.

(** ** What a stage leaves alone *)

Lemma callAgent_frame (a m : string) (p : page) :
  result (snd (callAgent rt a m p)) = result p
  /\ history (snd (callAgent rt a m p)) = history p
  /\ sent (snd (callAgent rt a m p))
     = (sent p ++ [{| message := m; agent_id := a |}])%list.
Proof.
  unfold callAgent. destruct (fetch_agent rt _ _); simpl; auto.
Qed.

Lemma call_then_frame {A : Type} (a m : string) (f : jsval -> completion A)
  (p : page) :
  let q := snd (bind (callAgent rt a m) (fun x => lift (f x)) p) in
  result q = result p
  /\ history q = history p
  /\ sent q = (sent p ++ [{| message := m; agent_id := a |}])%list.
Proof.
  pose proof (callAgent_frame a m p) as H.
  unfold bind, lift. destruct (callAgent rt a m p) as [[x|t] q]; exact H.
Qed.

Lemma newsStage_frame (p : page) (c : completion jsval) (q : page) :
  newsStage rt p = (c, q) ->
  result q = result p /\ history q = history p
  /\ sent q = (sent p ++ [{| message := NEWS_PROMPT;
                             agent_id := AGENT_IDS.news |}])%list.
Proof.
  intros H.
  pose proof (call_then_frame AGENT_IDS.news NEWS_PROMPT (decode rt) p) as F.
  unfold newsStage in H. rewrite H in F. exact F.
Qed.

Lemma personalityStage_frame (p : page) (c : completion jsval) (q : page) :
  personalityStage rt p = (c, q) ->
  result q = result p /\ history q = history p
  /\ sent q = (sent p ++ [{| message := PERSONALITY_PROMPT;
                             agent_id := AGENT_IDS.personality |}])%list.
Proof.
  intros H.
  pose proof (call_then_frame AGENT_IDS.personality PERSONALITY_PROMPT
                (decode rt) p) as F.
  unfold personalityStage in H. rewrite H in F. exact F.
Qed.

Lemma draftStage_frame (prompt : option string -> option string -> string)
  (n pr : jsval) (p : page) (c : completion jsval) (q : page) :
  draftStage rt prompt n pr p = (c, q) ->
  result q = result p /\ history q = history p.
Proof.
  unfold draftStage. unfold bind at 1. unfold lift at 1.
  destruct (newsContext rt n) as [nc|t].
  2:{ intros H. injection H as _ <-. auto. }
  unfold bind at 1. unfold lift at 1.
  destruct (personalityContext rt pr) as [pc|t].
  2:{ intros H. injection H as _ <-. auto. }
  intros H.
  pose proof (call_then_frame AGENT_IDS.draft (prompt pc nc) (decode rt) p) as F.
  rewrite H in F. simpl in F. destruct F as (F1 & F2 & _). auto.
Qed.

(** The request the draft stage sends once both contexts are built. *)
Lemma draftStage_sends (prompt : option string -> option string -> string)
  (n pr : jsval) (nc pc : option string) (p : page) :
  newsContext rt n = Return nc ->
  personalityContext rt pr = Return pc ->
  sent (snd (draftStage rt prompt n pr p))
  = (sent p ++ [{| message := prompt pc nc;
                   agent_id := AGENT_IDS.draft |}])%list.
Proof.
  intros Hn Hp. unfold draftStage.
  unfold bind at 1. unfold lift at 1. rewrite Hn.
  unfold bind at 1. unfold lift at 1. rewrite Hp.
  apply (call_then_frame AGENT_IDS.draft (prompt pc nc) (decode rt) p).
Qed.

(** ** The runs of [handleGenerateDraft], outcome by outcome *)

Lemma generate_begun (p : page) :
  handleGenerateDraft rt p
  = try_catch (generateBody rt)
      (fun err => setResult (failed "Failed to generate draft" err)) (begun p).
Proof. reflexivity. Qed.

Lemma generate_news_fails (p : page) (t : thrown) (p1 : page) :
  newsStage rt (begun p) = (Throw t, p1) ->
  handleGenerateDraft rt p
  = setResult (failed "Failed to generate draft" t) p1.
Proof.
  intros H. rewrite generate_begun.
  unfold try_catch, generateBody. unfold bind at 1. now rewrite H.
Qed.

Lemma generate_personality_fails (p : page) (n : jsval) (p1 : page)
  (t : thrown) (p2 : page) :
  newsStage rt (begun p) = (Return n, p1) ->
  personalityStage rt p1 = (Throw t, p2) ->
  handleGenerateDraft rt p
  = setResult (failed "Failed to generate draft" t) p2.
Proof.
  intros H1 H2. rewrite generate_begun.
  unfold try_catch, generateBody. unfold bind at 1. rewrite H1.
  unfold bind at 1. now rewrite H2.
Qed.

Lemma generate_draft_fails (p : page) (n : jsval) (p1 : page)
  (pr : jsval) (p2 : page) (t : thrown) (p3 : page) :
  newsStage rt (begun p) = (Return n, p1) ->
  personalityStage rt p1 = (Return pr, p2) ->
  draftStage rt generatePrompt n pr p2 = (Throw t, p3) ->
  handleGenerateDraft rt p
  = setResult (failed "Failed to generate draft" t) p3.
Proof.
  intros H1 H2 H3. rewrite generate_begun.
  unfold try_catch, generateBody. unfold bind at 1. rewrite H1.
  unfold bind at 1. rewrite H2. unfold bind at 1. now rewrite H3.
Qed.

Lemma generate_succeeds (p : page) (n : jsval) (p1 : page)
  (pr : jsval) (p2 : page) (d : jsval) (p3 : page) :
  newsStage rt (begun p) = (Return n, p1) ->
  personalityStage rt p1 = (Return pr, p2) ->
  draftStage rt generatePrompt n pr p2 = (Return d, p3) ->
  handleGenerateDraft rt p
  = setResult (fun _ => {| news := n; personality := pr; draft := d;
                           loading := false; error := None |}) p3.
Proof.
  intros H1 H2 H3. rewrite generate_begun.
  unfold try_catch, generateBody. unfold bind at 1. rewrite H1.
  unfold bind at 1. rewrite H2. unfold bind at 1. now rewrite H3.
Qed.

(** ** The runs of [handleRegenerateDraft] *)

Lemma regenerate_guard (p : page) :
  negb (truthy (news (result p))) || negb (truthy (personality (result p)))
  = true ->
  handleRegenerateDraft rt p = (Return tt, p).
Proof. intros H. unfold handleRegenerateDraft. now rewrite H. Qed.

Lemma regenerate_begun (p : page) :
  negb (truthy (news (result p))) || negb (truthy (personality (result p)))
  = false ->
  handleRegenerateDraft rt p
  = try_catch (regenerateBody rt (result p))
      (fun err => setResult (failed "Failed to regenerate draft" err))
      (begun p).
Proof. intros H. unfold handleRegenerateDraft. now rewrite H. Qed.

Lemma regenerate_fails (p : page) (t : thrown) (p1 : page) :
  negb (truthy (news (result p))) || negb (truthy (personality (result p)))
  = false ->
  draftStage rt regeneratePrompt (news (result p)) (personality (result p))
    (begun p) = (Throw t, p1) ->
  handleRegenerateDraft rt p
  = setResult (failed "Failed to regenerate draft" t) p1.
Proof.
  intros G H. rewrite (regenerate_begun p G).
  unfold try_catch, regenerateBody. unfold bind at 1. now rewrite H.
Qed.

Lemma regenerate_succeeds (p : page) (d : jsval) (p1 : page) :
  negb (truthy (news (result p))) || negb (truthy (personality (result p)))
  = false ->
  draftStage rt regeneratePrompt (news (result p)) (personality (result p))
    (begun p) = (Return d, p1) ->
  handleRegenerateDraft rt p
  = setResult (fun prev =>
      {| news := news prev; personality := personality prev; draft := d;
         loading := false; error := error prev |}) p1.
Proof.
  intros G H. rewrite (regenerate_begun p G).
  unfold try_catch, regenerateBody. unfold bind at 1. now rewrite H.
Qed.

End HandlerFacts.

(** ** The shape of every run *)

(** Whatever the agents answer, [handleGenerateDraft] sets the state twice:
    first to [started], then to a state that is not loading. *)
Lemma generate_shape (rt : runtime) (p : page) :
  loading (result (snd (handleGenerateDraft rt p))) = false
  /\ history (snd (handleGenerateDraft rt p))
     = started (result p) :: result p :: history p.
Proof.
  destruct (newsStage rt (begun p)) as [[n|t] p1] eqn:H1.
  2:{ rewrite (generate_news_fails rt p t p1 H1).
      destruct (newsStage_frame rt _ _ _ H1) as (R & Hh & _).
      simpl. now rewrite R, Hh. }
  destruct (personalityStage rt p1) as [[pr|t] p2] eqn:H2.
  2:{ rewrite (generate_personality_fails rt p n p1 t p2 H1 H2).
      destruct (newsStage_frame rt _ _ _ H1) as (R1 & Hh1 & _).
      destruct (personalityStage_frame rt _ _ _ H2) as (R2 & Hh2 & _).
      simpl. now rewrite R2, Hh2, R1, Hh1. }
  destruct (newsStage_frame rt _ _ _ H1) as (R1 & Hh1 & _).
  destruct (personalityStage_frame rt _ _ _ H2) as (R2 & Hh2 & _).
  destruct (draftStage rt generatePrompt n pr p2) as [[d|t] p3] eqn:H3;
    destruct (draftStage_frame rt _ _ _ _ _ _ H3) as (R3 & Hh3).
  - rewrite (generate_succeeds rt p n p1 pr p2 d p3 H1 H2 H3).
    simpl. now rewrite R3, Hh3, R2, Hh2, R1, Hh1.
  - rewrite (generate_draft_fails rt p n p1 pr p2 t p3 H1 H2 H3).
    simpl. now rewrite R3, Hh3, R2, Hh2, R1, Hh1.
Qed.

(** [handleRegenerateDraft] either leaves the page as it is or does the
    same. *)
Lemma regenerate_shape (rt : runtime) (p : page) :
  snd (handleRegenerateDraft rt p) = p
  \/ (loading (result (snd (handleRegenerateDraft rt p))) = false
      /\ history (snd (handleRegenerateDraft rt p))
         = started (result p) :: result p :: history p).
Proof.
  destruct (negb (truthy (news (result p)))
            || negb (truthy (personality (result p)))) eqn:G.
  - left. now rewrite (regenerate_guard rt p G).
  - right.
    destruct (draftStage rt regeneratePrompt (news (result p))
                (personality (result p)) (begun p)) as [[d|t] p1] eqn:H;
      destruct (draftStage_frame rt _ _ _ _ _ _ H) as (R & Hh).
    + rewrite (regenerate_succeeds rt p d p1 G H).
      simpl. now rewrite R, Hh.
    + rewrite (regenerate_fails rt p t p1 G H).
      simpl. now rewrite R, Hh.
Qed.

(** * The claims *)

(** C1, as amended.  In a run of [handleGenerateDraft] whose news stage
    succeeds and whose personality stage fails, nothing of the run is
    committed: [news], [personality] and [draft] are what they were before
    the run (the news result of this run is dropped), [loading] is false
    and [error] holds the message of the failure. *)
Theorem profile_failure_commits_nothing (rt : runtime) (p : page)
  (n : jsval) (p1 : page) (t : thrown) (p2 : page) :
  newsStage rt (begun p) = (Return n, p1) ->
  personalityStage rt p1 = (Throw t, p2) ->
  result (snd (handleGenerateDraft rt p))
  = {| news := news (result p);
       personality := personality (result p);
       draft := draft (result p);
       loading := false;
       error := Some (errorText "Failed to generate draft" t) |}.
Proof.
  intros H1 H2.
  rewrite (generate_personality_fails rt p n p1 t p2 H1 H2).
  destruct (newsStage_frame rt _ _ _ H1) as (R1 & _).
  destruct (personalityStage_frame rt _ _ _ H2) as (R2 & _).
  simpl. rewrite R2, R1. reflexivity.
Qed.

Lemma profile_failure_commits_nothing_witness :
  result (snd (handleGenerateDraft profileRefused initialPage))
  = {| news := null; personality := null; draft := null;
       loading := false; error := Some "Agent call failed" |}.
Proof.
  exact (profile_failure_commits_nothing profileRefused initialPage
           (J fiveNews)
           (snd (newsStage profileRefused (begun initialPage)))
           (ErrorObject "Agent call failed")
           (snd (personalityStage profileRefused
                   (snd (newsStage profileRefused (begun initialPage)))))
           eq_refl eq_refl).
Defined.

(** C1, as the specification states it, fails: the news agent answers with
    five items, the personality agent answers [success: false], and after
    the run [news] is still [null], not the news result of the run. *)
Lemma profile_failure_drops_news :
  fst (newsStage profileRefused (begun initialPage)) = Return (J fiveNews)
  /\ fst (personalityStage profileRefused
            (snd (newsStage profileRefused (begun initialPage))))
     = Throw (ErrorObject "Agent call failed")
  /\ news (result (snd (handleGenerateDraft profileRefused initialPage)))
     = null
  /\ news (result (snd (handleGenerateDraft profileRefused initialPage)))
     <> J fiveNews.
Proof.
  repeat split; try reflexivity. intros H. vm_compute in H. discriminate H.
Qed.

(** What a returning call and a returning draft stage say about the
    reply. *)
Lemma callAgent_returned (rt : runtime) (agentId text : string) (p : page)
  (x : jsval) (q : page) :
  callAgent rt agentId text p = (Return x, q) ->
  exists data,
    fetch_agent rt (length (sent p))
      {| message := text; agent_id := agentId |} = Data data
    /\ truthy (field "success" data) = true
    /\ x = field "response" data.
Proof.
  unfold callAgent.
  destruct (fetch_agent rt (length (sent p))
              {| message := text; agent_id := agentId |}) as [t|data];
    [discriminate|].
  intros H. exists data. split; [reflexivity|].
  destruct data as [|b|n|s|l|ms]; try discriminate H.
  unfold field. cbn [get_prop and_then] in H.
  destruct (truthy (match lookup "success" ms with
                    | Some v => J v
                    | None => undefined
                    end)); [|discriminate H].
  split; [reflexivity|]. now injection H as <- _.
Qed.

Lemma draftStage_returned (rt : runtime)
  (prompt : option string -> option string -> string) (n pr : jsval)
  (p : page) (d : jsval) (q : page) :
  draftStage rt prompt n pr p = (Return d, q) ->
  exists pc nc data,
    newsContext rt n = Return nc
    /\ personalityContext rt pr = Return pc
    /\ fetch_agent rt (length (sent p)) (draftRequest prompt pc nc) = Data data
    /\ truthy (field "success" data) = true
    /\ decode rt (field "response" data) = Return d.
Proof.
  unfold draftStage. unfold bind at 1. unfold lift at 1.
  destruct (newsContext rt n) as [nc|t] eqn:Hn; [|discriminate].
  unfold bind at 1. unfold lift at 1.
  destruct (personalityContext rt pr) as [pc|t] eqn:Hp; [|discriminate].
  unfold bind.
  destruct (callAgent rt AGENT_IDS.draft (prompt pc nc) p) as [[x|t] q'] eqn:E;
    [|discriminate].
  unfold lift. intros H.
  destruct (callAgent_returned rt _ _ p x q' E) as (data & Hd & Ht & ->).
  exists pc, nc, data. repeat split; try assumption.
  now injection H as -> _.
Qed.

(** C2, as amended.  In a run of [handleGenerateDraft] whose three stages
    succeed, the final state holds the three results of this run, [loading]
    is false and [error] is [null].  The news result is an object with a
    usable [news_summary] and the personality result is neither [null] nor
    [undefined]; the draft is whatever the [response] of the draft reply
    decoded to, and the code checks nothing about it: it is [undefined] or
    [null] when the reply carried no payload. *)
Theorem generate_success_commits_all (rt : runtime) (p : page)
  (n : jsval) (p1 : page) (pr : jsval) (p2 : page) (d : jsval) (p3 : page) :
  newsStage rt (begun p) = (Return n, p1) ->
  personalityStage rt p1 = (Return pr, p2) ->
  draftStage rt generatePrompt n pr p2 = (Return d, p3) ->
  result (snd (handleGenerateDraft rt p))
  = {| news := n; personality := pr; draft := d;
       loading := false; error := None |}
  /\ n <> null /\ n <> undefined /\ pr <> null /\ pr <> undefined
  /\ has_summary n = true
  /\ exists pc nc data,
       fetch_agent rt (length (sent p2)) (draftRequest generatePrompt pc nc)
       = Data data
       /\ truthy (field "success" data) = true
       /\ decode rt (field "response" data) = Return d.
Proof.
  intros H1 H2 H3.
  rewrite (generate_succeeds rt p n p1 pr p2 d p3 H1 H2 H3).
  split; [reflexivity|].
  destruct (draftStage_returned rt _ n pr p2 d p3 H3)
    as (pc & nc & data & Hn & Hp & Hd & Ht & Hr).
  assert (Hs : has_summary n = true).
  { destruct n as [|[|b|k|s|l|ms]]; try discriminate Hn.
    unfold newsContext in Hn. cbn [get_prop and_then] in Hn. simpl.
    destruct (lookup "news_summary" ms) as [[|b|k|s|l|ms']|];
      try discriminate Hn; reflexivity. }
  repeat split; try (intros ->; discriminate); try exact Hs.
  exists pc, nc, data. auto.
Qed.

Lemma generate_success_commits_all_witness :
  result (snd (handleGenerateDraft allAccepted initialPage))
  = {| news := J fiveNews; personality := J sampleProfile;
       draft := J (sampleDraft "hello");
       loading := false; error := None |}.
Proof.
  exact (proj1
    (generate_success_commits_all allAccepted initialPage
       (J fiveNews)
       (snd (newsStage allAccepted (begun initialPage)))
       (J sampleProfile)
       (snd (personalityStage allAccepted
               (snd (newsStage allAccepted (begun initialPage)))))
       (J (sampleDraft "hello"))
       (snd (draftStage allAccepted generatePrompt (J fiveNews)
               (J sampleProfile)
               (snd (personalityStage allAccepted
                       (snd (newsStage allAccepted (begun initialPage)))))))
       eq_refl eq_refl eq_refl)).
Defined.

(** C2, as the specification states it, fails: the three agents answer
    [success: true], the draft agent without a [response]; no stage throws,
    the run ends with [loading] false and no error, and [draft] is
    [undefined], not a draft. *)
Lemma successful_run_may_leave_draft_undefined :
  fst (newsStage draftWithoutPayload (begun initialPage)) = Return (J fiveNews)
  /\ fst (personalityStage draftWithoutPayload
            (snd (newsStage draftWithoutPayload (begun initialPage))))
     = Return (J sampleProfile)
  /\ fst (draftStage draftWithoutPayload generatePrompt (J fiveNews)
            (J sampleProfile)
            (snd (personalityStage draftWithoutPayload
                    (snd (newsStage draftWithoutPayload (begun initialPage))))))
     = Return undefined
  /\ result (snd (handleGenerateDraft draftWithoutPayload initialPage))
     = {| news := J fiveNews; personality := J sampleProfile;
          draft := undefined; loading := false; error := None |}.
Proof. repeat split. Qed.

(** C3, as amended.  When [handleRegenerateDraft] is invoked on a state
    whose [news] or [personality] is [null] (or falsy in any other way), it
    returns at once and normally: nothing is thrown, the state and with it
    [error] are unchanged, and no request is sent. *)
Theorem regenerate_without_context_is_noop (rt : runtime) (p : page) :
  truthy (news (result p)) = false \/ truthy (personality (result p)) = false ->
  handleRegenerateDraft rt p = (Return tt, p).
Proof.
  intros H. apply regenerate_guard.
  destruct H as [-> | ->]; [reflexivity | apply orb_true_r].
Qed.

Lemma regenerate_without_context_is_noop_witness :
  handleRegenerateDraft allAccepted initialPage = (Return tt, initialPage).
Proof.
  exact (regenerate_without_context_is_noop allAccepted initialPage
           (or_introl eq_refl)).
Defined.

(** C3, as the specification states it, fails: on the initial state, which
    has neither news nor personality, [handleRegenerateDraft] does not fail
    with any error; it returns, and no error is recorded in the state. *)
Lemma regenerate_without_context_does_not_fail :
  news (result initialPage) = null
  /\ (forall t, fst (handleRegenerateDraft allAccepted initialPage) <> Throw t)
  /\ error (result (snd (handleRegenerateDraft allAccepted initialPage)))
     = None.
Proof.
  repeat split. intros t H. discriminate H.
Qed.

(** C4.  [handleRegenerateDraft] never changes [news] or [personality], and
    it replaces [draft] only when its draft stage succeeds: when the guard
    returns or the stage fails, [draft] is what it was. *)
Theorem regenerate_touches_only_draft (rt : runtime) (p : page) :
  news (result (snd (handleRegenerateDraft rt p))) = news (result p)
  /\ personality (result (snd (handleRegenerateDraft rt p)))
     = personality (result p)
  /\ draft (result (snd (handleRegenerateDraft rt p)))
     = if negb (truthy (news (result p)))
          || negb (truthy (personality (result p)))
       then draft (result p)
       else
         match fst (draftStage rt regeneratePrompt (news (result p))
                      (personality (result p)) (begun p)) with
         | Return d => d
         | Throw _ => draft (result p)
         end.
Proof.
  destruct (negb (truthy (news (result p)))
            || negb (truthy (personality (result p)))) eqn:G.
  - rewrite (regenerate_guard rt p G). auto.
  - destruct (draftStage rt regeneratePrompt (news (result p))
                (personality (result p)) (begun p)) as [[d|t] p1] eqn:H;
      destruct (draftStage_frame rt _ _ _ _ _ _ H) as (R & _).
    + rewrite (regenerate_succeeds rt p d p1 G H).
      simpl. rewrite R. auto.
    + rewrite (regenerate_fails rt p t p1 G H).
      simpl. rewrite R. auto.
Qed.

(** Every state a handler sets satisfies the invariant, whatever the state
    before it. *)
Lemma not_loading_clears_error (s : WorkflowResult) :
  loading s = false -> loading_clears_error s.
Proof. unfold loading_clears_error. intros -> H. discriminate H. Qed.

Lemma started_clears_error (s : WorkflowResult) :
  loading_clears_error (started s).
Proof. unfold loading_clears_error. reflexivity. Qed.

(** C5.  In every page reachable by any sequence of [handleGenerateDraft]
    and [handleRegenerateDraft] runs, whatever the agents answered, the
    current state and every state the page went through (the intermediate
    ones with [loading] set included) have [error] equal to [null] whenever
    [loading] is true. *)
Theorem loading_implies_no_error (rt : runtime) (p : page) :
  reachable rt p ->
  Forall loading_clears_error (result p :: history p).
Proof.
  induction 1 as [|p Hp IH|p Hp IH].
  - constructor; [now apply not_loading_clears_error | constructor].
  - destruct (generate_shape rt p) as (L & Hh).
    rewrite Hh. constructor; [now apply not_loading_clears_error|].
    constructor; [apply started_clears_error | exact IH].
  - destruct (regenerate_shape rt p) as [-> | (L & Hh)]; [exact IH|].
    rewrite Hh. constructor; [now apply not_loading_clears_error|].
    constructor; [apply started_clears_error | exact IH].
Qed.

Lemma loading_implies_no_error_witness :
  Forall loading_clears_error
    (result (snd (handleRegenerateDraft profileRefused
                    (snd (handleGenerateDraft profileRefused initialPage))))
     :: history (snd (handleRegenerateDraft profileRefused
                    (snd (handleGenerateDraft profileRefused initialPage))))).
Proof.
  exact (loading_implies_no_error profileRefused _
           (reach_regenerate profileRefused _
              (reach_generate profileRefused _
                 (reach_initial profileRefused)))).
Defined.

(** C6.  In a run of [handleGenerateDraft] whose news stage fails, [news],
    [personality] and [draft] are what they were before the run. *)
Theorem news_failure_commits_nothing (rt : runtime) (p : page)
  (t : thrown) (p1 : page) :
  newsStage rt (begun p) = (Throw t, p1) ->
  news (result (snd (handleGenerateDraft rt p))) = news (result p)
  /\ personality (result (snd (handleGenerateDraft rt p)))
     = personality (result p)
  /\ draft (result (snd (handleGenerateDraft rt p))) = draft (result p).
Proof.
  intros H1.
  rewrite (generate_news_fails rt p t p1 H1).
  destruct (newsStage_frame rt _ _ _ H1) as (R1 & _).
  simpl. rewrite R1. auto.
Qed.

Lemma news_failure_commits_nothing_witness :
  news (result (snd (handleGenerateDraft newsRefusedLater
                       (snd (handleGenerateDraft newsRefusedLater initialPage)))))
  = J fiveNews
  /\ personality (result (snd (handleGenerateDraft newsRefusedLater
                       (snd (handleGenerateDraft newsRefusedLater initialPage)))))
     = J sampleProfile
  /\ draft (result (snd (handleGenerateDraft newsRefusedLater
                       (snd (handleGenerateDraft newsRefusedLater initialPage)))))
     = J (sampleDraft "hello").
Proof.
  exact (news_failure_commits_nothing newsRefusedLater
           (snd (handleGenerateDraft newsRefusedLater initialPage))
           (ErrorObject "Agent call failed")
           (snd (newsStage newsRefusedLater
                   (begun (snd (handleGenerateDraft newsRefusedLater
                                  initialPage)))))
           eq_refl).
Defined.

(** ** The context of the draft stage *)

Lemma newsContext_of_array (rt : runtime) (n : jsval) (items : list json) :
  get_prop rt n "news_summary" = Return (J (JArr items)) ->
  newsContext rt n
  = Return (Some (JSON_stringify (JArr (firstn 3 items)))).
Proof. intros H. unfold newsContext. now rewrite H. Qed.

Lemma generate_draft_request (rt : runtime) (p : page) (n : jsval)
  (p1 : page) (pr : jsval) (p2 : page) (nc pc : option string) :
  newsStage rt (begun p) = (Return n, p1) ->
  personalityStage rt p1 = (Return pr, p2) ->
  newsContext rt n = Return nc ->
  personalityContext rt pr = Return pc ->
  sent (snd (handleGenerateDraft rt p))
  = (sent p2 ++ [{| message := generatePrompt pc nc;
                    agent_id := AGENT_IDS.draft |}])%list.
Proof.
  intros H1 H2 Hn Hp.
  pose proof (draftStage_sends rt generatePrompt n pr nc pc p2 Hn Hp) as S.
  destruct (draftStage rt generatePrompt n pr p2) as [[d|t] p3] eqn:H3.
  - now rewrite (generate_succeeds rt p n p1 pr p2 d p3 H1 H2 H3).
  - now rewrite (generate_draft_fails rt p n p1 pr p2 t p3 H1 H2 H3).
Qed.

Lemma regenerate_draft_request (rt : runtime) (p : page)
  (nc pc : option string) :
  truthy (news (result p)) = true ->
  truthy (personality (result p)) = true ->
  newsContext rt (news (result p)) = Return nc ->
  personalityContext rt (personality (result p)) = Return pc ->
  sent (snd (handleRegenerateDraft rt p))
  = (sent p ++ [{| message := regeneratePrompt pc nc;
                   agent_id := AGENT_IDS.draft |}])%list.
Proof.
  intros Tn Tp Hn Hp.
  assert (G : negb (truthy (news (result p)))
              || negb (truthy (personality (result p))) = false)
    by now rewrite Tn, Tp.
  pose proof (draftStage_sends rt regeneratePrompt _ _ nc pc (begun p) Hn Hp)
    as S.
  destruct (draftStage rt regeneratePrompt (news (result p))
              (personality (result p)) (begun p)) as [[d|t] p1] eqn:H.
  - now rewrite (regenerate_succeeds rt p d p1 G H).
  - now rewrite (regenerate_fails rt p t p1 G H).
Qed.

Lemma truthy_of_news (rt : runtime) (n : jsval) (items : list json) :
  get_prop rt n "news_summary" = Return (J (JArr items)) -> truthy n = true.
Proof.
  destruct n as [|[| | | | |ms]]; simpl; intros H;
    try discriminate H; reflexivity.
Qed.

(** C7.  When the news result holds at least three items, the news context
    of the draft stage is the JSON text of the first three, in the order
    they have in the list, whatever their scores; the draft request of
    [handleGenerateDraft] and the one of [handleRegenerateDraft] both carry
    that context. *)
Theorem draft_context_is_first_three (rt : runtime) (n : jsval)
  (a b c : json) (rest : list json) :
  get_prop rt n "news_summary" = Return (J (JArr (a :: b :: c :: rest))) ->
  newsContext rt n = Return (Some (JSON_stringify (JArr [a; b; c])))
  /\ (forall p p1 pr p2 pc,
        newsStage rt (begun p) = (Return n, p1) ->
        personalityStage rt p1 = (Return pr, p2) ->
        personalityContext rt pr = Return pc ->
        sent (snd (handleGenerateDraft rt p))
        = (sent p2
           ++ [{| message :=
                    generatePrompt pc (Some (JSON_stringify (JArr [a; b; c])));
                  agent_id := AGENT_IDS.draft |}])%list)
  /\ (forall p pc,
        news (result p) = n ->
        truthy (personality (result p)) = true ->
        personalityContext rt (personality (result p)) = Return pc ->
        sent (snd (handleRegenerateDraft rt p))
        = (sent p
           ++ [{| message :=
                    regeneratePrompt pc (Some (JSON_stringify (JArr [a; b; c])));
                  agent_id := AGENT_IDS.draft |}])%list).
Proof.
  intros H.
  pose proof (newsContext_of_array rt n _ H) as Hn. simpl firstn in Hn.
  split; [exact Hn|]. split.
  - intros p p1 pr p2 pc H1 H2 Hp.
    exact (generate_draft_request rt p n p1 pr p2 _ pc H1 H2 Hn Hp).
  - intros p pc <- Tp Hp.
    apply regenerate_draft_request; try assumption.
    exact (truthy_of_news rt _ _ H).
Qed.

Lemma draft_context_is_first_three_witness :
  newsContext allAccepted (J fiveNews)
  = Return (Some (JSON_stringify
                    (JArr (map json_of_NewsItem [item1; item2; item3]))))
  /\ nth_error (sent (snd (handleGenerateDraft allAccepted initialPage))) 2
     = Some {| message :=
                 generatePrompt
                   (stringify_js (field "personality_profile" sampleProfile))
                   (Some (JSON_stringify
                            (JArr (map json_of_NewsItem [item1; item2; item3]))));
               agent_id := AGENT_IDS.draft |}
  /\ nth_error
       (sent (snd (handleRegenerateDraft allAccepted
                     (snd (handleGenerateDraft allAccepted initialPage))))) 3
     = Some {| message :=
                 regeneratePrompt
                   (stringify_js (field "personality_profile" sampleProfile))
                   (Some (JSON_stringify
                            (JArr (map json_of_NewsItem [item1; item2; item3]))));
               agent_id := AGENT_IDS.draft |}.
Proof.
  pose proof (draft_context_is_first_three allAccepted (J fiveNews)
                (json_of_NewsItem item1) (json_of_NewsItem item2)
                (json_of_NewsItem item3)
                [json_of_NewsItem item4; json_of_NewsItem item5] eq_refl)
    as (H1 & H2 & H3).
  split; [exact H1|]. split.
  - rewrite (H2 initialPage
               (snd (newsStage allAccepted (begun initialPage)))
               (J sampleProfile)
               (snd (personalityStage allAccepted
                       (snd (newsStage allAccepted (begun initialPage)))))
               (stringify_js (field "personality_profile" sampleProfile))
               eq_refl eq_refl eq_refl).
    reflexivity.
  - rewrite (H3 (snd (handleGenerateDraft allAccepted initialPage))
               (stringify_js (field "personality_profile" sampleProfile))
               eq_refl eq_refl eq_refl).
    reflexivity.
Defined.

(** C10.  When the news result holds fewer than three items, none
    included, building the news context does not fail: [slice(0, 3)]
    returns the whole list, the context is the JSON text of all the items
    in their order, and both handlers send their draft request with it. *)
Theorem draft_context_of_short_list (rt : runtime) (n : jsval)
  (items : list json) :
  get_prop rt n "news_summary" = Return (J (JArr items)) ->
  length items < 3 ->
  slice_0_3 rt (J (JArr items)) = Return (J (JArr items))
  /\ newsContext rt n = Return (Some (JSON_stringify (JArr items)))
  /\ (forall p p1 pr p2 pc,
        newsStage rt (begun p) = (Return n, p1) ->
        personalityStage rt p1 = (Return pr, p2) ->
        personalityContext rt pr = Return pc ->
        sent (snd (handleGenerateDraft rt p))
        = (sent p2
           ++ [{| message :=
                    generatePrompt pc (Some (JSON_stringify (JArr items)));
                  agent_id := AGENT_IDS.draft |}])%list)
  /\ (forall p pc,
        news (result p) = n ->
        truthy (personality (result p)) = true ->
        personalityContext rt (personality (result p)) = Return pc ->
        sent (snd (handleRegenerateDraft rt p))
        = (sent p
           ++ [{| message :=
                    regeneratePrompt pc (Some (JSON_stringify (JArr items)));
                  agent_id := AGENT_IDS.draft |}])%list).
Proof.
  intros H L.
  assert (F : firstn 3 items = items) by (apply firstn_all2; lia).
  pose proof (newsContext_of_array rt n _ H) as Hn. rewrite F in Hn.
  split; [unfold slice_0_3; now rewrite F|]. split; [exact Hn|]. split.
  - intros p p1 pr p2 pc H1 H2 Hp.
    exact (generate_draft_request rt p n p1 pr p2 _ pc H1 H2 Hn Hp).
  - intros p pc <- Tp Hp.
    apply regenerate_draft_request; try assumption.
    exact (truthy_of_news rt _ _ H).
Qed.

Lemma draft_context_of_short_list_witness :
  newsContext fewItems (J twoNews)
  = Return (Some (JSON_stringify (JArr (map json_of_NewsItem [item1; item2]))))
  /\ nth_error (sent (snd (handleGenerateDraft fewItems initialPage))) 2
     = Some {| message :=
                 generatePrompt
                   (stringify_js (field "personality_profile" sampleProfile))
                   (Some (JSON_stringify
                            (JArr (map json_of_NewsItem [item1; item2]))));
               agent_id := AGENT_IDS.draft |}.
Proof.
  pose proof (draft_context_of_short_list fewItems (J twoNews)
                (map json_of_NewsItem [item1; item2]) eq_refl
                ltac:(simpl; lia))
    as (_ & H1 & H2 & _).
  split; [exact H1|].
  rewrite (H2 initialPage
             (snd (newsStage fewItems (begun initialPage)))
             (J sampleProfile)
             (snd (personalityStage fewItems
                     (snd (newsStage fewItems (begun initialPage)))))
             (stringify_js (field "personality_profile" sampleProfile))
             eq_refl eq_refl eq_refl).
  reflexivity.
Defined.

(** An empty list is a short list: the context is [[]]. *)
Example draft_context_of_no_items (rt : runtime) :
  newsContext rt (J (JObj [("news_summary", JArr [])])) = Return (Some "[]").
Proof. reflexivity. Qed.

(** ** Decoding a payload *)

Lemma decode_structured (rt : runtime) (v : json) :
  typeof_string (J v) = false -> decode rt (J v) = Return (J v).
Proof. destruct v; intros Hs; try reflexivity. discriminate Hs. Qed.

Lemma decode_serialized (rt : runtime) (v : json) :
  wf_json v = true ->
  decode rt (J (JStr (JSON_stringify v))) = Return (J (after_stringify v)).
Proof. intros Hwf. unfold decode. now rewrite (JSON_parse_stringify v Hwf). Qed.

Lemma reread_plain (s : bool) (m e : Z) :
  is_double (Finite s m e) = true ->
  (JNum (reread (Finite s m e)) = JNum (Finite s m e)
   <-> plain (JNum (Finite s m e)) = true).
Proof.
  simpl; intros V.
  - destruct (m =? 0)%Z eqn:M.
    + apply Z.eqb_eq in M. subst m.
      repeat (apply andb_prop in V; destruct V as [V ?]).
      assert (E : e = emin).
      { match goal with
        | H : (_ || _) = true |- _ => apply orb_prop in H; destruct H as [N|N]
        end; [discriminate N | now apply Z.eqb_eq in N]. }
      subst e. destruct s; simpl; split; try discriminate; reflexivity.
    + rewrite andb_false_r. simpl. split; reflexivity.
Qed.

(** The values that [JSON.stringify] and [JSON.parse] give back as they
    were are those without a negative zero and without a number that is not
    finite. *)
Lemma after_stringify_plain (v : json) :
  wf_json v = true -> (after_stringify v = v <-> plain v = true).
Proof.
  induction v as [|b|n|s|l IH|l IH] using json_nested_ind; intros Hwf.
  - split; reflexivity.
  - split; reflexivity.
  - simpl in Hwf. destruct n as [|s|s m e].
    + split; discriminate.
    + split; discriminate.
    + exact (reread_plain s m e Hwf).
  - split; reflexivity.
  - simpl in Hwf. cbn [after_stringify plain].
    assert (H : map after_stringify l = l <-> forallb plain l = true).
    { induction IH as [|x r Hx _ IHr]; [split; reflexivity|].
      simpl in Hwf. apply andb_true_iff in Hwf. destruct Hwf as [Hwx Hwr].
      specialize (Hx Hwx). specialize (IHr Hwr). simpl. split.
      - intros E. injection E as E1 E2. apply andb_true_iff. split.
        + now apply Hx.
        + now apply IHr.
      - intros E. apply andb_true_iff in E. destruct E as [E1 E2].
        f_equal; [now apply Hx | now apply IHr]. }
    split.
    + intros E. injection E as E. now apply H.
    + intros E. f_equal. now apply H.
  - simpl in Hwf. apply andb_true_iff in Hwf. destruct Hwf as [_ Hwf].
    cbn [after_stringify plain].
    assert (H : map (fun kv => (fst kv, after_stringify (snd kv))) l = l
                <-> forallb (fun kv => plain (snd kv)) l = true).
    { induction IH as [|[k x] r Hx _ IHr]; [split; reflexivity|].
      simpl in Hwf. apply andb_true_iff in Hwf. destruct Hwf as [Hwx Hwr].
      simpl in Hx. specialize (Hx Hwx). specialize (IHr Hwr). simpl. split.
      - intros E. injection E as E1 E2. apply andb_true_iff. split.
        + now apply Hx.
        + now apply IHr.
      - intros E. apply andb_true_iff in E. destruct E as [E1 E2].
        f_equal; [f_equal; now apply Hx | now apply IHr]. }
    split.
    + intros E. injection E as E. now apply H.
    + intros E. f_equal. now apply H.
Qed.

(** C8, as amended.  A stage payload is the [response] member of the body
    that [response.json()] has read.  A payload that is not itself a string
    is returned as it is when the reply carries it as a structured value,
    and is read back from the text [JSON.stringify] gives for it with every
    negative zero turned into [0] and every number that is not finite turned
    into [null].  The two results are the same value exactly when the
    payload holds no negative zero and no number that is not finite. *)
Theorem decode_agrees_on_both_representations (rt : runtime)
  (body : string) (data v : json) :
  JSON_parse body = Some data ->
  field "response" data = J v ->
  typeof_string (J v) = false ->
  decode rt (J v) = Return (J v)
  /\ decode rt (J (JStr (JSON_stringify v))) = Return (J (after_stringify v))
  /\ (after_stringify v = v <-> plain v = true).
Proof.
  intros Hb Hf Hs.
  assert (Hwf : wf_json v = true).
  { pose proof (payload_wf body data "response" Hb) as W.
    now rewrite Hf in W. }
  split; [|split].
  - now apply decode_structured.
  - now apply decode_serialized.
  - now apply after_stringify_plain.
Qed.

Lemma decode_agrees_on_both_representations_witness :
  decode allAccepted (J fiveNews) = Return (J fiveNews)
  /\ decode allAccepted (J (JStr (JSON_stringify fiveNews)))
     = Return (J (after_stringify fiveNews))
  /\ (after_stringify fiveNews = fiveNews <-> plain fiveNews = true).
Proof.
  exact (decode_agrees_on_both_representations allAccepted
           (acceptedBody fiveNews)
           (JObj [ ("success", JBool true); ("response", fiveNews) ])
           fiveNews eq_refl eq_refl eq_refl).
Defined.

(** C8, as the specification states it, fails.  The payload of the body
    [negativeZeroBody] is an object whose [confidence] is the negative
    zero.  Carried as a structured value the object decodes to itself;
    carried as its JSON text, in which the number is printed as [0], it
    decodes to an object whose [confidence] is the positive zero. *)
Lemma negative_zero_is_not_read_back :
  JSON_parse negativeZeroBody
  = Some (JObj [ ("success", JBool true);
                 ("response", negativeZeroPayload) ])
  /\ typeof_string (J negativeZeroPayload) = false
  /\ decode allAccepted (J negativeZeroPayload) = Return (J negativeZeroPayload)
  /\ JSON_stringify negativeZeroPayload = "{" ++ quote "confidence" ++ ":0}"
  /\ decode allAccepted (J (JStr (JSON_stringify negativeZeroPayload)))
     = Return (J (JObj [ ("confidence", JNum (Finite false 0 emin)) ]))
  /\ JObj [ ("confidence", JNum (Finite false 0 emin)) ]
     <> negativeZeroPayload.
Proof.
  repeat split; try reflexivity. discriminate.
Qed.

Lemma relevance_scores_of_news (r : NewsResponse) :
  relevance_scores (J (json_of_NewsResponse r))
  = map (fun i => J (JNum (relevance_score i))) (news_summary r).
Proof.
  change (relevance_scores (J (json_of_NewsResponse r)))
    with (map (field "relevance_score")
            (map json_of_NewsItem (news_summary r))).
  rewrite map_map. apply map_ext. reflexivity.
Qed.



(** The scores written [1.5] and [15E-1] are both decoded as the number
    1.5, which is above the range. *)
Example score_above_one_is_kept :
  relevance_scores (J (value (newsTree [onePointFive; fifteenTenths])))
  = [ J (JNum (dec false [D1] [D5])); J (JNum (dec false [D1] [D5])) ]
  /\ (number_value (dec false [D1] [D5]) == 3 # 2)%Q.
Proof. split; reflexivity. Qed.

(** * Further properties *)

(** ** [JSON.parse] reads indented text *)

(** *** The round trip through indented text *)

Lemma indent_array (indent : string) (x : json) (r : list json) :
  JSON_stringify_indent indent (JArr (x :: r))
  = String "[" (line (indent ++ gap)
                ++ JSON_stringify_indent (indent ++ gap) x
                ++ more_items_indent indent r).
Proof. reflexivity. Qed.

Lemma indent_object (indent k : string) (x : json)
  (r : list (string * json)) :
  JSON_stringify_indent indent (JObj ((k, x) :: r))
  = String "{" (line (indent ++ gap) ++ quote k ++ ":"
                ++ String " " (JSON_stringify_indent (indent ++ gap) x
                               ++ more_members_indent indent r)).
Proof. reflexivity. Qed.

Lemma more_items_indent_cons (indent : string) (y : json) (r : list json) :
  more_items_indent indent (y :: r)
  = String "," (line (indent ++ gap)
                ++ JSON_stringify_indent (indent ++ gap) y
                ++ more_items_indent indent r).
Proof. reflexivity. Qed.

Lemma more_members_indent_cons (indent k : string) (y : json)
  (r : list (string * json)) :
  more_members_indent indent ((k, y) :: r)
  = String "," (line (indent ++ gap) ++ quote k ++ ":"
                ++ String " " (JSON_stringify_indent (indent ++ gap) y
                               ++ more_members_indent indent r)).
Proof. reflexivity. Qed.

Lemma indent_head (indent : string) (v : json) :
  wf_json v = true ->
  exists c r,
    JSON_stringify_indent indent v = String c r /\ starts_value c = true.
Proof.
  intros H.
  destruct v as [|b|n|s|[|x l]|[|[k x] l]];
    try (eexists _, _; split; reflexivity);
    exact (stringify_head _ H).
Qed.

Lemma skip_ws_indent (w indent : string) (v : json) (tail : string) :
  all_ws w = true ->
  wf_json v = true ->
  exists c r,
    skip_ws (w ++ JSON_stringify_indent indent v ++ tail) = String c r
    /\ Char16.eqb c "]" = false /\ Char16.eqb c "}" = false.
Proof.
  intros Hw H. rewrite (skip_ws_all_ws w _ Hw).
  destruct (indent_head indent v H) as (c & r & -> & Hc).
  destruct (starts_value_facts c Hc) as (Hs & Hb & Hbr & _).
  exists c, (r ++ tail). simpl. rewrite Hs. auto.
Qed.

Lemma follows_more_items_indent (indent : string) (r : list json)
  (rest : string) :
  follows_value (more_items_indent indent r ++ rest) = true.
Proof. destruct r; reflexivity. Qed.

Lemma follows_more_members_indent (indent : string)
  (r : list (string * json)) (rest : string) :
  follows_value (more_members_indent indent r ++ rest) = true.
Proof. destruct r as [|[k y] r]; reflexivity. Qed.

Lemma parse_indent_items (r : list json) :
  Forall (fun v => wf_json v = true ->
            forall indent fuel rest,
              all_ws indent = true -> size v <= fuel ->
              follows_value rest = true ->
              parse_value fuel (JSON_stringify_indent indent v ++ rest)
              = Some (after_stringify v, rest)) r ->
  forallb wf_json r = true ->
  forall indent fuel rest,
    all_ws indent = true ->
    S (list_sum (map (fun x => S (size x)) r)) <= fuel ->
    parse_items fuel (more_items_indent indent r ++ rest)
    = Some (map after_stringify r, rest).
Proof.
  induction 1 as [|y r Hy _ IH]; intros Hwf indent fuel rest Hi Hfuel;
    (destruct fuel as [|fuel]; [lia|]).
  - change (more_items_indent indent [] ++ rest)
      with ((line indent ++ "]") ++ rest).
    rewrite append_assoc.
    rewrite (parse_items_all_ws _ _ _ (all_ws_line _ Hi)). reflexivity.
  - simpl in Hwf. apply andb_true_iff in Hwf. destruct Hwf as [Hwy Hwr].
    simpl in Hfuel.
    rewrite more_items_indent_cons.
    change (String "," ?a ++ rest) with (String "," (a ++ rest)).
    rewrite parse_items_comma, !append_assoc.
    rewrite (parse_value_all_ws fuel _ _ (all_ws_line _ (all_ws_deeper _ Hi))).
    rewrite (Hy Hwy _ fuel _ (all_ws_deeper _ Hi) ltac:(lia)
               (follows_more_items_indent indent r rest)).
    rewrite (IH Hwr indent fuel rest Hi ltac:(lia)). reflexivity.
Qed.

Lemma parse_indent_members (r : list (string * json)) :
  Forall (fun kv => wf_json (snd kv) = true ->
            forall indent fuel rest,
              all_ws indent = true -> size (snd kv) <= fuel ->
              follows_value rest = true ->
              parse_value fuel (JSON_stringify_indent indent (snd kv) ++ rest)
              = Some (after_stringify (snd kv), rest)) r ->
  forallb (fun kv => wf_json (snd kv)) r = true ->
  forall indent fuel rest,
    all_ws indent = true ->
    S (list_sum (map (fun kv => S (size (snd kv))) r)) <= fuel ->
    parse_members fuel (more_members_indent indent r ++ rest)
    = Some (map (fun kv => (fst kv, after_stringify (snd kv))) r, rest).
Proof.
  induction 1 as [|[k y] r Hy _ IH]; intros Hwf indent fuel rest Hi Hfuel;
    (destruct fuel as [|fuel]; [lia|]).
  - change (more_members_indent indent [] ++ rest)
      with ((line indent ++ "}") ++ rest).
    rewrite append_assoc.
    rewrite (parse_members_all_ws _ _ _ (all_ws_line _ Hi)). reflexivity.
  - simpl in Hwf. apply andb_true_iff in Hwf. destruct Hwf as [Hwy Hwr].
    simpl in Hfuel, Hy.
    rewrite more_members_indent_cons.
    change (String "," ?a ++ rest) with (String "," (a ++ rest)).
    rewrite parse_members_comma, !append_assoc.
    rewrite (parse_key_all_ws _ _ (all_ws_line _ (all_ws_deeper _ Hi))).
    rewrite parse_key_print.
    change (String " " ?a ++ rest) with (String " " (a ++ rest)).
    rewrite (parse_value_ws fuel " " _ eq_refl), append_assoc.
    rewrite (Hy Hwy _ fuel _ (all_ws_deeper _ Hi) ltac:(lia)
               (follows_more_members_indent indent r rest)).
    rewrite (IH Hwr indent fuel rest Hi ltac:(lia)). reflexivity.
Qed.

Lemma parse_indent_value (v : json) :
  wf_json v = true ->
  forall indent fuel rest,
    all_ws indent = true ->
    size v <= fuel ->
    follows_value rest = true ->
    parse_value fuel (JSON_stringify_indent indent v ++ rest)
    = Some (after_stringify v, rest).
Proof.
  induction v as [|b|n|s|l IH|l IH] using json_nested_ind;
    intros Hwf indent fuel rest Hi Hfuel Hrest;
    (destruct fuel as [|fuel]; [simpl in Hfuel; lia|]).
  - reflexivity.
  - destruct b; reflexivity.
  - apply parse_value_number; [exact Hwf|].
    now apply follows_value_number_ends.
  - apply parse_value_string.
  - destruct l as [|x r]; [reflexivity|].
    simpl in Hwf. apply andb_true_iff in Hwf. destruct Hwf as [Hwx Hwr].
    inversion IH as [|? ? Hx Hr]; subst.
    simpl in Hfuel.
    rewrite indent_array.
    change (String "[" ?a ++ rest) with (String "[" (a ++ rest)).
    rewrite !append_assoc.
    destruct (skip_ws_indent (line (indent ++ gap)) (indent ++ gap) x
                (more_items_indent indent r ++ rest)
                (all_ws_line _ (all_ws_deeper _ Hi)) Hwx)
      as (c & t & Hs & Hc & _).
    rewrite (parse_value_array fuel _ c t Hs Hc).
    rewrite (parse_value_all_ws fuel _ _ (all_ws_line _ (all_ws_deeper _ Hi))).
    rewrite (Hx Hwx _ fuel _ (all_ws_deeper _ Hi) ltac:(lia)
               (follows_more_items_indent indent r rest)).
    rewrite (parse_indent_items r Hr Hwr indent fuel rest Hi ltac:(lia)).
    reflexivity.
  - destruct l as [|[k x] r]; [reflexivity|].
    simpl in Hwf. apply andb_true_iff in Hwf. destruct Hwf as [Hd Hwf].
    apply andb_true_iff in Hd. destruct Hd as [Hd Ho].
    apply andb_true_iff in Hwf. destruct Hwf as [Hwx Hwr].
    inversion IH as [|? ? Hx Hr]; subst. simpl in Hx.
    simpl in Hfuel.
    rewrite indent_object.
    change (String "{" ?a ++ rest) with (String "{" (a ++ rest)).
    rewrite !append_assoc.
    assert (Hs : skip_ws (line (indent ++ gap) ++ quote k ++ ":"
                            ++ String " "
                                 (JSON_stringify_indent (indent ++ gap) x
                                  ++ more_members_indent indent r) ++ rest)
                 = String dquote (escape_string k ++ String dquote
                     (":" ++ String " "
                               (JSON_stringify_indent (indent ++ gap) x
                                ++ more_members_indent indent r) ++ rest))).
    { rewrite (skip_ws_all_ws _ _ (all_ws_line _ (all_ws_deeper _ Hi))).
      rewrite quote_unfold. reflexivity. }
    rewrite (parse_value_object fuel _ _ _ Hs eq_refl).
    rewrite (parse_key_all_ws _ _ (all_ws_line _ (all_ws_deeper _ Hi))).
    rewrite parse_key_print.
    change (String " " ?a ++ rest) with (String " " (a ++ rest)).
    rewrite (parse_value_ws fuel " " _ eq_refl), append_assoc.
    rewrite (Hx Hwx _ fuel _ (all_ws_deeper _ Hi) ltac:(lia)
               (follows_more_members_indent indent r rest)).
    rewrite (parse_indent_members r Hr Hwr indent fuel rest Hi ltac:(lia)).
    rewrite (fold_obj_set_ordered
               ((k, after_stringify x)
                :: map (fun kv => (fst kv, after_stringify (snd kv))) r) []);
      [reflexivity| |].
    + cbn [app map fst]. rewrite after_stringify_keys. exact Hd.
    + cbn [app map fst]. rewrite after_stringify_keys. exact Ho.
Qed.

Lemma more_items_indent_length (indent : string) (r : list json) :
  Forall (fun v => wf_json v = true -> forall indent,
            size v <= String.length (JSON_stringify_indent indent v)) r ->
  forallb wf_json r = true ->
  S (list_sum (map (fun x => S (size x)) r))
  <= String.length (more_items_indent indent r).
Proof.
  induction 1 as [|y r Hy _ IH]; intros Hwf.
  - simpl. lia.
  - simpl in Hwf. apply andb_true_iff in Hwf. destruct Hwf as [Hwy Hwr].
    rewrite more_items_indent_cons.
    change (list_sum (map (fun x => S (size x)) (y :: r)))
      with (S (size y) + list_sum (map (fun x => S (size x)) r)).
    change (String.length (String "," ?a)) with (S (String.length a)).
    rewrite !length_append.
    specialize (Hy Hwy (indent ++ gap)). specialize (IH Hwr). lia.
Qed.

Lemma more_members_indent_length (indent : string)
  (r : list (string * json)) :
  Forall (fun kv => wf_json (snd kv) = true -> forall indent,
            size (snd kv)
            <= String.length (JSON_stringify_indent indent (snd kv))) r ->
  forallb (fun kv => wf_json (snd kv)) r = true ->
  S (list_sum (map (fun kv => S (size (snd kv))) r))
  <= String.length (more_members_indent indent r).
Proof.
  induction 1 as [|[k y] r Hy _ IH]; intros Hwf.
  - simpl. lia.
  - simpl in Hwf, Hy. apply andb_true_iff in Hwf. destruct Hwf as [Hwy Hwr].
    rewrite more_members_indent_cons.
    change (list_sum (map (fun kv => S (size (snd kv))) ((k, y) :: r)))
      with (S (size y) + list_sum (map (fun kv => S (size (snd kv))) r)).
    change (String.length (String "," ?a)) with (S (String.length a)).
    rewrite !length_append.
    change (String.length (String " " ?a)) with (S (String.length a)).
    rewrite !length_append.
    specialize (Hy Hwy (indent ++ gap)). specialize (IH Hwr). lia.
Qed.

Lemma size_le_indent_length (v : json) :
  wf_json v = true ->
  forall indent, size v <= String.length (JSON_stringify_indent indent v).
Proof.
  induction v as [|b|n|s|l IH|l IH] using json_nested_ind;
    intros Hwf indent.
  - simpl. lia.
  - destruct b; simpl; lia.
  - destruct (indent_head indent (JNum n) Hwf) as (c & r & -> & _).
    simpl. lia.
  - simpl. lia.
  - destruct l as [|x r]; [simpl; lia|].
    simpl in Hwf. apply andb_true_iff in Hwf. destruct Hwf as [Hwx Hwr].
    inversion IH as [|? ? Hx Hr]; subst.
    rewrite indent_array.
    change (size (JArr (x :: r)))
      with (S (S (size x) + list_sum (map (fun x => S (size x)) r))).
    change (String.length (String "[" ?a)) with (S (String.length a)).
    rewrite !length_append.
    pose proof (more_items_indent_length indent r Hr Hwr).
    specialize (Hx Hwx (indent ++ gap)). lia.
  - destruct l as [|[k x] r]; [simpl; lia|].
    simpl in Hwf. apply andb_true_iff in Hwf. destruct Hwf as [Hd Hwf].
    apply andb_true_iff in Hwf. destruct Hwf as [Hwx Hwr].
    inversion IH as [|? ? Hx Hr]; subst. simpl in Hx.
    rewrite indent_object.
    change (size (JObj ((k, x) :: r)))
      with (S (S (size x)
               + list_sum (map (fun kv => S (size (snd kv))) r))).
    change (String.length (String "{" ?a)) with (S (String.length a)).
    rewrite !length_append.
    change (String.length (String " " ?a)) with (S (String.length a)).
    rewrite !length_append.
    pose proof (more_members_indent_length indent r Hr Hwr).
    specialize (Hx Hwx (indent ++ gap)). lia.
Qed.

(** The text [JSON.stringify(v, null, 2)] writes is read back as [v], but
    for the sign of zero and the numbers that are not finite. *)
Lemma JSON_parse_stringify_indent (v : json) :
  wf_json v = true ->
  JSON_parse (JSON_stringify_indent EmptyString v) = Some (after_stringify v).
Proof.
  intros Hwf. unfold JSON_parse.
  rewrite <- (append_empty_r (JSON_stringify_indent EmptyString v)) at 2.
  rewrite (parse_indent_value v Hwf EmptyString _ EmptyString eq_refl);
    [reflexivity| |reflexivity].
  pose proof (size_le_indent_length v Hwf EmptyString). lia.
Qed.

(** ** [callAgent] *)

Lemma get_prop_field (rt : runtime) (v : json) (key : string) :
  v <> JNull -> get_prop rt (J v) key = Return (field key v).
Proof. destruct v; intros H; try reflexivity. contradiction. Qed.

(** X1.  [callAgent] returns a value exactly when the endpoint answered
    with a body whose [success] is truthy, and the value is then the
    [response] of that body ([undefined] when the body has none); a
    rejection, a [null] body, a body that is not an object and a missing or
    falsy [success] all make it throw. *)
Theorem callAgent_returns_iff (rt : runtime) (agentId text : string)
  (p : page) (x : jsval) :
  fst (callAgent rt agentId text p) = Return x
  <-> exists data,
        fetch_agent rt (length (sent p))
          {| message := text; agent_id := agentId |} = Data data
        /\ truthy (field "success" data) = true
        /\ x = field "response" data.
Proof.
  unfold callAgent.
  destruct (fetch_agent rt (length (sent p))
              {| message := text; agent_id := agentId |}) as [t|data].
  - split; [discriminate|]. intros (d & H & _). discriminate H.
  - cbn [fst]. split.
    + intros H. exists data. split; [reflexivity|].
      destruct data as [|b|n|s|l|ms]; try discriminate H;
        cbn [get_prop and_then] in H;
        change (truthy undefined) with false in H;
        try discriminate H.
      unfold field.
      destruct (truthy (match lookup "success" ms with
                        | Some v => J v
                        | None => undefined
                        end)); [|discriminate H].
      split; [reflexivity|]. now injection H as <-.
    + intros (d & Hd & Ht & ->). injection Hd as <-.
      destruct data as [|b|n|s|l|ms]; try discriminate Ht.
      unfold field in *. cbn [get_prop and_then]. now rewrite Ht.
Qed.

(** ** The runs of the handlers, request by request *)

Lemma draftStage_cases (rt : runtime)
  (prompt : option string -> option string -> string) (n pr : jsval)
  (p : page) :
  (exists t, newsContext rt n = Throw t
             /\ draftStage rt prompt n pr p = (Throw t, p))
  \/ (exists nc t, newsContext rt n = Return nc
                   /\ personalityContext rt pr = Throw t
                   /\ draftStage rt prompt n pr p = (Throw t, p))
  \/ (exists nc pc, newsContext rt n = Return nc
                    /\ personalityContext rt pr = Return pc
                    /\ sent (snd (draftStage rt prompt n pr p))
                       = (sent p ++ [draftRequest prompt pc nc])%list).
Proof.
  destruct (newsContext rt n) as [nc|t] eqn:Hn.
  2:{ left. exists t. split; [reflexivity|].
      unfold draftStage. unfold bind at 1. unfold lift at 1.
      now rewrite Hn. }
  right.
  destruct (personalityContext rt pr) as [pc|t] eqn:Hp.
  2:{ left. exists nc, t. repeat split.
      unfold draftStage. unfold bind at 1. unfold lift at 1. rewrite Hn.
      unfold bind at 1. unfold lift at 1. now rewrite Hp. }
  right. exists nc, pc. repeat split.
  exact (draftStage_sends rt prompt n pr nc pc p Hn Hp).
Qed.

Lemma failed_started (fallback : string) (t : thrown) (s : WorkflowResult) :
  failed fallback t (started s) = failed fallback t s.
Proof. reflexivity. Qed.

(** Every run of [handleGenerateDraft] is one of four: it stops in the
    news stage, in the personality stage, in the draft stage, or it
    commits. *)
Lemma generate_cases (rt : runtime) (p : page) :
  let q := snd (handleGenerateDraft rt p) in
  (exists t p1,
      newsStage rt (begun p) = (Throw t, p1)
      /\ result q = failed "Failed to generate draft" t (result p)
      /\ sent q = (sent p ++ [newsRequest])%list)
  \/ (exists n p1 t p2,
        newsStage rt (begun p) = (Return n, p1)
        /\ personalityStage rt p1 = (Throw t, p2)
        /\ result q = failed "Failed to generate draft" t (result p)
        /\ sent q = (sent p ++ [newsRequest; personalityRequest])%list)
  \/ (exists n p1 pr p2 t p3,
        newsStage rt (begun p) = (Return n, p1)
        /\ personalityStage rt p1 = (Return pr, p2)
        /\ draftStage rt generatePrompt n pr p2 = (Throw t, p3)
        /\ result q = failed "Failed to generate draft" t (result p)
        /\ sent q = sent p3
        /\ sent p2 = (sent p ++ [newsRequest; personalityRequest])%list)
  \/ (exists n p1 pr p2 d p3,
        newsStage rt (begun p) = (Return n, p1)
        /\ personalityStage rt p1 = (Return pr, p2)
        /\ draftStage rt generatePrompt n pr p2 = (Return d, p3)
        /\ result q = {| news := n; personality := pr; draft := d;
                         loading := false; error := None |}
        /\ sent q = sent p3
        /\ sent p2 = (sent p ++ [newsRequest; personalityRequest])%list).
Proof.
  intros q. subst q.
  destruct (newsStage rt (begun p)) as [[n|t] p1] eqn:H1.
  2:{ left. exists t, p1. split; [reflexivity|].
      rewrite (generate_news_fails rt p t p1 H1).
      destruct (newsStage_frame rt _ _ _ H1) as (R & _ & S).
      simpl. rewrite R, S. split; reflexivity. }
  right.
  destruct (newsStage_frame rt _ _ _ H1) as (R1 & _ & S1).
  destruct (personalityStage rt p1) as [[pr|t] p2] eqn:H2.
  2:{ left. exists n, p1, t, p2. split; [reflexivity|]. split; [exact H2|].
      rewrite (generate_personality_fails rt p n p1 t p2 H1 H2).
      destruct (personalityStage_frame rt _ _ _ H2) as (R2 & _ & S2).
      simpl. rewrite R2, R1, S2, S1, <- app_assoc. split; reflexivity. }
  right.
  destruct (personalityStage_frame rt _ _ _ H2) as (R2 & _ & S2).
  assert (S : sent p2 = (sent p ++ [newsRequest; personalityRequest])%list).
  { rewrite S2, S1, <- app_assoc. reflexivity. }
  destruct (draftStage rt generatePrompt n pr p2) as [[d|t] p3] eqn:H3;
    destruct (draftStage_frame rt _ _ _ _ _ _ H3) as (R3 & _).
  - right. exists n, p1, pr, p2, d, p3. repeat split; try assumption.
    + now rewrite (generate_succeeds rt p n p1 pr p2 d p3 H1 H2 H3).
    + now rewrite (generate_succeeds rt p n p1 pr p2 d p3 H1 H2 H3).
  - left. exists n, p1, pr, p2, t, p3. repeat split; try assumption.
    + rewrite (generate_draft_fails rt p n p1 pr p2 t p3 H1 H2 H3).
      simpl. rewrite R3, R2, R1. reflexivity.
    + now rewrite (generate_draft_fails rt p n p1 pr p2 t p3 H1 H2 H3).
Qed.

(** X2.  A failure of the draft stage commits nothing either: the news and
    personality results of the run are dropped with it, [news],
    [personality] and [draft] are what they were before the run, [loading]
    is false and [error] holds the message of the failure. *)
Theorem draft_failure_commits_nothing (rt : runtime) (p : page)
  (n : jsval) (p1 : page) (pr : jsval) (p2 : page) (t : thrown) (p3 : page) :
  newsStage rt (begun p) = (Return n, p1) ->
  personalityStage rt p1 = (Return pr, p2) ->
  draftStage rt generatePrompt n pr p2 = (Throw t, p3) ->
  result (snd (handleGenerateDraft rt p))
  = {| news := news (result p);
       personality := personality (result p);
       draft := draft (result p);
       loading := false;
       error := Some (errorText "Failed to generate draft" t) |}.
Proof.
  intros H1 H2 H3.
  rewrite (generate_draft_fails rt p n p1 pr p2 t p3 H1 H2 H3).
  destruct (newsStage_frame rt _ _ _ H1) as (R1 & _).
  destruct (personalityStage_frame rt _ _ _ H2) as (R2 & _).
  destruct (draftStage_frame rt _ _ _ _ _ _ H3) as (R3 & _).
  simpl. rewrite R3, R2, R1. reflexivity.
Qed.

Lemma draft_failure_commits_nothing_witness :
  result (snd (handleGenerateDraft draftRefused initialPage))
  = {| news := null; personality := null; draft := null;
       loading := false; error := Some "Agent call failed" |}.
Proof.
  exact (draft_failure_commits_nothing draftRefused initialPage
           (J fiveNews)
           (snd (newsStage draftRefused (begun initialPage)))
           (J sampleProfile)
           (snd (personalityStage draftRefused
                   (snd (newsStage draftRefused (begun initialPage)))))
           (ErrorObject "Agent call failed")
           (snd (draftStage draftRefused generatePrompt (J fiveNews)
                   (J sampleProfile)
                   (snd (personalityStage draftRefused
                           (snd (newsStage draftRefused
                                   (begun initialPage)))))))
           eq_refl eq_refl eq_refl).
Defined.

(** X3.  [handleGenerateDraft] is all or nothing.  Whatever the agents
    answer, a run ends in one of two ways.  Either its three stages
    returned, and the state is exactly their three results with [loading]
    false and no error; or one stage threw, and the state is the [news],
    [personality] and [draft] of before the run with [loading] false and the
    error text of what that stage threw.  No run leaves a part of its
    results. *)
Theorem generate_is_all_or_nothing (rt : runtime) (p : page) :
  (exists n p1 pr p2 d p3,
      newsStage rt (begun p) = (Return n, p1)
      /\ personalityStage rt p1 = (Return pr, p2)
      /\ draftStage rt generatePrompt n pr p2 = (Return d, p3)
      /\ result (snd (handleGenerateDraft rt p))
         = {| news := n; personality := pr; draft := d;
              loading := false; error := None |})
  \/ (exists t,
        (fst (newsStage rt (begun p)) = Throw t
         \/ (exists n p1,
               newsStage rt (begun p) = (Return n, p1)
               /\ fst (personalityStage rt p1) = Throw t)
         \/ (exists n p1 pr p2,
               newsStage rt (begun p) = (Return n, p1)
               /\ personalityStage rt p1 = (Return pr, p2)
               /\ fst (draftStage rt generatePrompt n pr p2) = Throw t))
        /\ result (snd (handleGenerateDraft rt p))
           = {| news := news (result p);
                personality := personality (result p);
                draft := draft (result p);
                loading := false;
                error := Some (errorText "Failed to generate draft" t) |}).
Proof.
  destruct (generate_cases rt p)
    as [(t & p1 & H1 & R & _)
       |[(n & p1 & t & p2 & H1 & H2 & R & _)
        |[(n & p1 & pr & p2 & t & p3 & H1 & H2 & H3 & R & _)
         |(n & p1 & pr & p2 & d & p3 & H1 & H2 & H3 & R & _)]]].
  - right. exists t. split; [|exact R]. left. now rewrite H1.
  - right. exists t. split; [|exact R]. right. left.
    exists n, p1. split; [exact H1 | now rewrite H2].
  - right. exists t. split; [|exact R]. right. right.
    exists n, p1, pr, p2. repeat split; try assumption. now rewrite H3.
  - left. exists n, p1, pr, p2, d, p3. auto.
Qed.

(** X4.  The requests of a run of [handleGenerateDraft]: the news request
    first, always; then the personality request, if it comes to that; then
    one draft request, if it comes to that.  No agent is asked twice and
    none out of turn. *)
Theorem generate_requests_in_order (rt : runtime) (p : page) :
  exists more,
    sent (snd (handleGenerateDraft rt p))
    = (sent p ++ newsRequest :: more)%list
    /\ (more = []
        \/ more = [personalityRequest]
        \/ exists pc nc,
             more = [personalityRequest; draftRequest generatePrompt pc nc]).
Proof.
  destruct (generate_cases rt p)
    as [(t & p1 & _ & _ & S)
       |[(n & p1 & t & p2 & _ & _ & _ & S)
        |[(n & p1 & pr & p2 & t & p3 & _ & _ & H3 & _ & S & S2)
         |(n & p1 & pr & p2 & d & p3 & _ & _ & H3 & _ & S & S2)]]].
  - exists []. split; [exact S | now left].
  - exists [personalityRequest]. split; [exact S | right; now left].
  - destruct (draftStage_cases rt generatePrompt n pr p2)
      as [(t' & _ & E)|[(nc & t' & _ & _ & E)|(nc & pc & _ & _ & E)]];
      rewrite H3 in E.
    + injection E as _ <-. exists [personalityRequest].
      split; [now rewrite S, S2 | right; now left].
    + injection E as _ <-. exists [personalityRequest].
      split; [now rewrite S, S2 | right; now left].
    + simpl in E. exists [personalityRequest; draftRequest generatePrompt pc nc].
      split; [|right; right; now exists pc, nc].
      rewrite S, E, S2, <- app_assoc. reflexivity.
  - destruct (draftStage_cases rt generatePrompt n pr p2)
      as [(t' & _ & E)|[(nc & t' & _ & _ & E)|(nc & pc & _ & _ & E)]];
      rewrite H3 in E; try discriminate E.
    simpl in E. exists [personalityRequest; draftRequest generatePrompt pc nc].
    split; [|right; right; now exists pc, nc].
    rewrite S, E, S2, <- app_assoc. reflexivity.
Qed.

(** ** Replies the page cannot use *)

Lemma callAgent_accepted (rt : runtime) (agentId text : string) (p : page)
  (data : json) :
  fetch_agent rt (length (sent p))
    {| message := text; agent_id := agentId |} = Data data ->
  truthy (field "success" data) = true ->
  fst (callAgent rt agentId text p) = Return (field "response" data).
Proof.
  intros Hd Ht. unfold callAgent. rewrite Hd. cbn [fst].
  destruct data as [|b|n|s|l|ms]; try discriminate Ht.
  unfold field in *. cbn [get_prop and_then]. now rewrite Ht.
Qed.

Lemma callAgent_rejected (rt : runtime) (agentId text : string) (p : page)
  (t : thrown) :
  fetch_agent rt (length (sent p))
    {| message := text; agent_id := agentId |} = Rejected t ->
  fst (callAgent rt agentId text p) = Throw t.
Proof. intros Hd. unfold callAgent. now rewrite Hd. Qed.

Lemma stage_outcome {A : Type} (rt : runtime) (agentId text : string)
  (f : jsval -> completion A) (p : page) :
  fst (bind (callAgent rt agentId text) (fun x => lift (f x)) p)
  = and_then (fst (callAgent rt agentId text p)) f.
Proof.
  unfold bind, lift. now destruct (callAgent rt agentId text p) as [[x|t] q].
Qed.

Lemma generate_when_news_throws (rt : runtime) (p : page) (t : thrown) :
  fst (newsStage rt (begun p)) = Throw t ->
  result (snd (handleGenerateDraft rt p))
  = failed "Failed to generate draft" t (result p)
  /\ sent (snd (handleGenerateDraft rt p)) = (sent p ++ [newsRequest])%list.
Proof.
  intros H. destruct (newsStage rt (begun p)) as [c p1] eqn:H1.
  simpl in H. subst c.
  rewrite (generate_news_fails rt p t p1 H1).
  destruct (newsStage_frame rt _ _ _ H1) as (R & _ & S).
  simpl. rewrite R, S. split; reflexivity.
Qed.

Lemma newsContext_without_summary (rt : runtime) (n : jsval) :
  has_summary n = false ->
  newsContext rt n
  = Throw (ErrorObject
             (type_error rt (if nullish n then "news_summary" else "slice"))).
Proof.
  destruct n as [|[|b|k|s|l|ms]]; intros H; try reflexivity.
  unfold newsContext. cbn [get_prop and_then nullish].
  simpl in H.
  destruct (lookup "news_summary" ms) as [[|b|k|s|l|ms']|];
    try reflexivity; discriminate H.
Qed.

(** X5.  The shape of the news reply is not looked at until the draft
    stage.  When the news stage returns a value with no usable
    [news_summary] (not an object, or one whose [news_summary] is neither an
    array nor a string), the personality agent is still asked; only then
    does the run fail, with the engine's [TypeError] message, no draft
    request, and nothing committed. *)
Theorem unusable_news_fails_after_two_requests (rt : runtime) (p : page)
  (n : jsval) (p1 : page) (pr : jsval) (p2 : page) :
  newsStage rt (begun p) = (Return n, p1) ->
  has_summary n = false ->
  personalityStage rt p1 = (Return pr, p2) ->
  sent (snd (handleGenerateDraft rt p))
  = (sent p ++ [newsRequest; personalityRequest])%list
  /\ result (snd (handleGenerateDraft rt p))
     = {| news := news (result p);
          personality := personality (result p);
          draft := draft (result p);
          loading := false;
          error := Some (type_error rt
                           (if nullish n then "news_summary" else "slice")) |}.
Proof.
  intros H1 Hs H2.
  pose proof (newsContext_without_summary rt n Hs) as Hn.
  destruct (draftStage_cases rt generatePrompt n pr p2)
    as [(t & Ht & E)|[(nc & t & Hc & _)|(nc & pc & Hc & _)]];
    try (rewrite Hn in Hc; discriminate Hc).
  rewrite Hn in Ht. injection Ht as <-.
  rewrite (generate_draft_fails rt p n p1 pr p2 _ p2 H1 H2 E).
  destruct (newsStage_frame rt _ _ _ H1) as (R1 & _ & S1).
  destruct (personalityStage_frame rt _ _ _ H2) as (R2 & _ & S2).
  simpl. rewrite R2, R1, S2, S1, <- app_assoc. split; reflexivity.
Qed.

Lemma unusable_news_fails_after_two_requests_witness :
  sent (snd (handleGenerateDraft shapelessNews initialPage))
  = [newsRequest; personalityRequest]
  /\ result (snd (handleGenerateDraft shapelessNews initialPage))
     = {| news := null; personality := null; draft := null;
          loading := false;
          error := Some "Cannot read properties: slice" |}.
Proof.
  exact (unusable_news_fails_after_two_requests shapelessNews initialPage
           (J (JObj [("articles", JArr [])]))
           (snd (newsStage shapelessNews (begun initialPage)))
           (J sampleProfile)
           (snd (personalityStage shapelessNews
                   (snd (newsStage shapelessNews (begun initialPage)))))
           eq_refl eq_refl eq_refl).
Defined.

Lemma parse_value_skip_ws (fuel : nat) (s : string) :
  parse_value fuel s = parse_value fuel (skip_ws s).
Proof.
  induction s as [|c r IH]; [reflexivity|].
  destruct (is_ws c) eqn:W.
  - now rewrite (parse_value_ws fuel c r W), (skip_ws_ws c r W).
  - simpl. now rewrite W.
Qed.

Lemma skip_ws_head (s : string) (c : char16) (r : string) :
  skip_ws s = String c r -> is_ws c = false.
Proof.
  induction s as [|a t IH]; [discriminate|].
  simpl. destruct (is_ws a) eqn:W; [exact IH|].
  intros H. injection H as -> _. exact W.
Qed.

(** A text that does not begin like a JSON value is not JSON. *)
Lemma JSON_parse_not_a_value (text : string) :
  begins_value text = false -> JSON_parse text = None.
Proof.
  unfold begins_value, JSON_parse. rewrite parse_value_skip_ws.
  destruct (skip_ws text) as [|c r] eqn:E; [reflexivity|].
  pose proof (skip_ws_head text c r E) as W. intros H.
  unfold starts_value in H.
  repeat (apply orb_false_iff in H; destruct H as [H ?]).
  destruct (digit_of_char c) eqn:D; [discriminate|].
  assert (P : parse_value (S (String.length text)) (String c r) = None).
  { cbn [parse_value skip_ws]. rewrite W.
    repeat match goal with
    | E : Char16.eqb c _ = false |- _ => rewrite E; clear E
    end.
    unfold parse_number, parse_sign.
    match goal with
    | |- context [Char16.eqb c "-"] =>
        destruct (Char16.eqb c "-") eqn:M; [congruence|]
    end.
    unfold parse_int. cbn [span_digits]. now rewrite D. }
  now rewrite P.
Qed.

(** Prose, a text that begins (white space apart) with a character no JSON
    value begins with, is not a JSON text. *)
Lemma prose_is_not_json (text : string) :
  begins_value text = false -> ~ json_text text.
Proof.
  intros H. apply JSON_parse_json_text. now apply JSON_parse_not_a_value.
Qed.

(** X6.  A news reply that is accepted but whose payload is a string that
    is not a JSON text stops the run at once: [JSON.parse] throws, the only
    request sent is the news request, nothing is committed and [error] is
    the message of the [SyntaxError]. *)
Theorem plain_text_news_fails_at_once (rt : runtime) (p : page)
  (data : json) (text : string) :
  fetch_agent rt (length (sent p)) newsRequest = Data data ->
  truthy (field "success" data) = true ->
  field "response" data = J (JStr text) ->
  ~ json_text text ->
  sent (snd (handleGenerateDraft rt p)) = (sent p ++ [newsRequest])%list
  /\ result (snd (handleGenerateDraft rt p))
     = {| news := news (result p);
          personality := personality (result p);
          draft := draft (result p);
          loading := false;
          error := Some (syntax_error rt text) |}.
Proof.
  intros Hd Ht Hr Hb.
  pose proof (proj2 (JSON_parse_json_text text) Hb) as Hp.
  assert (H : fst (newsStage rt (begun p))
              = Throw (ErrorObject (syntax_error rt text))).
  { unfold newsStage. rewrite stage_outcome.
    rewrite (callAgent_accepted rt _ _ (begun p) data Hd Ht), Hr.
    simpl. now rewrite Hp. }
  destruct (generate_when_news_throws rt p _ H) as (R & S).
  split; [exact S | exact R].
Qed.

Lemma plain_text_news_fails_at_once_witness :
  sent (snd (handleGenerateDraft plainTextNews initialPage)) = [newsRequest]
  /\ result (snd (handleGenerateDraft plainTextNews initialPage))
     = {| news := null; personality := null; draft := null;
          loading := false; error := Some "Unexpected token" |}.
Proof.
  exact (plain_text_news_fails_at_once plainTextNews initialPage
           (JObj [ ("success", JBool true);
                   ("response", JStr "Here is the news of today") ])
           "Here is the news of today"
           eq_refl eq_refl eq_refl
           (prose_is_not_json "Here is the news of today" eq_refl)).
Defined.

(** X7.  When the endpoint cannot be reached, the run stops after the one
    request it tried and commits nothing; [error] is the message of the
    rejection when that is an [Error], and the text
    [Failed to generate draft] when it is anything else. *)
Theorem rejected_request_fails_the_run (rt : runtime) (p : page)
  (t : thrown) :
  fetch_agent rt (length (sent p)) newsRequest = Rejected t ->
  sent (snd (handleGenerateDraft rt p)) = (sent p ++ [newsRequest])%list
  /\ result (snd (handleGenerateDraft rt p))
     = {| news := news (result p);
          personality := personality (result p);
          draft := draft (result p);
          loading := false;
          error := Some (match t with
                         | ErrorObject text => text
                         | OtherValue => "Failed to generate draft"
                         end) |}.
Proof.
  intros Hd.
  assert (H : fst (newsStage rt (begun p)) = Throw t).
  { unfold newsStage. rewrite stage_outcome.
    now rewrite (callAgent_rejected rt _ _ (begun p) t Hd). }
  destruct (generate_when_news_throws rt p _ H) as (R & S).
  split; [exact S | exact R].
Qed.

Lemma rejected_request_fails_the_run_witness :
  sent (snd (handleGenerateDraft unreachable initialPage)) = [newsRequest]
  /\ result (snd (handleGenerateDraft unreachable initialPage))
     = {| news := null; personality := null; draft := null;
          loading := false; error := Some "Failed to generate draft" |}.
Proof.
  exact (rejected_request_fails_the_run unreachable initialPage OtherValue
           eq_refl).
Defined.

(** ** The two contexts *)

Lemma newsContext_returns_summary (rt : runtime) (n : jsval)
  (nc : option string) :
  newsContext rt n = Return nc -> has_summary n = true.
Proof.
  intros H. destruct (has_summary n) eqn:E; [reflexivity|].
  rewrite (newsContext_without_summary rt n E) in H. discriminate H.
Qed.

Lemma has_summary_truthy (n : jsval) : has_summary n = true -> truthy n = true.
Proof. destruct n as [|[|b|k|s|l|ms]]; intros H; try discriminate H. reflexivity. Qed.

Lemma newsContext_with_summary (rt : runtime) (n : jsval) :
  has_summary n = true -> exists s, newsContext rt n = Return (Some s).
Proof.
  destruct n as [|[|b|k|s|l|ms]]; intros H; try discriminate H.
  unfold newsContext. cbn [get_prop and_then]. simpl in H.
  destruct (lookup "news_summary" ms) as [[|b|k|s|l|ms']|];
    try discriminate H; eexists; reflexivity.
Qed.

Lemma personalityContext_returns (rt : runtime) (pr : jsval)
  (pc : option string) :
  personalityContext rt pr = Return pc -> nullish pr = false.
Proof. destruct pr as [|[|b|k|s|l|ms]]; intros H; try discriminate H; reflexivity. Qed.

Lemma personalityContext_of_value (rt : runtime) (v : json) :
  nullish (J v) = false ->
  personalityContext rt (J v)
  = Return (stringify_js (field "personality_profile" v)).
Proof. destruct v; intros H; try discriminate H; reflexivity. Qed.

(** X8.  The draft stage can build its news context exactly when the news
    result is an object whose [news_summary] is an array or a string, and
    the context is then always a text, never [undefined]. *)
Theorem newsContext_returns_iff (rt : runtime) (n : jsval) :
  (exists s, newsContext rt n = Return (Some s)) <-> has_summary n = true.
Proof.
  split.
  - intros (s & H). exact (newsContext_returns_summary rt n _ H).
  - apply newsContext_with_summary.
Qed.

(** *** What the page holds has been read by [JSON.parse] *)

Lemma stage_returned (rt : runtime) (agentId text : string) (p : page)
  (n : jsval) (q : page) :
  bind (callAgent rt agentId text) (fun x => lift (decode rt x)) p
  = (Return n, q) ->
  exists data,
    fetch_agent rt (length (sent p))
      {| message := text; agent_id := agentId |} = Data data
    /\ truthy (field "success" data) = true
    /\ decode rt (field "response" data) = Return n.
Proof.
  unfold bind.
  destruct (callAgent rt agentId text p) as [[x|t] q'] eqn:E; [|discriminate].
  unfold lift. intros H.
  destruct (callAgent_returned rt _ _ p x q' E) as (data & Hd & Ht & ->).
  exists data. repeat split; try assumption. now injection H as -> _.
Qed.

Lemma reply_wf (rt : runtime) (k : nat) (req : request) (data : json)
  (n : jsval) :
  parsed_bodies rt ->
  fetch_agent rt k req = Data data ->
  decode rt (field "response" data) = Return n ->
  wf_js n = true.
Proof.
  intros Hrt Hd Hn. destruct (Hrt k req data Hd) as [body Hb].
  exact (decode_wf rt _ n (payload_wf body data "response" Hb) Hn).
Qed.

Lemma newsStage_wf (rt : runtime) (p : page) (n : jsval) (q : page) :
  parsed_bodies rt -> newsStage rt p = (Return n, q) -> wf_js n = true.
Proof.
  intros Hrt H.
  destruct (stage_returned rt _ _ p n q H) as (data & Hd & _ & Hn).
  exact (reply_wf rt _ _ data n Hrt Hd Hn).
Qed.

Lemma personalityStage_wf (rt : runtime) (p : page) (n : jsval) (q : page) :
  parsed_bodies rt -> personalityStage rt p = (Return n, q) -> wf_js n = true.
Proof.
  intros Hrt H.
  destruct (stage_returned rt _ _ p n q H) as (data & Hd & _ & Hn).
  exact (reply_wf rt _ _ data n Hrt Hd Hn).
Qed.

Lemma draftStage_wf (rt : runtime)
  (prompt : option string -> option string -> string) (n pr : jsval)
  (p : page) (d : jsval) (q : page) :
  parsed_bodies rt ->
  draftStage rt prompt n pr p = (Return d, q) -> wf_js d = true.
Proof.
  intros Hrt H.
  destruct (draftStage_returned rt prompt n pr p d q H)
    as (pc & nc & data & _ & _ & Hd & _ & Hn).
  exact (reply_wf rt _ _ data d Hrt Hd Hn).
Qed.

(** Every value on a page that a session can reach is a JavaScript value. *)
Lemma reachable_wf (rt : runtime) (p : page) :
  parsed_bodies rt -> reachable rt p ->
  wf_js (news (result p)) = true
  /\ wf_js (personality (result p)) = true
  /\ wf_js (draft (result p)) = true.
Proof.
  intros Hrt. induction 1 as [|p Hp IH|p Hp IH].
  - repeat split.
  - destruct (generate_cases rt p)
      as [(t & p1 & _ & R & _)
         |[(n & p1 & t & p2 & _ & _ & R & _)
          |[(n & p1 & pr & p2 & t & p3 & _ & _ & _ & R & _)
           |(n & p1 & pr & p2 & d & p3 & H1 & H2 & H3 & R & _)]]];
      rewrite R; try exact IH.
    simpl. repeat split.
    + exact (newsStage_wf rt _ n p1 Hrt H1).
    + exact (personalityStage_wf rt _ pr p2 Hrt H2).
    + exact (draftStage_wf rt _ n pr p2 d p3 Hrt H3).
  - destruct (negb (truthy (news (result p)))
              || negb (truthy (personality (result p)))) eqn:G.
    { now rewrite (regenerate_guard rt p G). }
    destruct IH as (In & Ip & Id).
    destruct (draftStage rt regeneratePrompt (news (result p))
                (personality (result p)) (begun p)) as [[d|t] p1] eqn:H;
      destruct (draftStage_frame rt _ _ _ _ _ _ H) as (R & _);
      [rewrite (regenerate_succeeds rt p d p1 G H)
      |rewrite (regenerate_fails rt p t p1 G H)];
      simpl; rewrite R; simpl; repeat split; try assumption.
    exact (draftStage_wf rt _ _ _ _ d p1 Hrt H).
Qed.

(** The sample sessions answer with bodies that [JSON.parse] has read. *)
Lemma scripted_parsed (replies : list reply) :
  Forall (fun r => match r with
                   | Data d => JSON_parse (JSON_stringify d) = Some d
                   | Rejected _ => True
                   end) replies ->
  parsed_bodies (scripted replies).
Proof.
  intros F k req data. simpl. revert k.
  induction F as [|r l Hr _ IH]; intros k H.
  - destruct k; discriminate H.
  - destruct k as [|k]; [|exact (IH k H)].
    simpl in H. subst r. now exists (JSON_stringify data).
Qed.

Lemma allAccepted_parsed : parsed_bodies allAccepted.
Proof. apply scripted_parsed. repeat constructor. Qed.

Lemma forallb_firstn {A : Type} (f : A -> bool) (k : nat) (l : list A) :
  forallb f l = true -> forallb f (firstn k l) = true.
Proof.
  revert k. induction l as [|x l IH]; intros [|k] H; try reflexivity.
  simpl in *. apply andb_true_iff in H. destruct H as [-> H]. now apply IH.
Qed.

(** X9.  Whatever a news stage returns from a body that [response.json()]
    has read, if it has a news list, of any length, the news context is
    JSON text that reads back as the first items of the list, at most three
    of them and in their order (all of them for a shorter list, none for an
    empty one), each as [JSON.stringify] leaves it: a negative zero reads
    back as [0] and a number that is not finite as [null]. *)
Theorem news_context_reads_back (rt : runtime) (p : page) (n : jsval)
  (q : page) (items : list json) :
  parsed_bodies rt ->
  newsStage rt p = (Return n, q) ->
  get_prop rt n "news_summary" = Return (J (JArr items)) ->
  exists s,
    newsContext rt n = Return (Some s)
    /\ JSON_parse s = Some (JArr (map after_stringify (firstn 3 items)))
    /\ length (firstn 3 items) = Nat.min 3 (length items).
Proof.
  intros Hrt Hs H. pose proof (newsStage_wf rt p n q Hrt Hs) as Hn.
  exists (JSON_stringify (JArr (firstn 3 items))).
  split; [exact (newsContext_of_array rt n items H)|].
  split; [|apply length_firstn].
  apply (JSON_parse_stringify (JArr (firstn 3 items))).
  change (wf_json (JArr (firstn 3 items)))
    with (forallb wf_json (firstn 3 items)).
  apply forallb_firstn.
  destruct n as [|[| | | | |ms]]; try discriminate H.
  simpl in H. injection H as H.
  destruct (lookup "news_summary" ms) as [x|] eqn:L; [|discriminate H].
  injection H as ->.
  simpl in Hn. apply andb_true_iff in Hn. destruct Hn as [_ Hn].
  exact (wf_lookup "news_summary" ms (JArr items) Hn L).
Qed.

Lemma news_context_reads_back_witness :
  exists s,
    newsContext allAccepted (J fiveNews) = Return (Some s)
    /\ JSON_parse s
       = Some (JArr (map after_stringify
                       (map json_of_NewsItem [item1; item2; item3])))
    /\ length (map json_of_NewsItem [item1; item2; item3]) = 3.
Proof.
  exact (news_context_reads_back allAccepted (begun initialPage)
           (J fiveNews)
           (snd (newsStage allAccepted (begun initialPage)))
           (map json_of_NewsItem [item1; item2; item3; item4; item5])
           allAccepted_parsed eq_refl eq_refl).
Defined.

(** X10.  A personality result without a [personality_profile] does not
    stop the run: [JSON.stringify] gives [undefined], and the draft request
    is sent with the word [undefined] where the profile should be. *)
Theorem missing_profile_is_sent_as_undefined (rt : runtime) (p : page)
  (n : jsval) (p1 : page) (pr : json) (p2 : page) (nc : option string) :
  newsStage rt (begun p) = (Return n, p1) ->
  personalityStage rt p1 = (Return (J pr), p2) ->
  newsContext rt n = Return nc ->
  nullish (J pr) = false ->
  field "personality_profile" pr = undefined ->
  sent (snd (handleGenerateDraft rt p))
  = (sent p2
     ++ [{| message :=
              "Using this personality profile: undefined" ++ nl2
              ++ "And these news items: " ++ interpolate nc ++ nl2
              ++ "Generate an engaging Discord message that incorporates 2-3 news items. Match the personality profile exactly. Include appropriate markdown formatting and structure the message for maximum engagement in a Discord channel. Return JSON with the draft message and detailed metadata.";
            agent_id := AGENT_IDS.draft |}])%list.
Proof.
  intros H1 H2 Hn Hv Hf.
  pose proof (personalityContext_of_value rt pr Hv) as Hp.
  rewrite Hf in Hp.
  exact (generate_draft_request rt p n p1 (J pr) p2 nc None H1 H2 Hn Hp).
Qed.

Lemma missing_profile_is_sent_as_undefined_witness :
  nth_error (sent (snd (handleGenerateDraft profileWithoutKey initialPage))) 2
  = Some {| message :=
              "Using this personality profile: undefined" ++ nl2
              ++ "And these news items: "
              ++ JSON_stringify
                   (JArr (map json_of_NewsItem [item1; item2; item3]))
              ++ nl2
              ++ "Generate an engaging Discord message that incorporates 2-3 news items. Match the personality profile exactly. Include appropriate markdown formatting and structure the message for maximum engagement in a Discord channel. Return JSON with the draft message and detailed metadata.";
            agent_id := AGENT_IDS.draft |}.
Proof.
  rewrite (missing_profile_is_sent_as_undefined profileWithoutKey initialPage
             (J fiveNews)
             (snd (newsStage profileWithoutKey (begun initialPage)))
             (JObj [ ("confidence", JNum (dec false [D0] [D9])) ])
             (snd (personalityStage profileWithoutKey
                     (snd (newsStage profileWithoutKey (begun initialPage)))))
             (Some (JSON_stringify
                      (JArr (map json_of_NewsItem [item1; item2; item3]))))
             eq_refl eq_refl eq_refl eq_refl eq_refl).
  reflexivity.
Defined.

(** ** [handleRegenerateDraft], in full *)

(** X11.  The state after [handleRegenerateDraft], field by field: the
    state as it was when the guard returns; otherwise the cached [news] and
    [personality], [loading] false, and either the new draft with [error]
    cleared, when the draft stage succeeds, or the old draft with the
    message of the failure ([Failed to regenerate draft] when what was
    thrown is not an [Error]). *)
Theorem regenerate_outcome (rt : runtime) (p : page) :
  result (snd (handleRegenerateDraft rt p))
  = if negb (truthy (news (result p)))
       || negb (truthy (personality (result p)))
    then result p
    else
      match fst (draftStage rt regeneratePrompt (news (result p))
                   (personality (result p)) (begun p)) with
      | Return d =>
          {| news := news (result p);
             personality := personality (result p);
             draft := d; loading := false; error := None |}
      | Throw t =>
          {| news := news (result p);
             personality := personality (result p);
             draft := draft (result p); loading := false;
             error := Some (match t with
                            | ErrorObject text => text
                            | OtherValue => "Failed to regenerate draft"
                            end) |}
      end.
Proof.
  destruct (negb (truthy (news (result p)))
            || negb (truthy (personality (result p)))) eqn:G.
  - now rewrite (regenerate_guard rt p G).
  - destruct (draftStage rt regeneratePrompt (news (result p))
                (personality (result p)) (begun p)) as [[d|t] p1] eqn:H;
      destruct (draftStage_frame rt _ _ _ _ _ _ H) as (R & _).
    + rewrite (regenerate_succeeds rt p d p1 G H).
      simpl. rewrite R. reflexivity.
    + rewrite (regenerate_fails rt p t p1 G H).
      simpl. rewrite R. reflexivity.
Qed.

(** X12.  [handleRegenerateDraft] sends no request or exactly one, and that
    one goes to the draft agent with the regenerate template: the news and
    personality agents are never asked again. *)
Theorem regenerate_asks_only_the_draft_agent (rt : runtime) (p : page) :
  sent (snd (handleRegenerateDraft rt p)) = sent p
  \/ exists pc nc,
       sent (snd (handleRegenerateDraft rt p))
       = (sent p ++ [draftRequest regeneratePrompt pc nc])%list.
Proof.
  destruct (negb (truthy (news (result p)))
            || negb (truthy (personality (result p)))) eqn:G.
  { left. now rewrite (regenerate_guard rt p G). }
  assert (F : forall c p1,
             draftStage rt regeneratePrompt (news (result p))
               (personality (result p)) (begun p) = (c, p1) ->
             sent (snd (handleRegenerateDraft rt p)) = sent p1).
  { intros [d|t] p1 H.
    - now rewrite (regenerate_succeeds rt p d p1 G H).
    - now rewrite (regenerate_fails rt p t p1 G H). }
  destruct (draftStage rt regeneratePrompt (news (result p))
              (personality (result p)) (begun p)) as [c p1] eqn:H.
  rewrite (F c p1 eq_refl).
  destruct (draftStage_cases rt regeneratePrompt (news (result p))
              (personality (result p)) (begun p))
    as [(t' & _ & E)|[(nc & t' & _ & _ & E)|(nc & pc & _ & _ & E)]];
    rewrite H in E.
  - left. now injection E as _ ->.
  - left. now injection E as _ ->.
  - right. exists pc, nc. exact E.
Qed.

(** X13.  After a run of [handleGenerateDraft] that succeeded with a truthy
    personality result, [handleRegenerateDraft] sends one request whose two
    contexts are those of the draft request of that run; the requests
    differ in the template only. *)
Theorem regenerate_reuses_the_contexts (rt : runtime) (p : page)
  (n : jsval) (p1 : page) (pr : jsval) (p2 : page) (d : jsval) (p3 : page) :
  newsStage rt (begun p) = (Return n, p1) ->
  personalityStage rt p1 = (Return pr, p2) ->
  draftStage rt generatePrompt n pr p2 = (Return d, p3) ->
  truthy pr = true ->
  exists pc nc,
    sent (snd (handleGenerateDraft rt p))
    = (sent p ++ [newsRequest; personalityRequest;
                  draftRequest generatePrompt pc nc])%list
    /\ sent (snd (handleRegenerateDraft rt (snd (handleGenerateDraft rt p))))
       = (sent (snd (handleGenerateDraft rt p))
          ++ [draftRequest regeneratePrompt pc nc])%list.
Proof.
  intros H1 H2 H3 Tp.
  destruct (draftStage_cases rt generatePrompt n pr p2)
    as [(t' & _ & E)|[(nc & t' & _ & _ & E)|(nc & pc & Hn & Hp & E)]];
    rewrite H3 in E; try discriminate E.
  simpl in E. exists pc, nc.
  destruct (newsStage_frame rt _ _ _ H1) as (_ & _ & S1).
  destruct (personalityStage_frame rt _ _ _ H2) as (_ & _ & S2).
  pose proof (generate_succeeds rt p n p1 pr p2 d p3 H1 H2 H3) as G.
  split.
  - rewrite G. simpl. rewrite E, S2, S1, <- !app_assoc. reflexivity.
  - apply regenerate_draft_request; rewrite G; simpl; try assumption.
    apply has_summary_truthy.
    exact (newsContext_returns_summary rt n nc Hn).
Qed.

Lemma regenerate_reuses_the_contexts_witness :
  exists pc nc,
    sent (snd (handleGenerateDraft allAccepted initialPage))
    = [newsRequest; personalityRequest; draftRequest generatePrompt pc nc]
    /\ sent (snd (handleRegenerateDraft allAccepted
                    (snd (handleGenerateDraft allAccepted initialPage))))
       = (sent (snd (handleGenerateDraft allAccepted initialPage))
          ++ [draftRequest regeneratePrompt pc nc])%list.
Proof.
  exact (regenerate_reuses_the_contexts allAccepted initialPage
           (J fiveNews)
           (snd (newsStage allAccepted (begun initialPage)))
           (J sampleProfile)
           (snd (personalityStage allAccepted
                   (snd (newsStage allAccepted (begun initialPage)))))
           (J (sampleDraft "hello"))
           (snd (draftStage allAccepted generatePrompt (J fiveNews)
                   (J sampleProfile)
                   (snd (personalityStage allAccepted
                           (snd (newsStage allAccepted (begun initialPage)))))))
           eq_refl eq_refl eq_refl eq_refl).
Defined.

(** ** What holds on every page a session can reach *)

Lemma committed_together_same_results (s s' : WorkflowResult) :
  news s' = news s -> personality s' = personality s -> draft s' = draft s ->
  committed_together s -> committed_together s'.
Proof.
  unfold committed_together. intros -> -> ->. auto.
Qed.

Lemma reachable_committed_together (rt : runtime) (p : page) :
  reachable rt p -> committed_together (result p).
Proof.
  induction 1 as [|p Hp IH|p Hp IH].
  - left. repeat split.
  - destruct (generate_cases rt p)
      as [(t & p1 & _ & R & _)
         |[(n & p1 & t & p2 & _ & _ & R & _)
          |[(n & p1 & pr & p2 & t & p3 & _ & _ & _ & R & _)
           |(n & p1 & pr & p2 & d & p3 & _ & _ & H3 & R & _)]]];
      try (rewrite R;
           now apply (committed_together_same_results (result p))).
    rewrite R. right. simpl.
    destruct (draftStage_cases rt generatePrompt n pr p2)
      as [(t' & _ & E)|[(nc & t' & _ & _ & E)|(nc & pc & Hn & Hc & E)]];
      rewrite H3 in E; try discriminate E.
    split.
    + exact (newsContext_returns_summary rt n nc Hn).
    + exact (personalityContext_returns rt pr pc Hc).
  - destruct (negb (truthy (news (result p)))
              || negb (truthy (personality (result p)))) eqn:G.
    { now rewrite (regenerate_guard rt p G). }
    destruct IH as [(Hn & _)|IH].
    { rewrite Hn in G. discriminate G. }
    right.
    destruct (draftStage rt regeneratePrompt (news (result p))
                (personality (result p)) (begun p)) as [[d|t] p1] eqn:H;
      destruct (draftStage_frame rt _ _ _ _ _ _ H) as (R & _);
      [rewrite (regenerate_succeeds rt p d p1 G H)
      |rewrite (regenerate_fails rt p t p1 G H)];
      simpl; rewrite R; exact IH.
Qed.

(** X14.  News and personality are committed together.  In every state a
    session goes through, the loading ones included, either [news],
    [personality] and [draft] are all still [null], or [news] is an object
    with a usable [news_summary] and [personality] is neither [null] nor
    [undefined]; a draft is never held without the two results it was
    written from. *)
Theorem results_are_committed_together (rt : runtime) (p : page) :
  reachable rt p ->
  Forall (fun s =>
            (news s = null /\ personality s = null /\ draft s = null)
            \/ (has_summary (news s) = true
                /\ nullish (personality s) = false))
    (result p :: history p).
Proof.
  induction 1 as [|p Hp IH|p Hp IH].
  - repeat constructor.
  - constructor.
    + exact (reachable_committed_together rt _ (reach_generate rt p Hp)).
    + rewrite (proj2 (generate_shape rt p)).
      constructor; [|exact IH].
      apply (committed_together_same_results (result p)); try reflexivity.
      exact (reachable_committed_together rt p Hp).
  - destruct (regenerate_shape rt p) as [E | (_ & Hh)].
    + rewrite E. exact IH.
    + constructor.
      * exact (reachable_committed_together rt _ (reach_regenerate rt p Hp)).
      * rewrite Hh. constructor; [|exact IH].
        apply (committed_together_same_results (result p)); try reflexivity.
        exact (reachable_committed_together rt p Hp).
Qed.

Lemma results_are_committed_together_witness :
  Forall (fun s =>
            (news s = null /\ personality s = null /\ draft s = null)
            \/ (has_summary (news s) = true
                /\ nullish (personality s) = false))
    (result (snd (handleRegenerateDraft allAccepted
                    (snd (handleGenerateDraft allAccepted initialPage))))
     :: history (snd (handleRegenerateDraft allAccepted
                        (snd (handleGenerateDraft allAccepted initialPage))))).
Proof.
  exact (results_are_committed_together allAccepted _
           (reach_regenerate allAccepted _
              (reach_generate allAccepted _ (reach_initial allAccepted)))).
Defined.

(** X15.  No handler leaves the page loading: on every page a session can
    reach, [loading] is false, so the buttons are enabled again after every
    run, failed or not. *)
Theorem never_left_loading (rt : runtime) (p : page) :
  reachable rt p -> loading (result p) = false.
Proof.
  induction 1 as [|p Hp IH|p Hp IH].
  - reflexivity.
  - exact (proj1 (generate_shape rt p)).
  - destruct (regenerate_shape rt p) as [-> | (L & _)]; assumption.
Qed.

Lemma never_left_loading_witness :
  loading (result (snd (handleRegenerateDraft unreachable
                          (snd (handleGenerateDraft unreachable initialPage)))))
  = false.
Proof.
  exact (never_left_loading unreachable _
           (reach_regenerate unreachable _
              (reach_generate unreachable _ (reach_initial unreachable)))).
Defined.

(** X16.  On a page a session can reach, once the guard of
    [handleRegenerateDraft] passes, building the contexts from the cached
    results cannot fail: exactly one request is sent, to the draft agent,
    with the contexts of the cached news and personality. *)
Theorem regenerate_reaches_the_draft_agent (rt : runtime) (p : page) :
  reachable rt p ->
  truthy (news (result p)) = true ->
  truthy (personality (result p)) = true ->
  exists pc nc,
    newsContext rt (news (result p)) = Return (Some nc)
    /\ personalityContext rt (personality (result p)) = Return pc
    /\ sent (snd (handleRegenerateDraft rt p))
       = (sent p ++ [draftRequest regeneratePrompt pc (Some nc)])%list.
Proof.
  intros Hr Tn Tp.
  destruct (reachable_committed_together rt p Hr) as [(Hn & _)|(Hs & Hv)].
  { rewrite Hn in Tn. discriminate Tn. }
  destruct (newsContext_with_summary rt _ Hs) as (nc & Hn).
  destruct (personality (result p)) as [|v] eqn:Ep; [discriminate Hv|].
  pose proof (personalityContext_of_value rt v Hv) as Hp.
  exists (stringify_js (field "personality_profile" v)), nc.
  split; [exact Hn|]. split; [exact Hp|].
  apply regenerate_draft_request; try assumption; now rewrite Ep.
Qed.

Lemma regenerate_reaches_the_draft_agent_witness :
  exists pc nc,
    newsContext refusedThenAccepted (J fiveNews) = Return (Some nc)
    /\ personalityContext refusedThenAccepted (J sampleProfile) = Return pc
    /\ sent (snd (handleRegenerateDraft refusedThenAccepted
                    (snd (handleGenerateDraft refusedThenAccepted
                            (snd (handleGenerateDraft refusedThenAccepted
                                    initialPage))))))
       = (sent (snd (handleGenerateDraft refusedThenAccepted
                       (snd (handleGenerateDraft refusedThenAccepted
                               initialPage))))
          ++ [draftRequest regeneratePrompt pc (Some nc)])%list.
Proof.
  exact (regenerate_reaches_the_draft_agent refusedThenAccepted _
           (reach_generate refusedThenAccepted _
              (reach_generate refusedThenAccepted _
                 (reach_initial refusedThenAccepted)))
           eq_refl eq_refl).
Defined.

(** ** [handleSaveDraft] *)

Lemma wf_saved (a b pv nv : jsval) (ts : string) :
  wf_js a = true -> wf_js b = true -> wf_js pv = true -> wf_js nv = true ->
  wf_json (JObj (defined_members
                   [ ("draft", a); ("metadata", b); ("timestamp", J (JStr ts));
                     ("personality", pv); ("news", nv) ])) = true.
Proof.
  destruct a, b, pv, nv; simpl; intros Ha Hb Hp Hn;
    rewrite ?Ha, ?Hb, ?Hp, ?Hn; reflexivity.
Qed.

(** X17.  In a session whose replies [response.json()] has read, with a
    draft on the page, [handleSaveDraft] offers a file named after the clock
    whose text is valid JSON: read back, it is the object of [savedData]
    without the members that are [undefined], every value in it as
    [JSON.stringify] leaves it (a negative zero reads back as [0], a number
    that is not finite as [null]). *)
Theorem saved_file_reads_back (c : clock) (rt : runtime) (p : page)
  (d : json) :
  parsed_bodies rt ->
  reachable rt p ->
  draft (result p) = J d ->
  truthy (J d) = true ->
  exists f,
    handleSaveDraft c (result p) = Some f
    /\ filename f = "discord-draft-" ++ print_number (now c) ++ ".json"
    /\ mime f = "application/json"
    /\ JSON_parse (content f)
       = Some (after_stringify
                 (JObj (defined_members
                          (savedData d (toISOString c) (result p))))).
Proof.
  intros Hrt Hp Hd Ht.
  destruct (reachable_wf rt p Hrt Hp) as (Hwn & Hwp & Hwd).
  rewrite Hd in Hwd.
  unfold handleSaveDraft. rewrite Hd, Ht.
  eexists. split; [reflexivity|]. split; [reflexivity|].
  split; [reflexivity|]. cbn [content].
  apply JSON_parse_stringify_indent. unfold savedData.
  apply wf_saved;
    [now apply wf_field | now apply wf_field | exact Hwp
    | now apply wf_optional_field].
Qed.

Lemma saved_file_reads_back_witness :
  exists f,
    handleSaveDraft sampleClock
      (result (snd (handleGenerateDraft allAccepted initialPage))) = Some f
    /\ filename f = "discord-draft-1735689600000.json"
    /\ mime f = "application/json"
    /\ JSON_parse (content f)
       = Some (JObj
                 [ ("draft", JStr "hello");
                   ("metadata",
                    JObj [ ("character_count", JNum (dec false [D5] [])) ]);
                   ("timestamp", JStr "2025-01-01T00:00:00.000Z");
                   ("personality", sampleProfile);
                   ("news",
                    JArr (map json_of_NewsItem
                            [item1; item2; item3; item4; item5])) ]).
Proof.
  exact (saved_file_reads_back sampleClock allAccepted
           (snd (handleGenerateDraft allAccepted initialPage))
           (sampleDraft "hello") allAccepted_parsed
           (reach_generate allAccepted initialPage (reach_initial allAccepted))
           eq_refl eq_refl).
Defined.

(** X18.  The saved file holds the whole news list, not the three items
    the draft was written from.  The text of the file is the indented JSON
    text of the [savedData] object, and in that object [news] is every item
    of [news_summary] in order, [personality] is the whole personality
    result and [timestamp] is the reading of the clock. *)
Theorem saved_file_holds_all_news (c : clock) (s : WorkflowResult)
  (d nv pv : json) (items : list json) :
  draft s = J d ->
  truthy (J d) = true ->
  news s = J nv ->
  field "news_summary" nv = J (JArr items) ->
  personality s = J pv ->
  exists f ms,
    handleSaveDraft c s = Some f
    /\ content f = JSON_stringify_indent EmptyString (JObj ms)
    /\ lookup "news" ms = Some (JArr items)
    /\ lookup "personality" ms = Some pv
    /\ lookup "timestamp" ms = Some (JStr (toISOString c)).
Proof.
  intros Hd Ht Hn Hi Hp.
  exists {| filename := "discord-draft-" ++ print_number (now c) ++ ".json";
            mime := "application/json";
            content :=
              JSON_stringify_indent EmptyString
                (JObj (defined_members (savedData d (toISOString c) s))) |},
         (defined_members (savedData d (toISOString c) s)).
  split; [unfold handleSaveDraft; now rewrite Hd, Ht|].
  split; [reflexivity|].
  unfold savedData. rewrite Hn, Hp.
  assert (Ho : optional_field "news_summary" (J nv) = J (JArr items)).
  { destruct nv; try discriminate Hi. exact Hi. }
  rewrite Ho.
  destruct (field "draft_message" d), (field "metadata" d);
    repeat split; reflexivity.
Qed.

Lemma saved_file_holds_all_news_witness :
  exists f ms,
    handleSaveDraft sampleClock
      (result (snd (handleGenerateDraft allAccepted initialPage))) = Some f
    /\ content f = JSON_stringify_indent EmptyString (JObj ms)
    /\ lookup "news" ms
       = Some (JArr (map json_of_NewsItem
                       [item1; item2; item3; item4; item5]))
    /\ lookup "personality" ms = Some sampleProfile
    /\ lookup "timestamp" ms = Some (JStr "2025-01-01T00:00:00.000Z").
Proof.
  exact (saved_file_holds_all_news sampleClock
           (result (snd (handleGenerateDraft allAccepted initialPage)))
           (sampleDraft "hello") fiveNews sampleProfile
           (map json_of_NewsItem [item1; item2; item3; item4; item5])
           eq_refl eq_refl eq_refl eq_refl eq_refl).
Defined.

(** X19.  Whenever a session has a draft to save, the file has a [news]
    and a [personality] member: on a page a session can reach, a truthy
    draft comes with a news result and a personality result, so the
    optional chaining of line 205 never yields [undefined] there and
    [personality] is never [null] in the file. *)
Theorem save_always_includes_the_context (rt : runtime) (p : page)
  (c : clock) :
  reachable rt p ->
  truthy (draft (result p)) = true ->
  exists d x y,
    draft (result p) = J d
    /\ optional_field "news_summary" (news (result p)) = J x
    /\ personality (result p) = J y
    /\ y <> JNull
    /\ lookup "news"
         (defined_members (savedData d (toISOString c) (result p))) = Some x
    /\ lookup "personality"
         (defined_members (savedData d (toISOString c) (result p))) = Some y.
Proof.
  intros Hr Td.
  destruct (reachable_committed_together rt p Hr) as [(_ & _ & Hd)|(Hs & Hv)].
  { rewrite Hd in Td. discriminate Td. }
  destruct (draft (result p)) as [|d] eqn:Ed; [discriminate Td|].
  destruct (personality (result p)) as [|y] eqn:Ep; [discriminate Hv|].
  destruct (news (result p)) as [|[|b|k|s|l|ms]] eqn:En; try discriminate Hs.
  simpl in Hs.
  assert (Hx : exists x,
             optional_field "news_summary" (J (JObj ms)) = J x).
  { unfold optional_field, field.
    destruct (lookup "news_summary" ms) as [x|]; [|discriminate Hs].
    now exists x. }
  destruct Hx as (x & Hx).
  exists d, x, y. split; [reflexivity|]. split; [exact Hx|].
  split; [reflexivity|].
  split; [intros ->; discriminate Hv|].
  unfold savedData. rewrite En, Ep, Hx.
  destruct (field "draft_message" d), (field "metadata" d);
    split; reflexivity.
Qed.

Lemma save_always_includes_the_context_witness :
  exists d x y,
    draft (result (snd (handleGenerateDraft allAccepted initialPage))) = J d
    /\ optional_field "news_summary"
         (news (result (snd (handleGenerateDraft allAccepted initialPage))))
       = J x
    /\ personality (result (snd (handleGenerateDraft allAccepted initialPage)))
       = J y
    /\ y <> JNull
    /\ lookup "news"
         (defined_members
            (savedData d (toISOString sampleClock)
               (result (snd (handleGenerateDraft allAccepted initialPage)))))
       = Some x
    /\ lookup "personality"
         (defined_members
            (savedData d (toISOString sampleClock)
               (result (snd (handleGenerateDraft allAccepted initialPage)))))
       = Some y.
Proof.
  exact (save_always_includes_the_context allAccepted _ sampleClock
           (reach_generate allAccepted _ (reach_initial allAccepted))
           eq_refl).
Defined.

(** X20.  What [JSON.parse] makes of a string payload (lines 120, 130, 145
    and 180): the payload is decoded exactly when it is a JSON text, to the
    value that text denotes, and the [SyntaxError] is thrown exactly when
    it is not a JSON text. *)
Theorem string_payload_is_read_as_json (rt : runtime) (text : string) :
  (forall v : jsval,
     decode rt (J (JStr text)) = Return v
     <-> exists a t b,
           all_ws a = true /\ wf_tree t = true /\ all_ws b = true
           /\ text = a ++ render t ++ b /\ v = J (value t))
  /\ (decode rt (J (JStr text)) = Throw (ErrorObject (syntax_error rt text))
      <-> ~ json_text text).
Proof.
  unfold decode. split; [intros v; split|split].
  - destruct (JSON_parse text) as [x|] eqn:E; [|discriminate].
    intros H. injection H as <-.
    destruct (JSON_parse_sound text x E) as (a & t & b & Ha & Ht & Hb & Et & Ev).
    exists a, t, b. now subst x.
  - intros (a & t & b & Ha & Ht & Hb & -> & ->).
    now rewrite (JSON_parse_render a t b Ha Ht Hb).
  - destruct (JSON_parse text) as [x|] eqn:E; [discriminate|].
    intros _. now apply JSON_parse_json_text.
  - intros H. apply JSON_parse_json_text in H. now rewrite H.
Qed.
